(** * WebChat: message relay, conversation store and authentication gate

    A shallow embedding of the two variants of the WebChat application:

    - the document-store variant: [components/chat/ChatArea.tsx]
      ([handleSubmit], [updateConversationTitle]), the chat API route that
      proxies the n8n webhook ([POST], response extraction), the client
      helper [sendMessageToN8n] of [lib/n8n.ts] and [deleteConversation] of
      the chat page;
    - the session-based variant: [backend/server.js] (login, resend
      verification, chat sessions, [POST /api/chat/message],
      [GET /api/chat/sessions/:sessionId/messages], the rooms of the
      socket server) and [backend/auth.js] (the router mounted on
      [/api/auth]).

    Further modules cover the code around these: registration, the
    [authenticateToken] middleware, both email verification endpoints and
    the session list of [backend/server.js] and [backend/auth.js], the
    [api] helper of [frontend/src/App.js], [createNewConversation] and the
    sidebar query of the chat page, and the allowed domains of the auth
    context.

    JavaScript strings are sequences of UTF-16 code units, JSON numbers are
    IEEE doubles, SQL tables are lists of rows, and every handler is a
    function from the store before the request to the store after it, the
    effects it performed in order, and the response. The two handlers that
    resend a verification link are given statement by statement as well,
    so that requests can be interleaved. *)

From Stdlib Require Import List String Ascii Bool ZArith NArith Lia.
From Stdlib Require Import Floats Uint63 DecimalString Permutation Sorted.
Import ListNotations.
Open Scope Z_scope.
Set Warnings "-register-all".

(* ===================================================================== *)
(** * JavaScript values *)
(* ===================================================================== *)

Module JS.

(** A string is the list of its UTF-16 code units; [length] and [slice]
    count code units, as in the language. *)
Definition code_unit := N.
Definition jsstring := list code_unit.

(** An ASCII literal of the source, as a JavaScript string. *)
Definition lit (s : string) : jsstring :=
  map N_of_ascii (list_ascii_of_string s).

Definition eqb (a b : jsstring) : bool :=
  if list_eq_dec N.eq_dec a b then true else false.

(** [!s]: a string is falsy exactly when it is empty. *)
Definition str_truthy (s : jsstring) : bool :=
  match s with [] => false | _ :: _ => true end.

(** WhiteSpace and LineTerminator code points, the set [String.prototype.trim]
    strips. *)
Definition is_white_space (c : code_unit) : bool :=
  (N.eqb c 9 || N.eqb c 10 || N.eqb c 11 || N.eqb c 12 || N.eqb c 13
   || N.eqb c 32 || N.eqb c 160 || N.eqb c 5760
   || (N.leb 8192 c && N.leb c 8202)
   || N.eqb c 8232 || N.eqb c 8233 || N.eqb c 8239 || N.eqb c 8287
   || N.eqb c 12288 || N.eqb c 65279)%N%bool.

Fixpoint trimStart (s : jsstring) : jsstring :=
  match s with
  | [] => []
  | c :: r => if is_white_space c then trimStart r else s
  end.

Definition trimEnd (s : jsstring) : jsstring := rev (trimStart (rev s)).

Definition trim (s : jsstring) : jsstring := trimEnd (trimStart s).

(** [s.slice(0, n)]. *)
Definition slice0 (n : nat) (s : jsstring) : jsstring := firstn n s.

(** Decimal rendering of an integer, as template literals print it. *)
Definition of_Z (z : Z) : jsstring := lit (NilZero.string_of_int (Z.to_int z)).

(** The Number nearest to an integer, ties to the even significand: what
    [ToNumber] makes of a decimal literal, and what the arithmetic on
    integral doubles makes of an exact result. A double has 53 significant
    bits; [None] stands for an infinity. *)
Definition double (z : Z) : option Z :=
  let a := Z.abs z in
  let e := Z.log2 a - 52 in
  if e <=? 0 then Some z
  else
    let q := a / 2 ^ e in
    let r := a mod 2 ^ e in
    let half := 2 ^ (e - 1) in
    let q' := if (r <? half) || ((r =? half) && Z.even q) then q else q + 1 in
    if 2 ^ 1024 <=? q' * 2 ^ e then None else Some (Z.sgn z * (q' * 2 ^ e)).

(** ** JSON values

    The result of [JSON.parse] (or of a decoded response body). An object
    is the list of its own properties in enumeration order. *)
Inductive json :=
| JNull
| JBool (b : bool)
| JNum (x : float)
| JStr (s : jsstring)
| JArr (items : list json)
| JObj (fields : list (jsstring * json)).

(** ToBoolean. *)
Definition truthy (v : json) : bool :=
  match v with
  | JNull => false
  | JBool b => b
  | JNum x => negb (PrimFloat.is_zero x || PrimFloat.is_nan x)
  | JStr s => str_truthy s
  | JArr _ | JObj _ => true
  end.

(** [typeof v === 'string']. *)
Definition is_string (v : json) : bool :=
  match v with JStr _ => true | _ => false end.

Fixpoint assoc (k : jsstring) (fields : list (jsstring * json)) : option json :=
  match fields with
  | [] => None
  | (k', v) :: r => if eqb k k' then Some v else assoc k r
  end.

(** The outcome of evaluating [data.k] for one of the property names the
    source probes (none of them is defined on a prototype): reading a
    property of [null] throws a TypeError, a missing property is
    [undefined]. *)
Inductive lookup :=
| TypeError
| Undefined
| Value (v : json).

Definition get (data : json) (k : jsstring) : lookup :=
  match data with
  | JNull => TypeError
  | JObj fields =>
      match assoc k fields with
      | Some v => Value v
      | None => Undefined
      end
  | _ => Undefined
  end.

(** [data.k] when it is truthy and [otherwise] when it is not, the step of
    an [if (data.k) ... else ...] chain and of [data.k || ...]; [None] when
    reading the property throws. *)
Definition pick (data : json) (k : string) (otherwise : option json)
    : option json :=
  match get data (lit k) with
  | TypeError => None
  | Undefined => otherwise
  | Value v => if truthy v then Some v else otherwise
  end.

(** ** JSON.stringify *)

Definition hex_digit (n : N) : code_unit :=
  (if n <? 10 then 48 + n else 87 + n)%N.

Definition hex4 (c : code_unit) : jsstring :=
  [hex_digit (N.shiftr c 12 mod 16); hex_digit (N.shiftr c 8 mod 16);
   hex_digit (N.shiftr c 4 mod 16); hex_digit (c mod 16)]%N.

Definition unicode_escape (c : code_unit) : jsstring :=
  [92; 117]%N ++ hex4 c.

Definition is_high_surrogate (c : code_unit) : bool :=
  (N.leb 55296 c && N.leb c 56319)%N.

Definition is_low_surrogate (c : code_unit) : bool :=
  (N.leb 56320 c && N.leb c 57343)%N.

(** [String.prototype.isWellFormed]: every surrogate is half of a pair. *)
Fixpoint isWellFormed (s : jsstring) : bool :=
  match s with
  | [] => true
  | c :: r =>
      if is_high_surrogate c then
        match r with
        | d :: r' => is_low_surrogate d && isWellFormed r'
        | [] => false
        end
      else negb (is_low_surrogate c) && isWellFormed r
  end.

(** The body of QuoteJSONString: [prev_high] tells whether the previous
    code unit was a high surrogate that this one may complete. *)
Fixpoint quote_units (prev_high : bool) (s : jsstring) : jsstring :=
  match s with
  | [] => []
  | c :: r =>
      if N.eqb c 8 then [92; 98]%N ++ quote_units false r
      else if N.eqb c 9 then [92; 116]%N ++ quote_units false r
      else if N.eqb c 10 then [92; 110]%N ++ quote_units false r
      else if N.eqb c 12 then [92; 102]%N ++ quote_units false r
      else if N.eqb c 13 then [92; 114]%N ++ quote_units false r
      else if N.eqb c 34 then [92; 34]%N ++ quote_units false r
      else if N.eqb c 92 then [92; 92]%N ++ quote_units false r
      else if N.ltb c 32 then unicode_escape c ++ quote_units false r
      else if is_high_surrogate c then
        match r with
        | d :: _ =>
            if is_low_surrogate d then c :: quote_units true r
            else unicode_escape c ++ quote_units false r
        | [] => unicode_escape c
        end
      else if is_low_surrogate c then
        (if prev_high then [c] else unicode_escape c) ++ quote_units false r
      else c :: quote_units false r
  end.

Definition quote (s : jsstring) : jsstring :=
  [34%N] ++ quote_units false s ++ [34%N].

Fixpoint join (sep : jsstring) (parts : list jsstring) : jsstring :=
  match parts with
  | [] => []
  | [p] => p
  | p :: r => p ++ sep ++ join sep r
  end.

(** What the language leaves to the engine or to a library: the shortest
    round-trip rendering of a double, and [JSON.parse] ([None] when it
    throws a SyntaxError). *)
Class Engine := {
  Number_toString : float -> jsstring;
  JSON_parse : jsstring -> option json
}.

Section Stringify.
Context {engine : Engine}.

(** Brackets around the serialised members, following SerializeJSONObject
    and SerializeJSONArray: [stepback] is the indentation outside, [indent]
    the one inside. *)
Definition enclose (open close : code_unit) (gap stepback indent : jsstring)
    (partial : list jsstring) : jsstring :=
  match partial with
  | [] => [open; close]
  | _ :: _ =>
      if str_truthy gap then
        [open] ++ [10%N] ++ indent
          ++ join ([44; 10]%N ++ indent) partial
          ++ [10%N] ++ stepback ++ [close]
      else [open] ++ join [44%N] partial ++ [close]
  end.

Fixpoint serialize (gap indent : jsstring) (v : json) {struct v} : jsstring :=
  match v with
  | JNull => lit "null"
  | JBool true => lit "true"
  | JBool false => lit "false"
  | JNum x => if PrimFloat.is_finite x then Number_toString x else lit "null"
  | JStr s => quote s
  | JArr items =>
      let inner := indent ++ gap in
      enclose 91%N 93%N gap indent inner
        ((fix each (l : list json) : list jsstring :=
            match l with
            | [] => []
            | x :: r => serialize gap inner x :: each r
            end) items)
  | JObj fields =>
      let inner := indent ++ gap in
      let colon := if str_truthy gap then [58; 32]%N else [58%N] in
      enclose 123%N 125%N gap indent inner
        ((fix each (l : list (jsstring * json)) : list jsstring :=
            match l with
            | [] => []
            | (k, x) :: r =>
                (quote k ++ colon ++ serialize gap inner x) :: each r
            end) fields)
  end.

(** [JSON.stringify(v)]. *)
Definition JSON_stringify (v : json) : jsstring := serialize [] [] v.

(** [JSON.stringify(v, null, 2)]. *)
Definition JSON_stringify_pretty (v : json) : jsstring :=
  serialize (lit "  ") [] v.

End Stringify.

End JS.

(* ===================================================================== *)
(** * The document-store variant *)
(* ===================================================================== *)

Module Client.
Import JS.

(** ** Records of [types/index.ts] *)

Inductive Role := user | assistant.

(** A message document. [content] is declared a string; what the relay
    writes there is whatever value the proxy returned, so the model keeps
    it a JSON value. *)
Record Message := mkMessage {
  role : Role;
  content : json;
  createdAt : Z
}.

Record Conversation := mkConversation {
  id : jsstring;
  userId : jsstring;
  title : jsstring;
  conv_createdAt : Z;
  updatedAt : Z
}.

(** ** The document store

    [conversations] is the top-level collection; [message_docs] holds the
    documents of every [conversations/<id>/messages] subcollection, in the
    order they were added, each with the id of its conversation. *)
Record Firestore := mkFirestore {
  conversations : list Conversation;
  message_docs : list (jsstring * Message)
}.

(** The operations the client code issues. *)
Inductive access := CreateMessage | UpdateConversation | DeleteConversation.

(** The security rules deployed with the store are not part of the
    repository: they are a parameter, deciding each request from the signed-in
    user, the operation, the conversation id and the current documents. *)
Definition Rules := jsstring -> access -> jsstring -> Firestore -> bool.

Inductive FirestoreError := permission_denied | not_found.

Inductive result (A : Type) :=
| Resolved (a : A)
| Rejected (e : FirestoreError).
Arguments Resolved {A} a.
Arguments Rejected {A} e.

Definition has_conversation (c : jsstring) (db : Firestore) : bool :=
  existsb (fun d => eqb (id d) c) (conversations db).

(** The three writes, once admitted. *)
Definition put_message (c : jsstring) (m : Message) (db : Firestore) : Firestore :=
  mkFirestore (conversations db) (message_docs db ++ [(c, m)]).

Definition patch (c : jsstring) (set : Conversation -> Conversation)
    (db : Firestore) : Firestore :=
  mkFirestore
    (map (fun d => if eqb (id d) c then set d else d) (conversations db))
    (message_docs db).

Definition remove (c : jsstring) (db : Firestore) : Firestore :=
  mkFirestore
    (filter (fun d => negb (eqb (id d) c)) (conversations db))
    (message_docs db).

(** [addDoc(collection(db, 'conversations', c, 'messages'), m)]. *)
Definition addDoc (R : Rules) (uid c : jsstring) (m : Message)
    (db : Firestore) : result Firestore :=
  if R uid CreateMessage c db then Resolved (put_message c m db)
  else Rejected permission_denied.

(** [updateDoc(doc(db, 'conversations', c), fields)]: fails when the
    document does not exist. *)
Definition updateDoc (R : Rules) (uid c : jsstring)
    (set : Conversation -> Conversation) (db : Firestore) : result Firestore :=
  if R uid UpdateConversation c db then
    if has_conversation c db then Resolved (patch c set db)
    else Rejected not_found
  else Rejected permission_denied.

(** [deleteDoc(doc(db, 'conversations', c))]: deleting a missing document
    succeeds; subcollections are left in place. *)
Definition deleteDoc (R : Rules) (uid c : jsstring) (db : Firestore)
    : result Firestore :=
  if R uid DeleteConversation c db then Resolved (remove c db)
  else Rejected permission_denied.

(** The documents of one conversation's [messages] subcollection. *)
Definition messages_of (c : jsstring) (db : Firestore) : list Message :=
  map snd (filter (fun cm => eqb (fst cm) c) (message_docs db)).

(** ** Effects, in the order they happen *)
Inductive event :=
| Wrote (c : jsstring) (m : Message)
| SetTitle (c title : jsstring)
| Touched (c : jsstring)
| CalledApi (message conversationId : jsstring)
| CalledWebhook (message conversationId : jsstring)
| TitleChanged (title : jsstring)
| Logged (what : string).

(** ** The chat API route: [POST] *)

Inductive fetch_result :=
| NetworkError
| Response (status : Z) (body : jsstring).

(** [response.ok]. *)
Definition ok (status : Z) : bool := (200 <=? status) && (status <=? 299).

(** What the surroundings decide during one send: the clock of the store,
    the time the relay takes, whether the browser reaches the API route,
    the configured webhook URL and the answer of the webhook. *)
Record World := mkWorld {
  now : Z;
  elapsed : Z;
  api_reachable : bool;
  webhookUrl : jsstring;
  upstream : fetch_result
}.

Record NextResponse := mkNextResponse {
  status : Z;
  body : json
}.

Section Relay.
Context {engine : Engine}.

(** The text the route extracts from the raw webhook body. *)
Definition responseText (rawText : jsstring) : json :=
  match JSON_parse rawText with
  | Some data =>
      if is_string data then data
      else
        match
          pick data "responseBody"
            (pick data "redacted"
               (pick data "message"
                  (pick data "output"
                     (pick data "text"
                        (Some (JStr (JSON_stringify data)))))))
        with
        | Some text => text
        | None => JStr rawText
        end
  | None => JStr rawText
  end.

Definition error_body (msg : jsstring) : json :=
  JObj [(lit "error", JStr msg)].

Definition POST (w : World) (message conversationId : jsstring)
    : list event * NextResponse :=
  if negb (str_truthy (webhookUrl w)) then
    ([], mkNextResponse 500 (error_body (lit "N8N webhook URL is not configured")))
  else
    match upstream w with
    | NetworkError =>
        ([CalledWebhook message conversationId; Logged "Error in chat API:"],
         mkNextResponse 500 (error_body (lit "Failed to process chat request")))
    | Response st rawText =>
        if negb (ok st) then
          ([CalledWebhook message conversationId; Logged "N8N response not ok:"],
           mkNextResponse st
             (error_body (lit "N8N request failed with status: " ++ of_Z st)))
        else
          ([CalledWebhook message conversationId],
           mkNextResponse 200 (JObj [(lit "responseBody", responseText rawText)]))
    end.

(** What [response.json()] reads on the client from the body the route
    handed to [NextResponse.json]: the value is serialised there and parsed
    here, so that a number that is not finite arrives as [null]. [None]
    when the parse throws. *)
Definition received (body : json) : option json :=
  JSON_parse (JSON_stringify body).

(** ** [lib/n8n.ts]: [sendMessageToN8n]

    [None] when the promise rejects. *)
Definition sendMessageToN8n (w : World) (message conversationId : jsstring)
    : list event * option json :=
  if negb (api_reachable w) then
    ([CalledApi message conversationId; Logged "Error sending message to N8N:"],
     None)
  else
    let '(evs, response) := POST w message conversationId in
    let evs := CalledApi message conversationId :: evs in
    let thrown := (evs ++ [Logged "Error sending message to N8N:"], None) in
    if negb (ok (status response)) then thrown
    else
      match received (body response) with
      | None => thrown
      | Some data =>
          match pick data "error" (Some JNull) with
          | Some JNull =>
              if is_string data then (evs, Some data)
              else
                match
                  pick data "responseBody" (Some (JStr (JSON_stringify data)))
                with
                | Some text => (evs, Some text)
                | None => thrown
                end
          | _ => thrown
          end
      end.

(** ** [ChatArea.tsx] *)

(** The state of the component: the text box, the in-flight flag and the
    messages the snapshot listener delivered last. *)
Record ChatArea := mkChatArea {
  input : jsstring;
  loading : bool;
  messages : list Message
}.

(** The component as it is mounted: the three [useState] calls. The list
    stays empty until the snapshot listener delivers for the first time,
    and the page renders [ChatArea] without a [key], so that after another
    conversation is selected the component keeps the list of the former
    one until the listener of the new one delivers. *)
Definition mounted : ChatArea := mkChatArea [] false [].

(** [handleTextareaChange]: the text box follows what is typed. *)
Definition handleTextareaChange (value : jsstring) (st : ChatArea) : ChatArea :=
  mkChatArea value (loading st) (messages st).

(** The callback of [onSnapshot]: the list becomes the documents [msgs] of
    the snapshot. *)
Definition onSnapshot (msgs : list Message) (st : ChatArea) : ChatArea :=
  mkChatArea (input st) (loading st) msgs.

Definition fallback_text : jsstring :=
  lit "Sorry, an error occurred. Please try again.".

(** [firstMessage.slice(0, 50) + (firstMessage.length > 50 ? '...' : '')]. *)
Definition title_of (firstMessage : jsstring) : jsstring :=
  slice0 50 firstMessage
    ++ (if (50 <? List.length firstMessage)%nat then lit "..." else []).

(** The fields the two [updateDoc] calls set: [{ title, updatedAt }] and
    [{ updatedAt }]. *)
Definition retitle (title : jsstring) (t : Z) (d : Conversation) : Conversation :=
  mkConversation (id d) (userId d) title (conv_createdAt d) t.

Definition touch (t : Z) (d : Conversation) : Conversation :=
  mkConversation (id d) (userId d) (title d) (conv_createdAt d) t.

Definition updateConversationTitle (R : Rules) (uid : jsstring) (w : World)
    (conversationId firstMessage : jsstring) (db : Firestore)
    : Firestore * list event :=
  let title := title_of firstMessage in
  match updateDoc R uid conversationId (retitle title (now w)) db with
  | Resolved db' => (db', [SetTitle conversationId title; TitleChanged title])
  | Rejected _ => (db, [Logged "Error updating title:"])
  end.

(** The [catch] block of [handleSubmit], entered at time [t] after the
    effects [evs]; a rejection of its own write is not handled. *)
Definition on_error (R : Rules) (uid conversationId : jsstring) (t : Z)
    (st : ChatArea) (db : Firestore) (evs : list event)
    : Firestore * ChatArea * list event :=
  let reply := mkMessage assistant (JStr fallback_text) t in
  match addDoc R uid conversationId reply db with
  | Resolved db' =>
      (db', st, evs ++ [Logged "Error sending message:"; Wrote conversationId reply])
  | Rejected _ => (db, st, evs ++ [Logged "Error sending message:"])
  end.

Definition handleSubmit (R : Rules) (uid : jsstring) (w : World)
    (conversationId : jsstring) (st : ChatArea) (db : Firestore)
    : Firestore * ChatArea * list event :=
  if negb (str_truthy (trim (input st))) || loading st then (db, st, [])
  else
    let userMessage := trim (input st) in
    let finally := mkChatArea [] false (messages st) in
    let sent := mkMessage user (JStr userMessage) (now w) in
    match addDoc R uid conversationId sent db with
    | Rejected _ => on_error R uid conversationId (now w) finally db []
    | Resolved db1 =>
        let ev1 := [Wrote conversationId sent] in
        let '(db2, ev2) :=
          if (List.length (messages st) =? 0)%nat
          then updateConversationTitle R uid w conversationId userMessage db1
          else (db1, []) in
        match updateDoc R uid conversationId (touch (now w)) db2 with
        | Rejected _ =>
            on_error R uid conversationId (now w) finally db2 (ev1 ++ ev2)
        | Resolved db3 =>
            let '(ev3, response) := sendMessageToN8n w userMessage conversationId in
            let evs := ev1 ++ ev2 ++ [Touched conversationId] ++ ev3 in
            let t := now w + elapsed w in
            match response with
            | None => on_error R uid conversationId t finally db3 evs
            | Some text =>
                let reply := mkMessage assistant text t in
                match addDoc R uid conversationId reply db3 with
                | Resolved db4 =>
                    (db4, finally, evs ++ [Wrote conversationId reply])
                | Rejected _ => on_error R uid conversationId t finally db3 evs
                end
            end
        end
    end.

End Relay.

(** ** The chat page: [deleteConversation]

    The only place the owner of a conversation appears in the client is the
    query that fills the sidebar, [where('userId', '==', user.uid)] (its
    ordering is left out). *)
Definition sidebar (uid : jsstring) (db : Firestore) : list Conversation :=
  filter (fun d => eqb (userId d) uid) (conversations db).

Definition deleteConversation (R : Rules) (uid convId : jsstring)
    (selectedConversation : option jsstring) (db : Firestore)
    : Firestore * option jsstring * list event :=
  match deleteDoc R uid convId db with
  | Resolved db' =>
      (db',
       match selectedConversation with
       | Some c => if eqb c convId then None else Some c
       | None => None
       end,
       [])
  | Rejected _ =>
      (db, selectedConversation, [Logged "Error deleting conversation:"])
  end.

End Client.

(* ===================================================================== *)
(** * The session-based variant *)
(* ===================================================================== *)

Module Server.
Import JS.

(** ** Configuration and tables

    [config.json] is not part of the repository; the settings the handlers
    read are a parameter. The columns of a table keep their names, behind
    the initials of the table. *)
Record config := mkConfig {
  auth_requireEmailVerification : bool;
  webhook_enabled : bool;
  webhook_url : jsstring;
  features_userActivityLogging : bool;
  verification_expiryHours : Z
}.

Record users_row := mkUser {
  u_id : Z;
  u_email : jsstring;
  u_password_hash : jsstring;
  u_first_name : jsstring;
  u_last_name : jsstring;
  u_is_active : bool;
  u_email_verified : bool;
  u_last_login : option Z
}.

Record chat_sessions_row := mkSession {
  cs_id : Z;
  cs_user_id : Z;
  cs_session_name : jsstring;
  cs_created_at : Z;
  cs_updated_at : Z;
  cs_is_active : bool
}.

(** The column [message_type]: ['user'] or ['bot']. *)
Inductive message_type := user | bot.

Record messages_row := mkMessage {
  m_id : Z;
  m_session_id : Z;
  m_user_id : Z;
  m_message_text : jsstring;
  m_message_type : message_type;
  m_webhook_response : option jsstring;
  m_created_at : Z;
  m_response_time_ms : option Z
}.

Record tokens_row := mkToken {
  t_id : Z;
  t_user_id : Z;
  t_token : jsstring;
  t_expires_at : Z;
  t_created_at : Z;
  t_used_at : option Z;
  t_is_used : bool
}.

Record activity_row := mkActivity {
  a_user_id : Z;
  a_activity_type : string;
  a_created_at : Z
}.

(** The tables, each in insertion order, and the two sequences behind the
    SERIAL keys the handlers draw from. *)
Record database := mkDatabase {
  users : list users_row;
  chat_sessions : list chat_sessions_row;
  messages : list messages_row;
  email_verification_tokens : list tokens_row;
  user_activity_logs : list activity_row;
  messages_id_seq : Z;
  tokens_id_seq : Z
}.

(** ** The surroundings of one request *)

(** The outcome of the [axios] call. *)
Inductive axios_outcome :=
| NetworkFailure
| Timeout
| Replied (status : Z) (data : json).

Record world := mkWorld {
  now : Z;
  elapsed : Z;
  webhook : axios_outcome;
  randomBytes : jsstring;
  emailSent : bool
}.

(** Library functions the handlers call. *)
Class Libraries := {
  bcrypt_compare : jsstring -> jsstring -> bool;
  jwt_sign : Z -> jsstring;
  arrayString : list json -> jsstring
}.

(** ** Responses

    [Error st msg] is [res.status(st).json({ error: msg })];
    [EmailNotVerified email] is the 403 answer of the login with
    [code: 'EMAIL_NOT_VERIFIED'] and the email; [AlreadyVerified] the 400
    answer with [code: 'ALREADY_VERIFIED']; [RouterReply st success msg] the
    [{ success, message }] answers of [auth.js]; the others are the 200
    answers of the handler they are named after. *)
Inductive response :=
| Error (status : Z) (error : string)
| EmailNotVerified (email : jsstring)
| AlreadyVerified
| LoggedIn (token : jsstring) (u : users_row)
| VerificationSent (email : jsstring)
| RouterReply (status : Z) (success : bool) (message : string)
| SessionDeleted
| MessageSent (userMessage : messages_row) (webhookResponse : option json)
    (responseTime : option Z)
| MessageList (rows : list messages_row).

Definition status_of (r : response) : Z :=
  match r with
  | Error st _ => st
  | EmailNotVerified _ => 403
  | AlreadyVerified => 400
  | RouterReply st _ _ => st
  | LoggedIn _ _ | VerificationSent _ | SessionDeleted
  | MessageSent _ _ _ | MessageList _ => 200
  end.

(** The machine-readable [code] field of the body, when it has one. *)
Definition code_of (r : response) : option string :=
  match r with
  | EmailNotVerified _ => Some "EMAIL_NOT_VERIFIED"%string
  | AlreadyVerified => Some "ALREADY_VERIFIED"%string
  | _ => None
  end.

(** The session token of the body, when it has one. *)
Definition token_of (r : response) : option jsstring :=
  match r with
  | LoggedIn token _ => Some token
  | _ => None
  end.

(** Effects of the message relay, in the order they happen. [Emitted room m]
    is [io.to(`session_${room}`).emit('newMessage', m)]. *)
Inductive event :=
| Inserted (m : messages_row)
| Emitted (room : Z) (m : messages_row)
| WebhookCalled (message : jsstring) (userId sessionId : Z)
| Logged (what : string).

(** ** The socket server

    Which socket is in which room: a pair [(socket, id)] stands for the
    socket being in [session_<id>]. *)
Definition rooms := list (Z * Z).

(** [socket.on('joinSession', ...)]: the socket joins the room of the id it
    names. The handler sees no token and looks at no table. *)
Definition joinSession (socket sessionId : Z) (joined : rooms) : rooms :=
  (socket, sessionId) :: joined.

(** A socket that disconnects leaves its rooms. *)
Definition disconnect (socket : Z) (joined : rooms) : rooms :=
  filter (fun sr => negb (fst sr =? socket)) joined.

Definition in_room (socket room : Z) (joined : rooms) : bool :=
  existsb (fun sr => (fst sr =? socket) && (snd sr =? room)) joined.

(** The ['newMessage'] events a socket receives of the effects of a
    request: what was emitted to a room it is in, in that order. *)
Definition newMessages (joined : rooms) (socket : Z) (evs : list event)
    : list messages_row :=
  flat_map
    (fun e =>
       match e with
       | Emitted room m => if in_room socket room joined then [m] else []
       | _ => []
       end)
    evs.

(** ** Helpers *)

(** A body field that passes [!field]: present and not the empty string. *)
Definition given (field : option jsstring) : option jsstring :=
  match field with
  | Some (c :: r) => Some (c :: r)
  | _ => None
  end.

(** An id that passes [!sessionId]: present and not zero. *)
Definition given_id (field : option Z) : option Z :=
  match field with
  | Some z => if z =? 0 then None else Some z
  | None => None
  end.

Definition logUserActivity (cfg : config) (userId : Z) (activityType : string)
    (t : Z) (db : database) : database :=
  if features_userActivityLogging cfg then
    mkDatabase (users db) (chat_sessions db) (messages db)
      (email_verification_tokens db)
      (user_activity_logs db ++ [mkActivity userId activityType t])
      (messages_id_seq db) (tokens_id_seq db)
  else db.

Definition set_users (f : list users_row -> list users_row) (db : database) :=
  mkDatabase (f (users db)) (chat_sessions db) (messages db)
    (email_verification_tokens db) (user_activity_logs db)
    (messages_id_seq db) (tokens_id_seq db).

Definition set_chat_sessions
    (f : list chat_sessions_row -> list chat_sessions_row) (db : database) :=
  mkDatabase (users db) (f (chat_sessions db)) (messages db)
    (email_verification_tokens db) (user_activity_logs db)
    (messages_id_seq db) (tokens_id_seq db).

Definition set_tokens (f : list tokens_row -> list tokens_row) (db : database) :=
  mkDatabase (users db) (chat_sessions db) (messages db)
    (f (email_verification_tokens db)) (user_activity_logs db)
    (messages_id_seq db) (tokens_id_seq db).

(** [INSERT INTO messages ... RETURNING *], of a row PostgreSQL takes. It
    refuses one whose text holds U+0000 and one that fits no more into an
    INTEGER column or into the sequence of the key; the handler answers
    500 when the message of the user is refused, and stores no bot message
    when that of the bot is ([Spec.bot_message_accepted]). *)
Definition insert_message (session_id user_id : Z) (text : jsstring)
    (ty : message_type) (webhook_response : option jsstring)
    (response_time_ms : option Z) (t : Z) (db : database)
    : database * messages_row :=
  let row := mkMessage (messages_id_seq db) session_id user_id text ty
               webhook_response t response_time_ms in
  (mkDatabase (users db) (chat_sessions db) (messages db ++ [row])
     (email_verification_tokens db) (user_activity_logs db)
     (messages_id_seq db + 1) (tokens_id_seq db),
   row).

(** [INSERT INTO email_verification_tokens (user_id, token, expires_at)]:
    the column [token] is UNIQUE, so the statement fails on a token that is
    already in the table. *)
Definition insert_token (user_id : Z) (token : jsstring) (expires_at t : Z)
    (db : database) : option database :=
  if existsb (fun r => eqb (t_token r) token) (email_verification_tokens db)
  then None
  else
    Some (mkDatabase (users db) (chat_sessions db) (messages db)
            (email_verification_tokens db
               ++ [mkToken (tokens_id_seq db) user_id token expires_at t None false])
            (user_activity_logs db)
            (messages_id_seq db) (tokens_id_seq db + 1)).

(** ** Requests in flight

    Where a resend-verification request stands between two [await]s, with
    the row of [users] it holds: before its SELECT, before its DELETE,
    before its INSERT, before the email is sent, before the activity is
    logged, or answered. *)
Inductive resend :=
| Received (email : option jsstring)
| Found (u : users_row)
| Cleared (u : users_row)
| Issued (u : users_row)
| Mailed (u : users_row)
| Answered (r : response).

(** One request, [n] statements further, nothing in between. *)
Fixpoint alone (step : resend -> database -> database * resend) (n : nat)
    (t : resend) (db : database) : database * resend :=
  match n with
  | O => (db, t)
  | S n => let '(db', t') := step t db in alone step n t' db'
  end.

Fixpoint set_nth {A : Type} (i : nat) (x : A) (l : list A) : list A :=
  match l, i with
  | [], _ => []
  | _ :: r, O => x :: r
  | y :: r, S i => y :: set_nth i x r
  end.

(** Several requests, each with its own surroundings: [schedule] names,
    one after the other, the request whose next statement reaches the
    database. *)
Fixpoint interleave (step : world -> resend -> database -> database * resend)
    (schedule : list nat) (requests : list (world * resend)) (db : database)
    : database * list (world * resend) :=
  match schedule with
  | [] => (db, requests)
  | i :: rest =>
      match nth_error requests i with
      | Some (w, t) =>
          let '(db', t') := step w t db in
          interleave step rest (set_nth i (w, t') requests) db'
      | None => interleave step rest requests db
      end
  end.

Section Handlers.
Context {engine : Engine} {libraries : Libraries}.
Variable cfg : config.

(** ** [POST /api/auth/login] *)
Definition login (w : world) (email password : option jsstring)
    (db : database) : database * response :=
  match given email, given password with
  | Some email, Some password =>
      match
        find (fun u => eqb (u_email u) email && u_is_active u) (users db)
      with
      | None => (db, Error 401 "Invalid credentials")
      | Some u =>
          if auth_requireEmailVerification cfg && negb (u_email_verified u)
          then (db, EmailNotVerified (u_email u))
          else if negb (bcrypt_compare password (u_password_hash u))
          then (db, Error 401 "Invalid credentials")
          else
            let db1 :=
              set_users
                (map (fun r =>
                        if u_id r =? u_id u then
                          mkUser (u_id r) (u_email r) (u_password_hash r)
                            (u_first_name r) (u_last_name r) (u_is_active r)
                            (u_email_verified r) (Some (now w))
                        else r))
                db in
            let token := jwt_sign (u_id u) in
            (logUserActivity cfg (u_id u) "login" (now w) db1, LoggedIn token u)
      end
  | _, _ => (db, Error 400 "Email and password are required")
  end.

(** ** [POST /api/auth/resend-verification], as [server.js] defines it

    A handler runs from one [await] to the next in one piece; between two
    of them the statements of other requests reach the database. The
    statements of the handler are taken one at a time by [resend_step];
    [resendVerification] is the request running alone, its statements one
    after the other with nothing in between. No transaction or lock ties
    the DELETE to the INSERT. *)

(** [DELETE FROM email_verification_tokens WHERE user_id = $1 AND used_at
    IS NULL]. *)
Definition delete_without_used_at (userId : Z) (db : database) : database :=
  set_tokens
    (filter (fun r =>
               negb ((t_user_id r =? userId)
                     && match t_used_at r with
                        | None => true
                        | Some _ => false
                        end)))
    db.

Definition resend_step (w : world) (t : resend) (db : database)
    : database * resend :=
  match t with
  | Received email =>
      match given email with
      | None => (db, Answered (Error 400 "Email is required"))
      | Some email =>
          match
            find (fun u => eqb (u_email u) email && u_is_active u) (users db)
          with
          | None => (db, Answered (Error 404 "User not found"))
          | Some u =>
              if u_email_verified u then (db, Answered AlreadyVerified)
              else (db, Found u)
          end
      end
  | Found u => (delete_without_used_at (u_id u) db, Cleared u)
  | Cleared u =>
      match
        insert_token (u_id u) (randomBytes w)
          (now w + verification_expiryHours cfg * 3600000) (now w) db
      with
      | None => (db, Answered (Error 500 "Internal server error"))
      | Some db2 => (db2, Issued u)
      end
  | Issued u =>
      if negb (emailSent w)
      then (db, Answered (Error 500 "Failed to send verification email"))
      else (db, Mailed u)
  | Mailed u =>
      (logUserActivity cfg (u_id u) "verification_email_resent" (now w) db,
       Answered (VerificationSent (u_email u)))
  | Answered r => (db, Answered r)
  end.

Definition resendVerification (w : world) (email : option jsstring)
    (db : database) : database * response :=
  match given email with
  | None => (db, Error 400 "Email is required")
  | Some email =>
      match
        find (fun u => eqb (u_email u) email && u_is_active u) (users db)
      with
      | None => (db, Error 404 "User not found")
      | Some u =>
          if u_email_verified u then (db, AlreadyVerified)
          else
            let db1 := delete_without_used_at (u_id u) db in
            match
              insert_token (u_id u) (randomBytes w)
                (now w + verification_expiryHours cfg * 3600000) (now w) db1
            with
            | None => (db1, Error 500 "Internal server error")
            | Some db2 =>
                if negb (emailSent w)
                then (db2, Error 500 "Failed to send verification email")
                else
                  (logUserActivity cfg (u_id u) "verification_email_resent"
                     (now w) db2,
                   VerificationSent (u_email u))
            end
      end
  end.

(** ** [router.post('/resend-verification')] of [auth.js]

    The router is mounted on [/api/auth] before [server.js] registers its
    own handler for the same path, so this is the one that answers. Its
    statements go through one client of the pool, outside any transaction. *)

(** [DELETE FROM email_verification_tokens WHERE user_id = $1 AND is_used =
    false]. *)
Definition delete_not_used (userId : Z) (db : database) : database :=
  set_tokens
    (filter (fun r => negb ((t_user_id r =? userId) && negb (t_is_used r))))
    db.

Definition router_resend_step (w : world) (t : resend) (db : database)
    : database * resend :=
  match t with
  | Received email =>
      match given email with
      | None => (db, Answered (RouterReply 400 false "Email is required"))
      | Some email =>
          match find (fun u => eqb (u_email u) email) (users db) with
          | None => (db, Answered (RouterReply 404 false "User not found"))
          | Some u =>
              if u_email_verified u
              then (db, Answered (RouterReply 400 false "Email is already verified"))
              else (db, Found u)
          end
      end
  | Found u => (delete_not_used (u_id u) db, Cleared u)
  | Cleared u =>
      match
        insert_token (u_id u) (randomBytes w)
          (now w + 24 * 60 * 60 * 1000) (now w) db
      with
      | None =>
          (db, Answered (RouterReply 500 false "Failed to resend verification email"))
      | Some db2 => (db2, Issued u)
      end
  | Issued u =>
      if negb (emailSent w)
      then (db, Answered (RouterReply 500 false "Failed to resend verification email"))
      else (db, Answered (RouterReply 200 true "Verification email sent successfully"))
  | Mailed _ =>
      (db, Answered (RouterReply 200 true "Verification email sent successfully"))
  | Answered r => (db, Answered r)
  end.

Definition router_resendVerification (w : world) (email : option jsstring)
    (db : database) : database * response :=
  match given email with
  | None => (db, RouterReply 400 false "Email is required")
  | Some email =>
      match find (fun u => eqb (u_email u) email) (users db) with
      | None => (db, RouterReply 404 false "User not found")
      | Some u =>
          if u_email_verified u
          then (db, RouterReply 400 false "Email is already verified")
          else
            let db1 := delete_not_used (u_id u) db in
            match
              insert_token (u_id u) (randomBytes w)
                (now w + 24 * 60 * 60 * 1000) (now w) db1
            with
            | None =>
                (db1, RouterReply 500 false "Failed to resend verification email")
            | Some db2 =>
                if negb (emailSent w)
                then (db2, RouterReply 500 false "Failed to resend verification email")
                else (db2, RouterReply 200 true "Verification email sent successfully")
            end
      end
  end.

(** ** [DELETE /api/chat/sessions/:sessionId] *)
Definition owns_active (userId sessionId : Z) (s : chat_sessions_row) : bool :=
  (cs_id s =? sessionId) && (cs_user_id s =? userId) && cs_is_active s.

Definition deleteSession (w : world) (u : users_row) (sessionId : Z)
    (db : database) : database * response :=
  if negb (existsb (owns_active (u_id u) sessionId) (chat_sessions db))
  then (db, Error 404 "Session not found")
  else
    let db1 :=
      set_chat_sessions
        (map (fun s =>
                if owns_active (u_id u) sessionId s then
                  mkSession (cs_id s) (cs_user_id s) (cs_session_name s)
                    (cs_created_at s) (now w) false
                else s))
        db in
    (logUserActivity cfg (u_id u) "chat_session_deleted" (now w) db1,
     SessionDeleted).

(** ** [POST /api/chat/message] *)

(** The text stored for the bot message. *)
Definition botMessageText (webhookResponse : json) : option json :=
  if is_string webhookResponse then Some webhookResponse
  else
    pick webhookResponse "text"
      (pick webhookResponse "response"
         (Some (JStr (JSON_stringify_pretty webhookResponse)))).

(** How the database driver turns a query parameter into text; [None] is
    SQL NULL. *)
Definition prepareValue (v : json) : option jsstring :=
  match v with
  | JNull => None
  | JStr s => Some s
  | JBool b => Some (lit (if b then "true" else "false"))
  | JNum x => Some (Number_toString x)
  | JArr items => Some (arrayString items)
  | JObj _ => Some (JSON_stringify v)
  end.

(** [validateStatus]: the call resolves on a status below 500. *)
Definition validateStatus (status : Z) : bool := status <? 500.

Definition webhook_failed : json :=
  JObj [(lit "error", JStr (lit "Failed to get response from webhook"))].

(** The relay of one message, run after the user message was stored: the
    store, the effects, [webhookResponse] and [responseTime]. *)
Definition callWebhook (w : world) (u : users_row) (sessionId : Z)
    (message : jsstring) (db : database)
    : database * list event * option json * option Z :=
  let call := WebhookCalled message (u_id u) sessionId in
  let caught :=
    (db, [call; Logged "Webhook error:"], Some webhook_failed, Some (elapsed w)) in
  match webhook w with
  | Replied status webhookResponse =>
      if validateStatus status then
        match botMessageText webhookResponse with
        | Some text =>
            match prepareValue text with
            | Some message_text =>
                let '(db1, botMessage) :=
                  insert_message sessionId (u_id u) message_text bot
                    (Some (JSON_stringify webhookResponse)) (Some (elapsed w))
                    (now w + elapsed w) db in
                (db1, [call; Inserted botMessage; Emitted sessionId botMessage],
                 Some webhookResponse, Some (elapsed w))
            | None => caught
            end
        | None => caught
        end
      else caught
  | NetworkFailure | Timeout => caught
  end.

Definition sendMessage (w : world) (u : users_row) (sessionId : option Z)
    (message : option jsstring) (db : database)
    : database * list event * response :=
  match given_id sessionId, given message with
  | Some sessionId, Some message =>
      if negb (existsb (owns_active (u_id u) sessionId) (chat_sessions db))
      then (db, [], Error 404 "Session not found")
      else
        let '(db1, userMessage) :=
          insert_message sessionId (u_id u) message user None None (now w) db in
        let ev1 := [Inserted userMessage; Emitted sessionId userMessage] in
        let '(db2, ev2, webhookResponse, responseTime) :=
          if webhook_enabled cfg && str_truthy (webhook_url cfg)
          then callWebhook w u sessionId message db1
          else (db1, [], None, None) in
        let t :=
          match responseTime with
          | Some d => now w + d
          | None => now w
          end in
        let db3 :=
          set_chat_sessions
            (map (fun s =>
                    if cs_id s =? sessionId then
                      mkSession (cs_id s) (cs_user_id s) (cs_session_name s)
                        (cs_created_at s) t (cs_is_active s)
                    else s))
            db2 in
        (logUserActivity cfg (u_id u) "message_sent" t db3,
         ev1 ++ ev2,
         MessageSent userMessage webhookResponse responseTime)
  | _, _ => (db, [], Error 400 "Session ID and message are required")
  end.

(** ** [GET /api/chat/sessions/:sessionId/messages]

    [page] and [limit] are the decimal integers of the query string. *)

(** [ORDER BY created_at DESC]. Rows of equal [created_at] come in an order
    the database is free to choose anew for every query; the model takes
    them latest inserted first. *)
Fixpoint insert_desc (m : messages_row) (rows : list messages_row)
    : list messages_row :=
  match rows with
  | [] => [m]
  | x :: r =>
      if m_created_at x <=? m_created_at m then m :: rows
      else x :: insert_desc m r
  end.

Definition order_by_created_at_desc (rows : list messages_row)
    : list messages_row :=
  fold_right insert_desc [] rows.

(** The OFFSET the driver sends: [(page - 1) * limit], computed in doubles
    and printed in decimal; [None] when the result is not finite. [limit]
    itself is sent as it was typed. *)
Definition offset_sent (page limit : Z) : option Z :=
  match double page with
  | None => None
  | Some p =>
      match double (p - 1), double limit with
      | Some d, Some l => double (d * l)
      | _, _ => None
      end
  end.

(** PostgreSQL reads LIMIT and OFFSET as [bigint] and refuses a negative
    one. *)
Definition row_count (z : Z) : bool := (0 <=? z) && (z <? 2 ^ 63).

(** The rows are counted from the exact offset: the double the database
    receives differs from it only from 2^53 on, past the last row of a
    table whose key is a SERIAL. *)
Definition getMessages (u : users_row) (sessionId : Z) (page limit : option Z)
    (db : database) : response :=
  if negb (existsb (fun s => (cs_id s =? sessionId) && (cs_user_id s =? u_id u))
             (chat_sessions db))
  then Error 404 "Session not found"
  else
    let page := match page with Some p => p | None => 1 end in
    let limit := match limit with Some l => l | None => 50 end in
    let offset := (page - 1) * limit in
    match offset_sent page limit with
    | Some sent =>
        if row_count limit && row_count sent then
          let rows :=
            firstn (Z.to_nat limit)
              (skipn (Z.to_nat offset)
                 (order_by_created_at_desc
                    (filter (fun m => m_session_id m =? sessionId)
                       (messages db)))) in
          MessageList (rev rows)
        else Error 500 "Internal server error"
    | None => Error 500 "Internal server error"
    end.

(** ** The HTTP requests a client can address to one session

    [Unrouted verb] is a request on [/api/chat/sessions/:sessionId] with a
    verb other than DELETE (PUT or PATCH, say): no route matches it and the
    last middleware answers. *)
Inductive session_request :=
| ReadMessages (page limit : option Z)
| PostMessage (message : option jsstring)
| DeleteSession
| Unrouted (verb : string).

Definition serve (w : world) (u : users_row) (sessionId : Z)
    (req : session_request) (db : database) : database * response :=
  match req with
  | ReadMessages page limit => (db, getMessages u sessionId page limit db)
  | PostMessage message =>
      let '(db', _, r) := sendMessage w u (Some sessionId) message db in
      (db', r)
  | DeleteSession => deleteSession w u sessionId db
  | Unrouted _ => (db, Error 404 "Endpoint not found")
  end.

End Handlers.

End Server.

(** ** [frontend/src/App.js]: the form of the session-based client *)
Module App.
Import JS.

(** [sendMessage]: the body it posts to [/api/chat/message], if it posts. *)
Definition sendMessage (newMessage : jsstring) (currentSession : option Z)
    : option (option Z * option jsstring) :=
  if negb (str_truthy (trim newMessage)) then None
  else
    match currentSession with
    | None => None
    | Some session_id => Some (Some session_id, Some newMessage)
    end.

End App.

(* ===================================================================== *)
(** * An engine for running the model *)
(* ===================================================================== *)

(** The theorems below hold for every [Engine] and every [Libraries]. To
    run the handlers on concrete requests this module supplies instances
    that cover a fragment of the language: integers of magnitude at most
    2^53 are the only numbers read or printed, and object keys are neither
    repeated nor array indices. Input outside the fragment is refused as a
    SyntaxError is. *)
Module Fragment.
Import JS.

Definition two53 : Z := 9007199254740992.

Definition float_of_Z (z : Z) : float :=
  if z <? 0 then PrimFloat.opp (PrimFloat.of_uint63 (Uint63.of_Z (- z)))
  else PrimFloat.of_uint63 (Uint63.of_Z z).

(** The integer a double stands for, when it is one of the fragment. *)
Definition Z_of_float (x : float) : option Z :=
  match Prim2SF x with
  | S754_zero _ => Some 0
  | S754_finite sign m e =>
      let mag :=
        if e <? 0
        then (if Z.pos m mod 2 ^ (- e) =? 0 then Some (Z.pos m / 2 ^ (- e)) else None)
        else Some (Z.pos m * 2 ^ e) in
      match mag with
      | Some n =>
          if n <=? two53 then Some (if sign then - n else n) else None
      | None => None
      end
  | _ => None
  end.

Definition number_toString (x : float) : jsstring :=
  match Z_of_float x with
  | Some z => of_Z z
  | None => lit "NaN"
  end.

Definition is_json_space (c : code_unit) : bool :=
  (N.eqb c 32 || N.eqb c 9 || N.eqb c 10 || N.eqb c 13)%N.

Fixpoint skip_ws (s : jsstring) : jsstring :=
  match s with
  | [] => []
  | c :: r => if is_json_space c then skip_ws r else s
  end.

Definition hex_value (c : code_unit) : option N :=
  (if (48 <=? c) && (c <=? 57) then Some (c - 48)
   else if (97 <=? c) && (c <=? 102) then Some (c - 87)
   else if (65 <=? c) && (c <=? 70) then Some (c - 55)
   else None)%N.

Definition simple_escape (e : code_unit) : option code_unit :=
  (if e =? 34 then Some 34 else if e =? 92 then Some 92
   else if e =? 47 then Some 47 else if e =? 98 then Some 8
   else if e =? 102 then Some 12 else if e =? 110 then Some 10
   else if e =? 114 then Some 13 else if e =? 116 then Some 9
   else None)%N.

(** The characters of a string literal after its opening quote, and the
    input left after the closing one. *)
Fixpoint chars (s : jsstring) : option (jsstring * jsstring) :=
  match s with
  | [] => None
  | c :: r =>
      if N.eqb c 34 then Some ([], r)
      else if N.eqb c 92 then
        match r with
        | e :: r1 =>
            if N.eqb e 117 then
              match r1 with
              | a :: b :: c1 :: d :: r2 =>
                  match hex_value a, hex_value b, hex_value c1, hex_value d with
                  | Some a, Some b, Some c1, Some d =>
                      match chars r2 with
                      | Some (t, rest) =>
                          Some ((a * 4096 + b * 256 + c1 * 16 + d)%N :: t, rest)
                      | None => None
                      end
                  | _, _, _, _ => None
                  end
              | _ => None
              end
            else
              match simple_escape e, chars r1 with
              | Some u, Some (t, rest) => Some (u :: t, rest)
              | _, _ => None
              end
        | [] => None
        end
      else if N.ltb c 32 then None
      else
        match chars r with
        | Some (t, rest) => Some (c :: t, rest)
        | None => None
        end
  end.

Definition is_digit (c : code_unit) : bool := (N.leb 48 c && N.leb c 57)%N.

Fixpoint digits (acc : Z) (s : jsstring) : Z * jsstring :=
  match s with
  | c :: r =>
      if is_digit c then digits (acc * 10 + Z.of_N (c - 48)) r else (acc, s)
  | [] => (acc, [])
  end.

(** An integer literal without fraction or exponent. *)
Definition integer (negative : bool) (s : jsstring) : option (json * jsstring) :=
  match s with
  | c :: r =>
      if is_digit c then
        let '(n, rest) := if N.eqb c 48 then (0, r) else digits 0 s in
        let stops :=
          match rest with
          | d :: _ => negb (is_digit d || N.eqb d 46 || N.eqb d 101 || N.eqb d 69)
          | [] => true
          end in
        if stops && (n <=? two53) then
          let x := float_of_Z n in
          Some (JNum (if negative then PrimFloat.opp x else x), rest)
        else None
      else None
  | [] => None
  end.

Fixpoint expect (word : jsstring) (s : jsstring) : option jsstring :=
  match word, s with
  | [], _ => Some s
  | a :: word', c :: r => if N.eqb a c then expect word' r else None
  | _ :: _, [] => None
  end.

(** Keys that the engine would enumerate before the others. *)
Definition is_array_index (k : jsstring) : bool :=
  match k with
  | [] => false
  | c :: r => forallb is_digit k && (negb (N.eqb c 48) || match r with [] => true | _ => false end)
  end.

Definition fresh_key (k : jsstring) (fields : list (jsstring * json)) : bool :=
  negb (is_array_index k) && negb (existsb (fun kv => eqb (fst kv) k) fields).

Fixpoint value (fuel : nat) (s : jsstring) {struct fuel}
    : option (json * jsstring) :=
  match fuel with
  | O => None
  | S fuel =>
      match skip_ws s with
      | [] => None
      | c :: r =>
          if N.eqb c 34 then
            match chars r with
            | Some (t, rest) => Some (JStr t, rest)
            | None => None
            end
          else if N.eqb c 123 then
            match skip_ws r with
            | d :: r1 =>
                if N.eqb d 125 then Some (JObj [], r1)
                else
                  match members fuel r with
                  | Some (fields, rest) => Some (JObj fields, rest)
                  | None => None
                  end
            | [] => None
            end
          else if N.eqb c 91 then
            match skip_ws r with
            | d :: r1 =>
                if N.eqb d 93 then Some (JArr [], r1)
                else
                  match elements fuel r with
                  | Some (items, rest) => Some (JArr items, rest)
                  | None => None
                  end
            | [] => None
            end
          else if N.eqb c 116 then
            option_map (fun rest => (JBool true, rest)) (expect (lit "rue") r)
          else if N.eqb c 102 then
            option_map (fun rest => (JBool false, rest)) (expect (lit "alse") r)
          else if N.eqb c 110 then
            option_map (fun rest => (JNull, rest)) (expect (lit "ull") r)
          else if N.eqb c 45 then integer true r
          else integer false (c :: r)
      end
  end
with elements (fuel : nat) (s : jsstring) {struct fuel}
    : option (list json * jsstring) :=
  match fuel with
  | O => None
  | S fuel =>
      match value fuel s with
      | Some (v, r) =>
          match skip_ws r with
          | c :: r1 =>
              if N.eqb c 93 then Some ([v], r1)
              else if N.eqb c 44 then
                match elements fuel r1 with
                | Some (vs, rest) => Some (v :: vs, rest)
                | None => None
                end
              else None
          | [] => None
          end
      | None => None
      end
  end
with members (fuel : nat) (s : jsstring) {struct fuel}
    : option (list (jsstring * json) * jsstring) :=
  match fuel with
  | O => None
  | S fuel =>
      match skip_ws s with
      | q :: r =>
          if N.eqb q 34 then
            match chars r with
            | Some (k, r1) =>
                match skip_ws r1 with
                | colon :: r2 =>
                    if N.eqb colon 58 then
                      match value fuel r2 with
                      | Some (v, r3) =>
                          match skip_ws r3 with
                          | c :: r4 =>
                              if N.eqb c 125 then
                                if is_array_index k then None else Some ([(k, v)], r4)
                              else if N.eqb c 44 then
                                match members fuel r4 with
                                | Some (fields, rest) =>
                                    if fresh_key k fields
                                    then Some ((k, v) :: fields, rest)
                                    else None
                                | None => None
                                end
                              else None
                          | [] => None
                          end
                      | None => None
                      end
                    else None
                | [] => None
                end
            | None => None
            end
          else None
      | [] => None
      end
  end.

Definition parse (s : jsstring) : option json :=
  match value (2 * List.length s + 2) s with
  | Some (v, rest) =>
      match skip_ws rest with
      | [] => Some v
      | _ :: _ => None
      end
  | None => None
  end.

#[export] Instance engine : Engine := {
  Number_toString := number_toString;
  JSON_parse := parse
}.

(** Stand-ins for the libraries: a hash that is the password itself, a token
    that names the user, and the array literal of the database driver left
    empty. *)
Definition libraries : Server.Libraries := {|
  Server.bcrypt_compare := eqb;
  Server.jwt_sign := fun userId => lit "jwt." ++ of_Z userId;
  Server.arrayString := fun _ => lit "{}"
|}.

(** The code unit of the double quote, to write JSON bodies with. *)
Definition dq : jsstring := [34%N].

End Fragment.

(* ===================================================================== *)
(** * The specification's words, as definitions *)
(* ===================================================================== *)

Module Spec.
Import JS.

(** "Probe fields in a fixed priority order": the first of [names] that
    [data] carries with a truthy value. *)
Fixpoint first_match (data : json) (names : list string) : option json :=
  match names with
  | [] => None
  | k :: rest =>
      match get data (lit k) with
      | Value v => if truthy v then Some v else first_match data rest
      | _ => first_match data rest
      end
  end.

(** "... and fall back to serializing the entire object if none match". *)
Definition extracted (names : list string) (whole : json -> jsstring)
    (data : json) : json :=
  match first_match data names with
  | Some v => v
  | None => JStr (whole data)
  end.

(** The field names of the chat API route, in its order. *)
Definition route_fields : list string :=
  ["responseBody"; "redacted"; "message"; "output"; "text"]%string.

(** The field names of the session-based server, in its order. *)
Definition server_fields : list string := ["text"; "response"]%string.

(** "The message text if at most 50 characters, else the first 50
    characters followed by '...'". *)
Definition auto_title (text : jsstring) : jsstring :=
  if (List.length text <=? 50)%nat then text
  else firstn 50 text ++ lit "...".

(** "Empty or whitespace-only text". *)
Definition blank (text : jsstring) : Prop :=
  Forall (fun c => is_white_space c = true) text.

(** ** Vocabulary for the document-store variant *)

(** "The webhook call is attempted": the client calls the API route, or the
    route calls the webhook. *)
Definition is_call (e : Client.event) : bool :=
  match e with
  | Client.CalledApi _ _ | Client.CalledWebhook _ _ => true
  | _ => false
  end.

(** "The webhook call fails, times out, or returns a non-success status":
    the route is out of reach or not configured, the request to the
    webhook fails, or its answer is not a 2xx. *)
Definition relay_fails (w : Client.World) : bool :=
  negb (Client.api_reachable w)
  || negb (str_truthy (Client.webhookUrl w))
  || match Client.upstream w with
     | Client.NetworkError => true
     | Client.Response st _ => negb (Client.ok st)
     end.

(** The list of messages the component holds is what the listener of the
    conversation would deliver now: its documents, in some order. *)
Definition snapshot_current (st : Client.ChatArea) (c : jsstring)
    (db : Client.Firestore) : Prop :=
  Permutation (Client.messages st) (Client.messages_of c db).

(** ** Vocabulary for the session-based variant *)

(** The [axios] promise rejects: no answer, or a status of 500 and above. *)
Definition webhook_rejects (w : Server.world) : bool :=
  match Server.webhook w with
  | Server.NetworkFailure | Server.Timeout => true
  | Server.Replied st _ => negb (Server.validateStatus st)
  end.

Definition is_bot (m : Server.messages_row) : bool :=
  match Server.m_message_type m with
  | Server.bot => true
  | Server.user => false
  end.

(** A text PostgreSQL stores as it is sent: it refuses a text that holds
    U+0000, and the driver sends U+FFFD for a surrogate that is not half of
    a pair. *)
Definition storable (text : jsstring) : Prop :=
  ~ In 0%N text /\ isWellFormed text = true.

(** The INSERT of the bot message of a request is one PostgreSQL takes: a
    storable text, a response time that fits the INTEGER column, and a
    value left in the sequence behind the SERIAL key after the one the user
    message draws. *)
Definition bot_message_accepted (w : Server.world) (db : Server.database)
    (text : jsstring) : Prop :=
  storable text
  /\ - 2 ^ 31 <= Server.elapsed w < 2 ^ 31
  /\ Server.messages_id_seq db + 1 < 2 ^ 31.

(** The same request with another answer of the webhook. *)
Definition answered (outcome : Server.axios_outcome) (w : Server.world)
    : Server.world :=
  Server.mkWorld (Server.now w) (Server.elapsed w) outcome
    (Server.randomBytes w) (Server.emailSent w).

(** "Ascending creation-time order", and the strict version. *)
Definition ascending (rows : list Server.messages_row) : Prop :=
  StronglySorted (fun a b => Server.m_created_at a <= Server.m_created_at b) rows.

Definition strictly_ascending (rows : list Server.messages_row) : Prop :=
  StronglySorted (fun a b => Server.m_created_at a < Server.m_created_at b) rows.

(** The order of [ORDER BY created_at DESC]. *)
Definition newer_first (a b : Server.messages_row) : Prop :=
  Server.m_created_at b <= Server.m_created_at a.

(** The messages of one session. *)
Definition session_messages (sessionId : Z) (db : Server.database)
    : list Server.messages_row :=
  filter (fun m => Server.m_session_id m =? sessionId) (Server.messages db).


(** "Unused tokens" of a user, as each of the two handlers selects them:
    by [used_at IS NULL] and by [is_used = false]. *)
Definition unused_by_used_at (userId : Z) (db : Server.database)
    : list Server.tokens_row :=
  filter (fun r => (Server.t_user_id r =? userId)
                   && match Server.t_used_at r with None => true | Some _ => false end)
    (Server.email_verification_tokens db).

Definition unused_by_flag (userId : Z) (db : Server.database)
    : list Server.tokens_row :=
  filter (fun r => (Server.t_user_id r =? userId) && negb (Server.t_is_used r))
    (Server.email_verification_tokens db).

(** "An existing active but unverified account" with the given email: a
    row of [users], whose email no other row shares. *)
Definition unverified_account (u : Server.users_row) (email : jsstring)
    (db : Server.database) : Prop :=
  In u (Server.users db)
  /\ Server.u_email u = email
  /\ Server.u_is_active u = true
  /\ Server.u_email_verified u = false
  /\ forall v, In v (Server.users db) -> Server.u_email v = email -> v = u.

End Spec.

(* ===================================================================== *)
(** * Sample data *)
(* ===================================================================== *)

Module Sample.
Import JS.

(** ** The document store *)
Definition alice : jsstring := lit "uid-alice".
Definition bob : jsstring := lit "uid-bob".
Definition c1 : jsstring := lit "conv-1".

Definition store : Client.Firestore :=
  Client.mkFirestore
    [Client.mkConversation c1 alice (lit "New Chat") 10 10] [].

(** Rules that admit every request, and rules that admit a request only
    from the owner of the conversation it names. *)
Definition open_rules : Client.Rules := fun _ _ _ _ => true.

Definition owner_rules : Client.Rules :=
  fun uid _ c db =>
    existsb (fun d => eqb (Client.id d) c && eqb (Client.userId d) uid)
      (Client.conversations db).

(** A webhook that times out, one that answers 404, and one that answers
    200 with the body [{"output": "hi"}]. *)
Definition output_hi : jsstring :=
  lit "{" ++ Fragment.dq ++ lit "output" ++ Fragment.dq ++ lit ": "
    ++ Fragment.dq ++ lit "hi" ++ Fragment.dq ++ lit "}".

Definition quoted_hi : jsstring := Fragment.dq ++ lit "hi" ++ Fragment.dq.

Definition world_down : Client.World :=
  Client.mkWorld 1000 250 true (lit "http://n8n.local/webhook") Client.NetworkError.

Definition world_404 : Client.World :=
  Client.mkWorld 1000 250 true (lit "http://n8n.local/webhook")
    (Client.Response 404 (lit "not found")).

Definition world_hi : Client.World :=
  Client.mkWorld 1000 250 true (lit "http://n8n.local/webhook")
    (Client.Response 200 output_hi).

Definition typing (text : jsstring) : Client.ChatArea :=
  Client.mkChatArea text false [].

(** Alice's conversation after a first exchange: "hello", answered "hi". *)
Definition store_after_hello : Client.Firestore :=
  fst (fst (Client.handleSubmit (engine := Fragment.engine) open_rules alice
              world_hi c1 (typing (lit "hello")) store)).

(** ** The relational store *)
Definition cfg : Server.config :=
  Server.mkConfig true true (lit "http://n8n.local/webhook") true 24.

Definition quiet : Server.config :=
  Server.mkConfig true false [] false 24.

Definition u_alice : Server.users_row :=
  Server.mkUser 1 (lit "alice@example.com") (lit "correct horse")
    (lit "Alice") (lit "A") true false None.

Definition u_bob : Server.users_row :=
  Server.mkUser 2 (lit "bob@example.com") (lit "battery staple")
    (lit "Bob") (lit "B") true true None.

Definition db : Server.database :=
  Server.mkDatabase [u_alice; u_bob]
    [Server.mkSession 1 1 (lit "Alice's chat") 10 10 true;
     Server.mkSession 2 2 (lit "Bob's chat") 20 20 true]
    []
    [Server.mkToken 1 1 (lit "old-token-a") 500 100 None false;
     Server.mkToken 2 1 (lit "old-token-b") 600 200 None false;
     Server.mkToken 3 2 (lit "bob-token") 600 200 (Some 300) true]
    []
    1 4.

Definition at_time (t : Z) (outcome : Server.axios_outcome) : Server.world :=
  Server.mkWorld t 250 outcome (lit "fresh-token") true.

Definition hi_object : json := JObj [(lit "output", JStr (lit "hi"))].

(** ** Runs on the sample data *)
Definition hello : jsstring := lit "hello".

Definition long_text : jsstring :=
  lit "The quick brown fox jumps over the lazy dog, twice over.".

(** Alice posts [text] into her session at time [t]. *)
Definition send (cfg : Server.config) (t : Z) (outcome : Server.axios_outcome)
    (text : jsstring) (db : Server.database) :=
  Server.sendMessage (engine := Fragment.engine)
    (libraries := Fragment.libraries) cfg (at_time t outcome)
    u_alice (Some 1) (Some text) db.

Definition after_send (t : Z) (text : jsstring) (db : Server.database)
    : Server.database :=
  fst (fst (send quiet t Server.Timeout text db)).

(** Two messages a second apart, and two messages stamped alike. *)
Definition db_two : Server.database :=
  after_send 2000 (lit "second") (after_send 1000 (lit "first") db).

Definition db_tie : Server.database :=
  after_send 1000 (lit "second") (after_send 1000 (lit "first") db).

Definition user_row (id t : Z) (text : jsstring) : Server.messages_row :=
  Server.mkMessage id 1 1 text Server.user None t None.

(** The indented serialisation of [{"output": "hi"}]. *)
Definition pretty_hi : jsstring :=
  lit "{" ++ [10%N] ++ lit "  " ++ Fragment.dq ++ lit "output" ++ Fragment.dq
    ++ lit ": " ++ Fragment.dq ++ lit "hi" ++ Fragment.dq ++ [10%N] ++ lit "}".

End Sample.

(* ===================================================================== *)
(** * Accounts and sessions of the session-based variant *)
(* ===================================================================== *)

(** ** More of the language: [split], and sorting for [ORDER BY ... DESC] *)
Module Text.
Import JS.

(** [s.split(sep)] for a separator of one code unit: the pieces between
    its occurrences; there is always at least one. *)
Fixpoint split (sep : code_unit) (s : jsstring) : list jsstring :=
  match s with
  | [] => [[]]
  | c :: r =>
      if N.eqb c sep then [] :: split sep r
      else
        match split sep r with
        | piece :: pieces => (c :: piece) :: pieces
        | [] => [[c]]
        end
  end.

Section OrderBy.
Context {A : Type}.
Variable key : A -> Z.

(** Rows sorted on [key], largest first; rows with equal keys keep the
    order they had. *)
Fixpoint insert_by (x : A) (rows : list A) : list A :=
  match rows with
  | [] => [x]
  | y :: r => if key y <=? key x then x :: rows else y :: insert_by x r
  end.

Definition order_by_desc (rows : list A) : list A :=
  fold_right insert_by [] rows.

(** [a] may stand before [b] in that order. *)
Definition desc (a b : A) : Prop := key b <= key a.

End OrderBy.

End Text.

(** ** [frontend/src/App.js]: the [api] helper *)
Module Api.
Import JS.

(** The [Authorization] header [api.get], [api.post], [api.put] and
    [api.delete] send: [`Bearer ${token}`] when [token] is truthy, and no
    header otherwise. *)
Definition authorization (token : option jsstring) : option jsstring :=
  match Server.given token with
  | Some t => Some (lit "Bearer " ++ t)
  | None => None
  end.

End Api.

(** ** [backend/server.js] and [backend/auth.js]: registration, the
    authentication middleware, email verification and the session list *)
Module Accounts.
Import JS Server Text.

(** [isEmailDomainAllowed]: [email.split('@')[1]] is looked up in
    [config.allowedEmailDomains]; when the address has no ['@'] the piece
    is [undefined], which the list does not hold. *)
Definition isEmailDomainAllowed (allowedEmailDomains : list jsstring)
    (email : jsstring) : bool :=
  match nth_error (split 64%N email) 1 with
  | Some domain => existsb (eqb domain) allowedEmailDomains
  | None => false
  end.

(** The settings of [config.json] these handlers read besides those of
    [Server.config]. *)
Record settings := mkSettings {
  base : config;
  allowedEmailDomains : list jsstring;
  features_emailVerification : bool;
  features_auditLogging : bool
}.

(** A row of [audit_logs]. *)
Record audit_row := mkAudit {
  al_user_id : Z;
  al_action : string;
  al_table_name : string;
  al_record_id : Z;
  al_old_values : option json;
  al_new_values : option json
}.

(** The tables of [Server.database], the audit log, and the sequences
    behind the SERIAL keys of [users] and [chat_sessions]. *)
Record state := mkState {
  tables : database;
  audit_logs : list audit_row;
  users_id_seq : Z;
  chat_sessions_id_seq : Z
}.

(** Library functions: [bcrypt.hash] of a password under the salt it
    draws; [jwt.verify] at a clock reading, giving the [userId] of the
    payload ([None] when it throws, and for a payload without a [userId],
    which no row matches: both are answered alike); and
    [Date.prototype.toISOString]. *)
Class Packages := {
  bcrypt_hash : jsstring -> jsstring -> jsstring;
  jwt_verify : Z -> jsstring -> option Z;
  toISOString : Z -> jsstring
}.

Definition with_tables (f : database -> database) (st : state) : state :=
  mkState (f (tables st)) (audit_logs st) (users_id_seq st)
    (chat_sessions_id_seq st).

(** [logAudit]. *)
Definition logAudit (s : settings) (userId : Z) (action tableName : string)
    (recordId : Z) (oldValues newValues : option json) (st : state) : state :=
  if features_auditLogging s then
    mkState (tables st)
      (audit_logs st
         ++ [mkAudit userId action tableName recordId oldValues newValues])
      (users_id_seq st) (chat_sessions_id_seq st)
  else st.

(** ** Answers *)

(** [Refused st msg] is [res.status(st).json({ error: msg })] and
    [Registered u] the 201 answer of the registration. *)
Inductive reply :=
| Refused (status : Z) (error : string)
| Registered (u : users_row).

Definition reply_status (r : reply) : Z :=
  match r with
  | Refused st _ => st
  | Registered _ => 201
  end.

(** The answers with which [authenticateToken] ends a request: 401
    "Access token required", 403 "Invalid token", and 403 "Email
    verification required" with the code EMAIL_NOT_VERIFIED. *)
Inductive denial :=
| AccessTokenRequired
| InvalidToken
| VerificationRequired.

Definition denial_status (d : denial) : Z :=
  match d with
  | AccessTokenRequired => 401
  | InvalidToken | VerificationRequired => 403
  end.

(** The answers of [router.get('/verify-email')]: the status, the
    [success] flag and the [title] of the body. *)
Inductive verification :=
| Verification (status : Z) (success : bool) (title : string).

(** The pages of [GET /api/auth/verify-email-page]: the two 400 pages
    ("Verification token is required.", "Invalid or expired verification
    token.") and the page that welcomes the owner of the token. *)
Inductive page :=
| TokenRequired
| InvalidOrExpired
| Welcome (first_name email : jsstring).

Definition page_status (p : page) : Z :=
  match p with
  | TokenRequired | InvalidOrExpired => 400
  | Welcome _ _ => 200
  end.

(** [FROM email_verification_tokens evt JOIN users u ON evt.user_id = u.id
    WHERE evt.token = $1]: the rows in the order of the tokens (with the
    column [token] UNIQUE and [users.id] a key there is at most one). *)
Definition tokens_with_users (token : jsstring) (db : database)
    : list (tokens_row * users_row) :=
  flat_map
    (fun evt =>
       map (fun u => (evt, u))
         (filter (fun u => t_user_id evt =? u_id u) (users db)))
    (filter (fun evt => eqb (t_token evt) token) (email_verification_tokens db)).

(** [UPDATE users SET email_verified = true ... WHERE id = $1]. *)
Definition set_verified (userId : Z) (db : database) : database :=
  set_users
    (map (fun u =>
            if u_id u =? userId then
              mkUser (u_id u) (u_email u) (u_password_hash u) (u_first_name u)
                (u_last_name u) (u_is_active u) true (u_last_login u)
            else u))
    db.

(** [UPDATE email_verification_tokens SET is_used = true,
    used_at = CURRENT_TIMESTAMP WHERE id = $1]. *)
Definition mark_used (token_id : Z) (t : Z) (db : database) : database :=
  set_tokens
    (map (fun r =>
            if t_id r =? token_id then
              mkToken (t_id r) (t_user_id r) (t_token r) (t_expires_at r)
                (t_created_at r) (Some t) true
            else r))
    db.

(** [UPDATE email_verification_tokens SET used_at = NOW() WHERE id = $1]. *)
Definition stamp_used (token_id : Z) (t : Z) (db : database) : database :=
  set_tokens
    (map (fun r =>
            if t_id r =? token_id then
              mkToken (t_id r) (t_user_id r) (t_token r) (t_expires_at r)
                (t_created_at r) (Some t) (t_is_used r)
            else r))
    db.

Section Handlers.
Context {engine : Engine} {libraries : Libraries} {packages : Packages}.
Variable s : settings.

(** ** [POST /api/auth/register]

    [salt] is the salt [bcrypt.hash] draws. The INSERT into [users] is
    taken to succeed: PostgreSQL refuses a text that is longer than its
    VARCHAR column or holds U+0000, and the handler then answers 500 with
    no row added; what the properties below say of a 500 holds of that
    answer too. The statements run outside a transaction: when the token
    cannot be inserted the account stays. *)
Definition register (w : world) (salt : jsstring)
    (email password firstName lastName : option jsstring) (st : state)
    : state * reply :=
  match given email, given password, given firstName, given lastName with
  | Some email, Some password, Some firstName, Some lastName =>
      if negb (isEmailDomainAllowed (allowedEmailDomains s) email)
      then (st, Refused 400 "Email domain not allowed")
      else if (List.length password <? 8)%nat
      then (st, Refused 400 "Password must be at least 8 characters long")
      else if existsb (fun u => eqb (u_email u) email) (users (tables st))
      then (st, Refused 400 "User already exists")
      else
        let passwordHash := bcrypt_hash salt password in
        let row :=
          mkUser (users_id_seq st) email passwordHash firstName lastName true
            (negb (auth_requireEmailVerification (base s))) None in
        let st1 :=
          mkState (set_users (fun rows => rows ++ [row]) (tables st))
            (audit_logs st) (users_id_seq st + 1) (chat_sessions_id_seq st) in
        let issued :=
          if features_emailVerification s
             && auth_requireEmailVerification (base s)
          then
            insert_token (u_id row) (randomBytes w)
              (now w + verification_expiryHours (base s) * 3600000) (now w)
              (tables st1)
          else Some (tables st1) in
        match issued with
        | None => (st1, Refused 500 "Internal server error")
        | Some db2 =>
            let st2 := with_tables (fun _ => db2) st1 in
            let st3 :=
              logAudit s (u_id row) "USER_CREATED" "users" (u_id row) None
                (Some (JObj [(lit "email", JStr email);
                             (lit "firstName", JStr firstName);
                             (lit "lastName", JStr lastName)]))
                st2 in
            (with_tables
               (logUserActivity (base s) (u_id row) "registration" (now w)) st3,
             Registered row)
        end
  | _, _, _, _ => (st, Refused 400 "All fields are required")
  end.

(** ** [authenticateToken] *)

(** [authHeader && authHeader.split(' ')[1]], when it passes [!token]. *)
Definition bearer (authHeader : option jsstring) : option jsstring :=
  match authHeader with
  | Some header => given (nth_error (split 32%N header) 1)
  | None => None
  end.

(** The user [req.user] is set to, or the answer that ends the request. *)
Definition authenticateToken (w : world) (authHeader : option jsstring)
    (db : database) : denial + users_row :=
  match bearer authHeader with
  | None => inl AccessTokenRequired
  | Some token =>
      match jwt_verify (now w) token with
      | None => inl InvalidToken
      | Some userId =>
          match
            find (fun u => (u_id u =? userId) && u_is_active u) (users db)
          with
          | None => inl InvalidToken
          | Some u =>
              if auth_requireEmailVerification (base s)
                 && negb (u_email_verified u)
              then inl VerificationRequired
              else inr u
          end
      end
  end.

(** ** [POST /api/chat/sessions]: the store and the row of the 201 answer *)
Definition createSession (w : world) (u : users_row)
    (sessionName : option jsstring) (st : state)
    : state * chat_sessions_row :=
  let session_name :=
    match given sessionName with
    | Some name => name
    | None => lit "Chat " ++ toISOString (now w)
    end in
  let session :=
    mkSession (chat_sessions_id_seq st) (u_id u) session_name (now w) (now w)
      true in
  let st1 :=
    mkState (set_chat_sessions (fun rows => rows ++ [session]) (tables st))
      (audit_logs st) (users_id_seq st) (chat_sessions_id_seq st + 1) in
  (with_tables
     (logUserActivity (base s) (u_id u) "chat_session_created" (now w)) st1,
   session).

(** ** [GET /api/chat/sessions]

    The caller's active sessions, each with [COUNT(m.id)] over the
    messages joined to it, [ORDER BY cs.updated_at DESC]. *)
Definition message_count (db : database) (cs : chat_sessions_row) : nat :=
  List.length (filter (fun m => cs_id cs =? m_session_id m) (messages db)).

Definition listSessions (u : users_row) (db : database)
    : list (chat_sessions_row * nat) :=
  order_by_desc (fun row => cs_updated_at (fst row))
    (map (fun cs => (cs, message_count db cs))
       (filter (fun cs => (cs_user_id cs =? u_id u) && cs_is_active cs)
          (chat_sessions db))).

(** ** The chat routes behind the middleware

    The routes of the chat, as the application registers them: each runs
    [authenticateToken] first; a request no route matches reaches the last
    middleware, which asks for no token. *)
Inductive call :=
| OnSession (sessionId : Z) (req : session_request)
| ListSessions
| CreateSession (sessionName : option jsstring).

Inductive answer :=
| Denied (d : denial)
| Answer (r : response)
| SessionRows (rows : list (chat_sessions_row * nat))
| Created (row : chat_sessions_row).

Definition api (w : world) (authHeader : option jsstring) (c : call)
    (st : state) : state * answer :=
  match c with
  | OnSession _ (Unrouted _) => (st, Answer (Error 404 "Endpoint not found"))
  | _ =>
      match authenticateToken w authHeader (tables st) with
      | inl d => (st, Denied d)
      | inr u =>
          match c with
          | OnSession sessionId req =>
              let '(db', r) := serve (base s) w u sessionId req (tables st) in
              (with_tables (fun _ => db') st, Answer r)
          | ListSessions => (st, SessionRows (listSessions u (tables st)))
          | CreateSession sessionName =>
              let '(st', row) := createSession w u sessionName st in
              (st', Created row)
          end
      end
  end.

(** ** [router.get('/verify-email')] of [auth.js]

    The router answers [GET /api/auth/verify-email]. Its statements run in
    one transaction, which every refusal rolls back. *)
Definition router_verifyEmail (w : world) (token : option jsstring)
    (db : database) : database * verification :=
  match given token with
  | None => (db, Verification 400 false "Invalid Verification Link")
  | Some token =>
      match tokens_with_users token db with
      | [] => (db, Verification 400 false "Invalid Verification Link")
      | (tokenData, u) :: _ =>
          if t_expires_at tokenData <? now w
          then (db, Verification 400 false "Verification Link Expired")
          else if t_is_used tokenData
          then (db, Verification 400 false "Already Verified")
          else if u_email_verified u
          then
            (mark_used (t_id tokenData) (now w) db,
             Verification 200 true "Already Verified")
          else
            (mark_used (t_id tokenData) (now w) (set_verified (u_id u) db),
             Verification 200 true "Email Verified Successfully")
      end
  end.

(** ** [GET /api/auth/verify-email-page] of [server.js] *)
Definition verifyEmailPage (w : world) (token : option jsstring) (st : state)
    : state * page :=
  match given token with
  | None => (st, TokenRequired)
  | Some token =>
      match
        filter (fun row =>
                  (now w <? t_expires_at (fst row))
                  && match t_used_at (fst row) with
                     | None => true
                     | Some _ => false
                     end)
          (tokens_with_users token (tables st))
      with
      | [] => (st, InvalidOrExpired)
      | (verification, u) :: _ =>
          let st1 :=
            with_tables
              (fun db =>
                 stamp_used (t_id verification) (now w)
                   (set_verified (t_user_id verification) db))
              st in
          let st2 :=
            logAudit s (t_user_id verification) "EMAIL_VERIFIED" "users"
              (t_user_id verification)
              (Some (JObj [(lit "email_verified", JBool false)]))
              (Some (JObj [(lit "email_verified", JBool true)]))
              st1 in
          (with_tables
             (logUserActivity (base s) (t_user_id verification)
                "email_verified" (now w))
             st2,
           Welcome (u_first_name u) (u_email u))
      end
  end.

End Handlers.

End Accounts.

(* ===================================================================== *)
(** * More of the document-store variant *)
(* ===================================================================== *)

(** ** The chat page: the sidebar and [createNewConversation] *)
Module ChatPage.
Import JS Client Text.

(** The state of the page the handlers read and set. *)
Record page := mkPage {
  selectedConversation : option jsstring;
  creatingConversation : bool
}.

(** Whether the rules of the store admit that a user creates a
    conversation; like [Rules], a parameter. *)
Definition CreateRules := jsstring -> Firestore -> bool.

(** The query behind the sidebar: [where('userId', '==', user.uid)],
    [orderBy('updatedAt', 'desc')]. *)
Definition conversationList (uid : jsstring) (db : Firestore)
    : list Conversation :=
  order_by_desc updatedAt (sidebar uid db).

(** [createNewConversation]: [signedIn] is [user.uid] when a user is
    signed in, [docId] the id the store assigns to the new document. *)
Definition createNewConversation (C : CreateRules) (signedIn : option jsstring)
    (w : World) (docId : jsstring) (p : page) (db : Firestore)
    : Firestore * page * list event :=
  match signedIn with
  | None => (db, p, [])
  | Some uid =>
      if creatingConversation p then (db, p, [])
      else if C uid db then
        (mkFirestore
           (conversations db
              ++ [mkConversation docId uid (lit "New Chat") (now w) (now w)])
           (message_docs db),
         mkPage (Some docId) false,
         [])
      else
        (db, mkPage (selectedConversation p) false,
         [Logged "Error creating conversation:"])
  end.

End ChatPage.

(** ** The auth context: the allowed email domains *)
Module AuthContext.
Import JS Text.

(** [String.prototype.toLowerCase]. *)
Class Locale := {
  toLowerCase : jsstring -> jsstring
}.

Section Domains.
Context {locale : Locale}.

(** [getAllowedDomains]: [env] is [process.env.NEXT_PUBLIC_ALLOWED_DOMAINS]. *)
Definition getAllowedDomains (env : option jsstring) : list jsstring :=
  let domains :=
    match Server.given env with
    | Some d => d
    | None => []
    end in
  filter str_truthy (map (fun d => toLowerCase (trim d)) (split 44%N domains)).

(** [isAllowedDomain]: with no domain listed every address passes;
    otherwise [email.split('@')[1]?.toLowerCase()] must be listed. *)
Definition isAllowedDomain (env : option jsstring) (email : jsstring) : bool :=
  let allowedDomains := getAllowedDomains env in
  if (List.length allowedDomains =? 0)%nat then true
  else
    match nth_error (split 64%N email) 1 with
    | Some emailDomain => existsb (eqb (toLowerCase emailDomain)) allowedDomains
    | None => false
    end.

End Domains.

End AuthContext.

(* ===================================================================== *)
(** * More sample data *)
(* ===================================================================== *)

Module Scenario.
Import JS.

(** Stand-ins for the packages, matching those of [Fragment.libraries]: the
    hash is the password itself, a token [jwt.<id>] verifies to [id] at any
    time, and the clock reading is printed in decimal. *)
Definition unsigned (token : jsstring) : option Z :=
  match token with
  | 106%N :: 119%N :: 116%N :: 46%N :: number =>
      match number with
      | [] => None
      | _ :: _ =>
          if forallb Fragment.is_digit number
          then Some (fst (Fragment.digits 0 number))
          else None
      end
  | _ => None
  end.

Definition packages : Accounts.Packages := {|
  Accounts.bcrypt_hash := fun _ password => password;
  Accounts.jwt_verify := fun _ token => unsigned token;
  Accounts.toISOString := of_Z
|}.

(** ASCII letters lowered, everything else kept. *)
Definition locale : AuthContext.Locale := {|
  AuthContext.toLowerCase :=
    map (fun c => if (N.leb 65 c && N.leb c 90)%N then (c + 32)%N else c)
|}.

(** Verification required and every feature on; the same with
    verification not required. *)
Definition strict : Accounts.settings :=
  Accounts.mkSettings Sample.cfg [lit "example.com"] true true.

Definition relaxed : Accounts.settings :=
  Accounts.mkSettings
    (Server.mkConfig false false [] true 24) [lit "example.com"] true true.

Definition state : Accounts.state :=
  Accounts.mkState Sample.db [] 3 3.

Definition carol : jsstring := lit "carol@example.com".

Definition register (s : Accounts.settings) (email password : jsstring) :=
  Accounts.register (packages := packages) s
    (Sample.at_time 1000 Server.Timeout) (lit "salt") (Some email)
    (Some password) (Some (lit "Carol")) (Some (lit "C")) state.

(** The engine of the fragment, reading besides the text
    [{"responseBody":1e999}] as [JSON.parse] does: the literal is beyond
    the largest double and becomes [Infinity]. *)
Definition overflowing : jsstring :=
  lit "{" ++ quote (lit "responseBody") ++ lit ":1e999}".

Definition wide_engine : Engine := {|
  Number_toString := Number_toString (Engine := Fragment.engine);
  JSON_parse := fun s =>
    if eqb s overflowing
    then Some (JObj [(lit "responseBody", JNum PrimFloat.infinity)])
    else JSON_parse (Engine := Fragment.engine) s
|}.

End Scenario.

(* ===================================================================== *)
(** * Vocabulary of the further properties *)
(* ===================================================================== *)

Module Terms.
Import JS Server Accounts.

(** The keys of [users]: the ids are distinct and were drawn from the
    sequence, the emails are distinct (the column is UNIQUE). *)
Definition users_keyed (st : state) : Prop :=
  NoDup (map u_id (users (tables st)))
  /\ forall u, In u (users (tables st)) -> u_id u < users_id_seq st.

Definition emails_unique (db : database) : Prop :=
  NoDup (map u_email (users db)).

(** The column [token] of [email_verification_tokens] is UNIQUE. *)
Definition tokens_unique (db : database) : Prop :=
  NoDup (map t_token (email_verification_tokens db)).

(** An account once its email is verified. *)
Definition verified (u : users_row) : users_row :=
  mkUser (u_id u) (u_email u) (u_password_hash u) (u_first_name u)
    (u_last_name u) (u_is_active u) true (u_last_login u).

(** The keys of [messages]: distinct, and drawn from the sequence. *)
Definition messages_keyed (db : database) : Prop :=
  NoDup (map m_id (messages db))
  /\ forall m, In m (messages db) -> m_id m < messages_id_seq db.

(** The keys of [chat_sessions], and the sessions the messages refer to:
    all drawn from the sequence. *)
Definition sessions_keyed (st : state) : Prop :=
  NoDup (map cs_id (chat_sessions (tables st)))
  /\ (forall cs, In cs (chat_sessions (tables st)) ->
                 cs_id cs < chat_sessions_id_seq st)
  /\ forall m, In m (messages (tables st)) ->
               m_session_id m < chat_sessions_id_seq st.

(** What a request leaves alone in a session row: everything but
    [updated_at] and [is_active]. *)
Definition session_identity (cs : chat_sessions_row)
    : Z * Z * jsstring * Z :=
  (cs_id cs, cs_user_id cs, cs_session_name cs, cs_created_at cs).

(** The rows of one page of the messages of a session, newest first as
    the query returns them before [reverse()]. *)
Definition page_rows (u : users_row) (sessionId : Z) (limit : Z)
    (db : database) (page : nat) : list messages_row :=
  match getMessages u sessionId (Some (Z.of_nat page)) (Some limit) db with
  | MessageList rows => rev rows
  | _ => []
  end.

(** ** The document store *)

(** What no write of the chat changes in a conversation: its id, its
    owner and its creation time. *)
Definition same_conversation (d d' : Client.Conversation) : Prop :=
  Client.id d' = Client.id d /\ Client.userId d' = Client.userId d
  /\ Client.conv_createdAt d' = Client.conv_createdAt d.

(** [db'] is [db] with at most [n] message documents added, all to the
    conversation [c], and with the title and the update time of [c], and
    nothing else, possibly changed. *)
Definition grows_in (c : jsstring) (n : nat) (db db' : Client.Firestore)
    : Prop :=
  (exists new,
      Client.message_docs db' = Client.message_docs db ++ new
      /\ (List.length new <= n)%nat
      /\ Forall (fun cm => fst cm = c) new)
  /\ Forall2 (fun d d' => same_conversation d d' /\ (Client.id d <> c -> d' = d))
       (Client.conversations db) (Client.conversations db').

(** The rules admit the request [a] of [uid] on the conversation [c] at
    [db] and at every store a submission into [c] makes of [db] before its
    reply: one message more in [c] at most, the title and the update time
    of [c] possibly set. *)
Definition admitted_during (R : Client.Rules) (uid : jsstring)
    (a : Client.access) (c : jsstring) (db : Client.Firestore) : Prop :=
  forall db1, grows_in c 1 db db1 -> R uid a c db1 = true.

(** [Number.isSafeInteger]. *)
Definition safe_integer (z : Z) : Prop := Z.abs z <= 2 ^ 53 - 1.

End Terms.

(* ===================================================================== *)
(** * Properties *)
(* ===================================================================== *)

Section StringFacts.
Import JS.

Lemma eqb_eq (a b : jsstring) : eqb a b = true <-> a = b.
Proof.
  unfold eqb. destruct (list_eq_dec N.eq_dec a b); split; congruence.
Qed.

Lemma eqb_refl (a : jsstring) : eqb a a = true.
Proof. now apply eqb_eq. Qed.

Lemma eqb_neq (a b : jsstring) : eqb a b = false <-> a <> b.
Proof.
  unfold eqb. destruct (list_eq_dec N.eq_dec a b); split; congruence.
Qed.

Lemma str_truthy_false (s : jsstring) : str_truthy s = false <-> s = [].
Proof. destruct s; simpl; split; congruence. Qed.

Lemma trimStart_blank (s : jsstring) : Spec.blank s -> trimStart s = [].
Proof.
  induction 1 as [|c r Hc _ IH]; simpl; [reflexivity|].
  now rewrite Hc.
Qed.

Lemma trimStart_nil_blank (s : jsstring) : trimStart s = [] -> Spec.blank s.
Proof.
  induction s as [|c r IH]; simpl; intros E; [constructor|].
  destruct (is_white_space c) eqn:Hc; [|discriminate].
  constructor; [exact Hc | exact (IH E)].
Qed.

(** [trim] yields the empty string exactly on blank text. *)
Lemma trim_nil_iff (s : jsstring) : trim s = [] <-> Spec.blank s.
Proof.
  unfold trim, trimEnd. split.
  - intros E. apply trimStart_nil_blank.
    destruct (trimStart s) as [|c l] eqn:Es; [reflexivity|].
    assert (Hb : Spec.blank (rev (c :: l))).
    { apply trimStart_nil_blank.
      apply (f_equal (@rev _)) in E. rewrite rev_involutive in E. exact E. }
    assert (Hc : Spec.blank (c :: l)).
    { unfold Spec.blank in *. rewrite Forall_forall in *.
      intros x Hx. apply Hb. now apply in_rev in Hx. }
    apply trimStart_blank in Hc.
    assert (Hidem : trimStart (c :: l) = c :: l).
    { clear - Es. revert Es. induction s as [|a s IH]; simpl; [discriminate|].
      destruct (is_white_space a) eqn:Ha; [exact IH|].
      intros E; inversion E; subst. simpl. now rewrite Ha. }
    congruence.
  - intros Hb. rewrite (trimStart_blank _ Hb). reflexivity.
Qed.

Lemma given_Some (f : option jsstring) (s : jsstring) :
  Server.given f = Some s <-> f = Some s /\ s <> [].
Proof.
  destruct f as [[|c r]|]; simpl; split.
  all: try (intros [E1 E2]); try intros E; try discriminate.
  - inversion E1; subst; contradiction.
  - inversion E; subst; split; [reflexivity | discriminate].
  - assumption.
Qed.

End StringFacts.


(* ===================================================================== *)
(** ** The document store and the relay *)
(* ===================================================================== *)

(** Case analysis of one submission under arbitrary rules: every store
    request is admitted or refused, and the relay answers or fails. *)
Ltac submit_cases :=
  unfold Client.handleSubmit, Client.on_error, Client.updateConversationTitle,
    Client.updateDoc, Client.addDoc;
  repeat match goal with
    | |- context [match Client.sendMessageToN8n ?w ?m ?c with _ => _ end] =>
        let E := fresh "Erelay" in
        destruct (Client.sendMessageToN8n w m c) as [? [?|]] eqn:E; simpl
    | |- context [if ?b then _ else _] =>
        let E := fresh "E" in destruct b eqn:E; simpl
    end.

Ltac split_in Hin :=
  repeat (rewrite in_app_iff in Hin; simpl in Hin);
  repeat match goal with
    | H : _ \/ _ |- _ => destruct H
    | H : False |- _ => destruct H
    end.

Section ClientFacts.
Import JS Client.
Context {engine : Engine}.

Lemma title_of_auto_title (text : jsstring) :
  title_of text = Spec.auto_title text.
Proof.
  unfold title_of, Spec.auto_title, slice0.
  destruct (Nat.leb_spec (List.length text) 50) as [Hle|Hgt].
  - assert (E : (50 <? List.length text)%nat = false)
      by (apply Nat.ltb_ge; exact Hle).
    rewrite E, app_nil_r. apply firstn_all2. exact Hle.
  - assert (E : (50 <? List.length text)%nat = true)
      by (apply Nat.ltb_lt; exact Hgt).
    now rewrite E.
Qed.

(** *** Writes *)

Lemma has_conversation_put c c' m db :
  has_conversation c (put_message c' m db) = has_conversation c db.
Proof. reflexivity. Qed.

Lemma has_conversation_patch c set db :
  (forall d, id (set d) = id d) ->
  has_conversation c (patch c set db) = has_conversation c db.
Proof.
  intros Hid. unfold has_conversation, patch; simpl.
  induction (conversations db) as [|d l IH]; simpl; [reflexivity|].
  rewrite IH. destruct (eqb (id d) c) eqn:E; [rewrite Hid, E | rewrite E];
    reflexivity.
Qed.

Lemma messages_of_put c m db :
  messages_of c (put_message c m db) = messages_of c db ++ [m].
Proof.
  unfold messages_of, put_message; simpl.
  rewrite filter_app, map_app; simpl. now rewrite eqb_refl.
Qed.

Lemma messages_of_patch c c' set db :
  messages_of c (patch c' set db) = messages_of c db.
Proof. reflexivity. Qed.

(** *** The relay *)

(** The relay never writes a document nor a title. *)
Lemma POST_events (w : World) (m c : jsstring) (e : event) :
  In e (fst (POST w m c)) -> e = CalledWebhook m c \/ exists what, e = Logged what.
Proof.
  unfold POST.
  destruct (str_truthy (webhookUrl w)); simpl; [|tauto].
  destruct (upstream w) as [|st raw]; simpl.
  - intros [<-|[<-|[]]]; eauto.
  - destruct (ok st); simpl; intros Hin;
      repeat destruct Hin as [<-|Hin]; try destruct Hin; eauto.
Qed.

Lemma sendMessageToN8n_events (w : World) (m c : jsstring) (e : event) :
  In e (fst (sendMessageToN8n w m c)) ->
  e = CalledApi m c \/ e = CalledWebhook m c \/ exists what, e = Logged what.
Proof.
  unfold sendMessageToN8n.
  destruct (api_reachable w); simpl; [|intros [<-|[<-|[]]]; eauto].
  pose proof (POST_events w m c e) as HP.
  destruct (POST w m c) as [evs r]; simpl in HP.
  assert (H1 : In e (CalledApi m c :: evs) ->
               e = CalledApi m c \/ e = CalledWebhook m c \/ exists what, e = Logged what).
  { intros [<-|Hin]; [now left | right; exact (HP Hin)]. }
  assert (H2 : In e ((CalledApi m c :: evs) ++ [Logged "Error sending message to N8N:"]) ->
               e = CalledApi m c \/ e = CalledWebhook m c \/ exists what, e = Logged what).
  { intros Hin. apply in_app_or in Hin. destruct Hin as [Hin|[<-|[]]]; eauto. }
  destruct (ok (status r)); simpl; [|exact H2].
  destruct (received (body r)) as [data|]; simpl; [|exact H2].
  destruct (pick data "error" (Some JNull)) as [[]|]; simpl; try exact H2.
  destruct (is_string data); simpl; [exact H1|].
  destruct (pick data "responseBody" _); simpl; [exact H1 | exact H2].
Qed.

Lemma relay_writes_nothing (w : World) (m c : jsstring) evs r e :
  sendMessageToN8n w m c = (evs, r) -> In e evs ->
  Spec.is_call e = true \/ exists what, e = Logged what.
Proof.
  intros E Hin. pose proof (sendMessageToN8n_events w m c e) as HF.
  rewrite E in HF. destruct (HF Hin) as [->|[->|[what ->]]]; eauto.
Qed.

(** The relay fails in the situations [Spec.relay_fails] lists. *)
Lemma sendMessageToN8n_fails (w : World) (m c : jsstring) :
  Spec.relay_fails w = true -> snd (sendMessageToN8n w m c) = None.
Proof.
  unfold sendMessageToN8n, Spec.relay_fails, POST.
  destruct (api_reachable w); simpl; [|reflexivity].
  destruct (str_truthy (webhookUrl w)); simpl; [|reflexivity].
  destruct (upstream w) as [|st raw]; simpl; [reflexivity|].
  destruct (ok st) eqn:Eok; simpl; [discriminate|].
  rewrite Eok. reflexivity.
Qed.

(** *** One submission *)

Lemma handleSubmit_blank R uid w c st db :
  Spec.blank (input st) -> handleSubmit R uid w c st db = (db, st, []).
Proof.
  intros Hb. apply trim_nil_iff in Hb. unfold handleSubmit. now rewrite Hb.
Qed.

Lemma handleSubmit_loading R uid w c st db :
  loading st = true -> handleSubmit R uid w c st db = (db, st, []).
Proof.
  intros Hl. unfold handleSubmit. rewrite Hl. now rewrite orb_true_r.
Qed.

Ltac not_from_relay :=
  match goal with
  | Hi : In _ ?evs, E : sendMessageToN8n _ _ _ = (?evs, _) |- _ =>
      let Hc := fresh in
      destruct (relay_writes_nothing _ _ _ _ _ _ E Hi) as [Hc|[? Hc]];
      discriminate Hc
  end.

Lemma title_only_when_first R uid w c st db c' t :
  In (SetTitle c' t) (snd (handleSubmit R uid w c st db)) ->
  messages st = [] /\ c' = c /\ t = title_of (trim (input st)).
Proof.
  assert (Hlen : forall l : list Message,
             (List.length l =? 0)%nat = true -> l = [])
    by (intros [|? ?]; simpl; [reflexivity | discriminate]).
  submit_cases; intros Hin; split_in Hin;
    try discriminate; try not_from_relay;
    match goal with
    | Hi : SetTitle _ _ = SetTitle _ _ |- _ => inversion Hi; subst; auto
    end.
Qed.

Lemma fallback_when_relay_fails R uid w c st db c' m :
  Spec.relay_fails w = true ->
  In (Wrote c' m) (snd (handleSubmit R uid w c st db)) ->
  role m = assistant -> content m = JStr fallback_text.
Proof.
  intros Hf. apply (sendMessageToN8n_fails w (trim (input st)) c) in Hf.
  revert Hf.
  submit_cases; intros Hf Hin Hr; try discriminate Hf; split_in Hin;
    try discriminate; try not_from_relay;
    match goal with
    | Hi : Wrote _ _ = Wrote _ _ |- _ =>
        inversion Hi; subst; simpl in *; auto; discriminate
    end.
Qed.

(** Either no call is attempted, or the first effect is the write of the
    user message, which is in the store at the end. *)
Lemma written_before_any_call R uid w c st db :
  let sent := mkMessage user (JStr (trim (input st))) (now w) in
  let '(db', _, evs) := handleSubmit R uid w c st db in
  Forall (fun e => Spec.is_call e = false) evs
  \/ (exists rest, evs = Wrote c sent :: rest) /\ In (c, sent) (message_docs db').
Proof.
  submit_cases;
    try (left; repeat constructor; fail);
    right; (split; [eexists; reflexivity |]);
    unfold put_message, patch; simpl; repeat (rewrite in_app_iff; simpl); auto.
Qed.

End ClientFacts.

(* ===================================================================== *)
(** ** Sorted lists *)
(* ===================================================================== *)

Section SortedFacts.
Variable A : Type.
Variable R : A -> A -> Prop.

Lemma StronglySorted_app_inv (l1 l2 : list A) :
  StronglySorted R (l1 ++ l2) ->
  StronglySorted R l1 /\ StronglySorted R l2
  /\ forall a b, In a l1 -> In b l2 -> R a b.
Proof.
  induction l1 as [|x l1 IH]; simpl; intros Hs.
  - split; [constructor | split; [exact Hs | intros ? ? []]].
  - apply StronglySorted_inv in Hs. destruct Hs as [Hs Hx].
    destruct (IH Hs) as (H1 & H2 & H12).
    rewrite Forall_app in Hx. destruct Hx as [Hx1 Hx2].
    split; [constructor; assumption | split; [exact H2|]].
    intros a b [<-|Ha] Hb; [|now apply H12].
    rewrite Forall_forall in Hx2. now apply Hx2.
Qed.

Lemma StronglySorted_firstn (n : nat) (l : list A) :
  StronglySorted R l -> StronglySorted R (firstn n l).
Proof.
  intros Hs. rewrite <- (firstn_skipn n l) in Hs.
  now apply StronglySorted_app_inv in Hs.
Qed.

Lemma StronglySorted_skipn (n : nat) (l : list A) :
  StronglySorted R l -> StronglySorted R (skipn n l).
Proof.
  intros Hs. rewrite <- (firstn_skipn n l) in Hs.
  now apply StronglySorted_app_inv in Hs.
Qed.

Lemma StronglySorted_rev (l : list A) :
  StronglySorted R l -> StronglySorted (fun a b => R b a) (rev l).
Proof.
  induction 1 as [|x l Hs IH Hx]; simpl; [constructor|].
  revert IH. generalize (in_rev l). intros Hin.
  assert (Hall : forall y, In y (rev l) -> R x y).
  { intros y Hy. rewrite Forall_forall in Hx. apply Hx. now apply Hin. }
  clear Hin Hx Hs. induction (rev l) as [|y r IHr]; simpl; intros Hr.
  - repeat constructor.
  - apply StronglySorted_inv in Hr. destruct Hr as [Hr Hy].
    constructor.
    + apply IHr; [intros; apply Hall; now right | exact Hr].
    + apply Forall_app. split; [exact Hy|].
      constructor; [apply Hall; now left | constructor].
Qed.

Lemma in_firstn (n : nat) (l : list A) (x : A) : In x (firstn n l) -> In x l.
Proof.
  intros Hx. rewrite <- (firstn_skipn n l). apply in_or_app. now left.
Qed.

Lemma in_skipn (n : nat) (l : list A) (x : A) : In x (skipn n l) -> In x l.
Proof.
  intros Hx. rewrite <- (firstn_skipn n l). apply in_or_app. now right.
Qed.

End SortedFacts.

(* ===================================================================== *)
(** ** Doubles *)
(* ===================================================================== *)

Section NumberFacts.
Import JS Server.

(** Integers up to 2^53 are doubles. *)
Lemma double_exact (z : Z) : Z.abs z <= 2 ^ 53 -> double z = Some z.
Proof.
  intros Hz. unfold double.
  destruct (Z.eq_dec (Z.abs z) (2 ^ 53)) as [E|Hne].
  - destruct (Z.abs_eq_or_opp z) as [H|H]; rewrite H in E.
    + subst z. reflexivity.
    + assert (z = - 2 ^ 53) by lia. subst z. reflexivity.
  - assert (Hlt : Z.abs z < 2 ^ 53) by lia.
    assert (Hlog : Z.log2 (Z.abs z) - 52 <= 0).
    { destruct (Z.eq_dec (Z.abs z) 0) as [E0|Hn0].
      - rewrite E0. simpl. lia.
      - assert (0 < Z.abs z) by lia.
        assert (Z.log2 (Z.abs z) < 53)
          by (apply Z.log2_lt_pow2; [assumption | exact Hlt]).
        lia. }
    apply Z.leb_le in Hlog. now rewrite Hlog.
Qed.

(** Rounding keeps the sign. *)
Lemma double_sign (z y : Z) :
  double z = Some y -> (z < 0 -> y < 0) /\ (0 < z -> 0 < y).
Proof.
  unfold double. cbv zeta.
  destruct (Z.leb_spec (Z.log2 (Z.abs z) - 52) 0) as [|He].
  - intros E. inversion E. subst y. split; auto.
  - set (a := Z.abs z) in *. set (e := Z.log2 a - 52) in *.
    match goal with
    | |- context [if ?b then a / 2 ^ e else a / 2 ^ e + 1] =>
        set (q' := if b then a / 2 ^ e else a / 2 ^ e + 1)
    end.
    destruct (2 ^ 1024 <=? q' * 2 ^ e); [discriminate|].
    intros E. inversion E. subst y. clear E.
    assert (Ha : 0 < a).
    { destruct (Z.eq_dec a 0) as [E0|]; [|subst a; lia].
      subst e. rewrite E0 in He. simpl in He. lia. }
    assert (Hpow : 0 < 2 ^ e) by (apply Z.pow_pos_nonneg; lia).
    assert (Hle : 2 ^ e <= a).
    { apply Z.le_trans with (2 ^ Z.log2 a).
      - apply Z.pow_le_mono_r; subst e; lia.
      - now apply Z.log2_spec. }
    assert (Hq : 1 <= a / 2 ^ e).
    { apply Z.div_le_lower_bound; lia. }
    assert (Hq' : 1 <= q') by (subst q'; destruct (_ || _); lia).
    assert (Hm : 0 < q' * 2 ^ e) by nia.
    split; intros Hz.
    + rewrite Z.sgn_neg by exact Hz. lia.
    + rewrite Z.sgn_pos by exact Hz. lia.
Qed.

(** Within the safe integers the offset is the exact product. *)
Lemma offset_sent_exact (page limit : Z) :
  Z.abs page <= 2 ^ 53 -> Z.abs (page - 1) <= 2 ^ 53 ->
  Z.abs limit <= 2 ^ 53 -> Z.abs ((page - 1) * limit) <= 2 ^ 53 ->
  offset_sent page limit = Some ((page - 1) * limit).
Proof.
  intros Hp Hd Hl Ho. unfold offset_sent.
  rewrite (double_exact page Hp), (double_exact (page - 1) Hd),
    (double_exact limit Hl).
  exact (double_exact _ Ho).
Qed.

(** A negative offset stays negative. *)
Lemma offset_sent_negative (page limit sent : Z) :
  (page - 1) * limit < 0 -> 0 <= limit ->
  offset_sent page limit = Some sent -> sent < 0.
Proof.
  intros Hneg Hl. unfold offset_sent.
  destruct (double page) as [p|] eqn:Ep; [|discriminate].
  destruct (double (p - 1)) as [d|] eqn:Ed; [|discriminate].
  destruct (double limit) as [l|] eqn:El; [|discriminate].
  intros Es.
  assert (Hlim : 0 < limit).
  { destruct (Z.eq_dec limit 0) as [->|]; [rewrite Z.mul_0_r in Hneg|]; lia. }
  assert (Hpage : page <= 0).
  { destruct (Z.le_gt_cases page 0) as [|Hgt]; [assumption|].
    assert (0 <= (page - 1) * limit) by (apply Z.mul_nonneg_nonneg; lia). lia. }
  assert (Hp : p <= 0).
  { destruct (Z.eq_dec page 0) as [->|Hn].
    - rewrite double_exact in Ep by (simpl; lia). inversion Ep. lia.
    - destruct (double_sign _ _ Ep) as [H _].
      assert (p < 0) by (apply H; lia). lia. }
  assert (Hdn : d < 0).
  { destruct (double_sign _ _ Ed) as [H _]. apply H. lia. }
  assert (Hlp : 0 < l).
  { destruct (double_sign _ _ El) as [_ H]. now apply H. }
  destruct (double_sign _ _ Es) as [H _]. apply H.
  apply Z.mul_neg_pos; assumption.
Qed.

End NumberFacts.

(* ===================================================================== *)
(** ** Reading a session's messages *)
(* ===================================================================== *)

Section Paging.
Import JS Server.

Lemma insert_desc_perm m rows : Permutation (insert_desc m rows) (m :: rows).
Proof.
  induction rows as [|x r IH]; simpl; [reflexivity|].
  destruct (m_created_at x <=? m_created_at m); [reflexivity|].
  rewrite IH. apply perm_swap.
Qed.

Lemma order_by_perm rows : Permutation (order_by_created_at_desc rows) rows.
Proof.
  induction rows as [|x r IH]; simpl; [reflexivity|].
  rewrite insert_desc_perm. now constructor.
Qed.

Lemma insert_desc_sorted m rows :
  StronglySorted Spec.newer_first rows -> StronglySorted Spec.newer_first (insert_desc m rows).
Proof.
  induction 1 as [|x r Hs IH Hx]; simpl.
  - repeat constructor.
  - destruct (Z.leb_spec (m_created_at x) (m_created_at m)) as [Hle|Hgt].
    + constructor; [constructor; assumption|].
      constructor; [exact Hle|].
      rewrite Forall_forall in *. intros y Hy. specialize (Hx y Hy).
      unfold Spec.newer_first in *. lia.
    + constructor; [exact IH|].
      rewrite Forall_forall in *. intros y Hy.
      apply (Permutation_in _ (insert_desc_perm m r)) in Hy.
      destruct Hy as [<-|Hy]; [unfold Spec.newer_first; lia | now apply Hx].
Qed.

Lemma order_by_sorted rows : StronglySorted Spec.newer_first (order_by_created_at_desc rows).
Proof.
  induction rows as [|x r IH]; simpl; [constructor | now apply insert_desc_sorted].
Qed.

Lemma strictly_of_distinct rows :
  StronglySorted Spec.newer_first rows -> NoDup (map m_created_at rows) ->
  StronglySorted (fun a b => m_created_at b < m_created_at a) rows.
Proof.
  induction 1 as [|x r Hs IH Hx]; simpl; intros Hnd; [constructor|].
  inversion Hnd as [|? ? Hnotin Hnd']; subst.
  constructor; [now apply IH|].
  rewrite Forall_forall in *. intros y Hy. specialize (Hx y Hy).
  assert (m_created_at y <> m_created_at x).
  { intros E. apply Hnotin. rewrite <- E. now apply in_map. }
  unfold Spec.newer_first in Hx. lia.
Qed.

Lemma getMessages_rows u sid page limit db rows :
  getMessages u sid page limit db = MessageList rows ->
  let p := match page with Some p => p | None => 1 end in
  let l := match limit with Some l => l | None => 50 end in
  rows = rev (firstn (Z.to_nat l) (skipn (Z.to_nat ((p - 1) * l))
                (order_by_created_at_desc (Spec.session_messages sid db)))).
Proof.
  unfold getMessages.
  destruct (existsb _ _); simpl; [|discriminate].
  destruct (offset_sent _ _); [|discriminate].
  destruct (row_count _ && row_count _); [|discriminate].
  intros E; inversion E; reflexivity.
Qed.

Lemma getMessages_ascending u sid page limit db rows :
  getMessages u sid page limit db = MessageList rows ->
  Spec.ascending rows
  /\ (NoDup (map m_created_at (Spec.session_messages sid db)) -> Spec.strictly_ascending rows)
  /\ (forall m, In m rows -> In m (messages db) /\ m_session_id m = sid).
Proof.
  intros E. apply getMessages_rows in E. cbv zeta in E. subst rows.
  pose proof (order_by_sorted (Spec.session_messages sid db)) as Hs.
  split; [|split].
  - apply (StronglySorted_rev _ Spec.newer_first).
    now apply StronglySorted_firstn, StronglySorted_skipn.
  - intros Hnd.
    apply (StronglySorted_rev _ (fun a b => m_created_at b < m_created_at a)).
    apply StronglySorted_firstn, StronglySorted_skipn.
    apply strictly_of_distinct; [exact Hs|].
    eapply Permutation_NoDup; [|exact Hnd].
    apply Permutation_map, Permutation_sym, order_by_perm.
  - intros m Hm. apply in_rev in Hm.
    apply in_firstn, in_skipn in Hm.
    apply (Permutation_in _ (order_by_perm _)) in Hm.
    unfold Spec.session_messages in Hm. apply filter_In in Hm.
    destruct Hm as [Hm Hs']. split; [exact Hm | now apply Z.eqb_eq].
Qed.

Lemma in_window (A : Type) (s : list A) (P L Q : nat) (b : A) :
  In b (firstn L (skipn P s)) -> (P + L <= Q)%nat -> In b (firstn Q s).
Proof.
  intros Hb Hle. rewrite firstn_skipn_comm in Hb. apply in_skipn in Hb.
  replace (P + L)%nat with (Nat.min (P + L) Q) in Hb by lia.
  rewrite <- firstn_firstn in Hb. now apply in_firstn in Hb.
Qed.

Lemma getMessages_limit u sid page limit db rows :
  getMessages u sid page limit db = MessageList rows ->
  0 <= match limit with Some l => l | None => 50 end
  /\ 0 <= (match page with Some p => p | None => 1 end - 1)
          * match limit with Some l => l | None => 50 end.
Proof.
  unfold getMessages.
  destruct (existsb _ _); simpl; [|discriminate].
  set (p := match page with Some p => p | None => 1 end).
  set (l := match limit with Some l => l | None => 50 end).
  destruct (offset_sent p l) as [sent|] eqn:Es; [|discriminate].
  destruct (row_count l) eqn:El; simpl; [|discriminate].
  destruct (row_count sent) eqn:Er; [|discriminate].
  intros _. unfold row_count in El, Er.
  apply andb_prop in El. destruct El as [El _]. apply Z.leb_le in El.
  apply andb_prop in Er. destruct Er as [Er _]. apply Z.leb_le in Er.
  split; [exact El|].
  destruct (Z.lt_ge_cases ((p - 1) * l) 0) as [Hneg|]; [|lia].
  pose proof (offset_sent_negative p l sent Hneg El Es). lia.
Qed.

(** Pages are numbered from the newest messages: whatever is on a later
    page is not newer than anything on an earlier one. *)
Lemma later_pages_are_older u sid p q l db rows older :
  1 <= p -> p < q ->
  getMessages u sid (Some p) (Some l) db = MessageList rows ->
  getMessages u sid (Some q) (Some l) db = MessageList older ->
  forall a b, In a older -> In b rows -> m_created_at a <= m_created_at b.
Proof.
  intros Hp Hq Hrows Holder a b Ha Hb.
  destruct (getMessages_limit _ _ _ _ _ _ Hrows) as [Hl _].
  apply getMessages_rows in Hrows, Holder. cbv zeta in Hrows, Holder.
  subst rows older. apply in_rev in Ha, Hb.
  set (s := order_by_created_at_desc (Spec.session_messages sid db)) in *.
  apply in_firstn in Ha.
  apply (in_window _ s _ _ (Z.to_nat ((q - 1) * l))) in Hb; [|nia].
  pose proof (order_by_sorted (Spec.session_messages sid db)) as Hs.
  fold s in Hs. rewrite <- (firstn_skipn (Z.to_nat ((q - 1) * l)) s) in Hs.
  apply StronglySorted_app_inv in Hs. destruct Hs as (_ & _ & Hs).
  exact (Hs b a Hb Ha).
Qed.
End Paging.

(* ===================================================================== *)
(** ** The handlers of the session-based server *)
(* ===================================================================== *)

Section ServerFacts.
Import JS Server.
Context {engine : Engine} {libraries : Libraries}.
Variable cfg : config.

Lemma messages_logUserActivity uid ty t db :
  messages (logUserActivity cfg uid ty t db) = messages db.
Proof. unfold logUserActivity. now destruct (features_userActivityLogging cfg). Qed.

Lemma chat_sessions_logUserActivity uid ty t db :
  chat_sessions (logUserActivity cfg uid ty t db) = chat_sessions db.
Proof. unfold logUserActivity. now destruct (features_userActivityLogging cfg). Qed.

Lemma tokens_logUserActivity uid ty t db :
  email_verification_tokens (logUserActivity cfg uid ty t db)
  = email_verification_tokens db.
Proof. unfold logUserActivity. now destruct (features_userActivityLogging cfg). Qed.

(** The relay starts with the call, calls once, and adds at most bot
    messages. *)
Lemma callWebhook_shape w u sid m db :
  let '(db', evs, _, _) := callWebhook w u sid m db in
  (exists rest, evs = WebhookCalled m (u_id u) sid :: rest
                /\ forall m' uid' s', ~ In (WebhookCalled m' uid' s') rest)
  /\ exists bots, messages db' = messages db ++ bots
                  /\ Forall (fun r => Spec.is_bot r = true) bots.
Proof.
  unfold callWebhook.
  assert (Hc :
    (exists rest, [WebhookCalled m (u_id u) sid; Logged "Webhook error:"]
                  = WebhookCalled m (u_id u) sid :: rest
                  /\ forall m' uid' s', ~ In (WebhookCalled m' uid' s') rest)
    /\ exists bots, messages db = messages db ++ bots
                    /\ Forall (fun r => Spec.is_bot r = true) bots).
  { split.
    - eexists. split; [reflexivity|]. intros ? ? ? [Hx|[]]; discriminate Hx.
    - exists []. now rewrite app_nil_r. }
  destruct (webhook w) as [| |st data]; try exact Hc.
  destruct (validateStatus st); [|exact Hc].
  destruct (botMessageText data) as [text|]; [|exact Hc].
  destruct (prepareValue text) as [message_text|]; [|exact Hc].
  simpl. split.
  - eexists. split; [reflexivity|].
    intros ? ? ? [Hx|[Hx|[]]]; discriminate Hx.
  - eexists. split; [reflexivity|]. repeat constructor.
Qed.

Lemma callWebhook_rejects w u sid m db :
  Spec.webhook_rejects w = true ->
  callWebhook w u sid m db
  = (db, [WebhookCalled m (u_id u) sid; Logged "Webhook error:"],
     Some webhook_failed, Some (elapsed w)).
Proof.
  unfold Spec.webhook_rejects, callWebhook.
  destruct (webhook w) as [| |st data]; try reflexivity.
  destruct (validateStatus st); [discriminate | reflexivity].
Qed.

(** A request that passes validation and names a session of the caller. *)
Lemma sendMessage_accepted w u sid msg s m db :
  given_id sid = Some s -> given msg = Some m ->
  existsb (owns_active (u_id u) s) (chat_sessions db) = true ->
  sendMessage cfg w u sid msg db =
    let '(db1, userMessage) :=
      insert_message s (u_id u) m user None None (now w) db in
    let '(db2, ev2, webhookResponse, responseTime) :=
      if webhook_enabled cfg && str_truthy (webhook_url cfg)
      then callWebhook w u s m db1
      else (db1, [], None, None) in
    let t := match responseTime with Some d => now w + d | None => now w end in
    (logUserActivity cfg (u_id u) "message_sent" t
       (set_chat_sessions
          (map (fun r =>
                  if cs_id r =? s then
                    mkSession (cs_id r) (cs_user_id r) (cs_session_name r)
                      (cs_created_at r) t (cs_is_active r)
                  else r))
          db2),
     [Inserted userMessage; Emitted s userMessage] ++ ev2,
     MessageSent userMessage webhookResponse responseTime).
Proof.
  intros Hs Hm Ho. unfold sendMessage. rewrite Hs, Hm, Ho. reflexivity.
Qed.

(** The effects of a send: none when the request is refused; otherwise the
    insertion of the user message, its broadcast, and then the relay. *)
Lemma sendMessage_shape w u sid msg db :
  let '(db', evs, r) := sendMessage cfg w u sid msg db in
  (evs = [] /\ db' = db /\ (exists st e, r = Error st e)
   /\ forall s m, given_id sid = Some s -> given msg = Some m ->
                  existsb (owns_active (u_id u) s) (chat_sessions db) = false)
  \/ exists s m rest bots,
       let userMessage :=
         mkMessage (messages_id_seq db) s (u_id u) m user None (now w) None in
       given_id sid = Some s /\ given msg = Some m
       /\ evs = Inserted userMessage :: Emitted s userMessage :: rest
       /\ (rest = []
           \/ exists tl, rest = WebhookCalled m (u_id u) s :: tl
                         /\ forall m' uid' s', ~ In (WebhookCalled m' uid' s') tl)
       /\ messages db' = messages db ++ userMessage :: bots
       /\ Forall (fun r => Spec.is_bot r = true) bots
       /\ exists wr rt, r = MessageSent userMessage wr rt.
Proof.
  unfold sendMessage.
  destruct (given_id sid) as [s|] eqn:Hs;
    [|left; repeat split; eauto; discriminate].
  destruct (given msg) as [m|] eqn:Hm;
    [|left; repeat split; eauto; discriminate].
  destruct (existsb _ _) eqn:Ho; simpl negb; cbv iota;
    [|left; repeat split; eauto; intros ? ? [= <-] [= <-]; exact Ho].
  unfold insert_message.
  destruct (webhook_enabled cfg && str_truthy (webhook_url cfg)).
  - match goal with |- context [callWebhook w u s m ?d] =>
      pose proof (callWebhook_shape w u s m d) as Hw;
      destruct (callWebhook w u s m d) as [[[db2 ev2] wr] rt]
    end.
    destruct Hw as [[tl [-> Htl]] [bots [Hb Hbots]]]. simpl in Hb.
    right. exists s, m, (WebhookCalled m (u_id u) s :: tl), bots. cbv zeta.
    rewrite messages_logUserActivity. simpl.
    rewrite Hb, <- app_assoc. simpl. eauto 12.
  - right. exists s, m, [], []. cbv zeta.
    rewrite messages_logUserActivity. simpl. eauto 12.
Qed.

(** *** Sessions of other users *)



(** *** Validation of the message *)

Lemma given_None (f : option jsstring) :
  given f = None <-> f = None \/ f = Some [].
Proof.
  destruct f as [[|c r]|]; simpl; split; intros Hf; auto; try discriminate.
  destruct Hf; discriminate.
Qed.

Lemma sendMessage_empty w u sid msg db :
  given msg = None ->
  sendMessage cfg w u sid msg db
  = (db, [], Error 400 "Session ID and message are required").
Proof.
  intros Hm. unfold sendMessage. rewrite Hm. now destruct (given_id sid).
Qed.

(** *** Login *)

Lemma find_unique (A : Type) (f : A -> bool) (l : list A) (x : A) :
  In x l -> f x = true -> (forall y, In y l -> f y = true -> y = x) ->
  find f l = Some x.
Proof.
  induction l as [|a l IH]; simpl; [intros []|].
  intros Hin Hx Hu. destruct (f a) eqn:Ha.
  - f_equal. apply Hu; [now left | exact Ha].
  - destruct Hin as [->|Hin]; [congruence|].
    apply IH; auto.
Qed.

Lemma find_unverified u email db :
  Spec.unverified_account u email db ->
  find (fun v => eqb (u_email v) email && u_is_active v) (users db) = Some u.
Proof.
  intros (Hin & He & Ha & _ & Hu). apply find_unique.
  - exact Hin.
  - rewrite He, eqb_refl, Ha. reflexivity.
  - intros v Hv Hf. apply andb_prop in Hf. destruct Hf as [Hf _].
    apply eqb_eq in Hf. now apply Hu.
Qed.

Lemma login_unverified w u email password db :
  auth_requireEmailVerification cfg = true ->
  Spec.unverified_account u email db ->
  email <> [] -> password <> [] ->
  login cfg w (Some email) (Some password) db = (db, EmailNotVerified email).
Proof.
  intros Hreq Hu He Hp. unfold login.
  assert (Ge : given (Some email) = Some email)
    by (apply given_Some; split; [reflexivity | exact He]).
  assert (Gp : given (Some password) = Some password)
    by (apply given_Some; split; [reflexivity | exact Hp]).
  rewrite Ge, Gp, (find_unverified _ _ _ Hu), Hreq.
  destruct Hu as (_ & Hmail & _ & Hv & _). now rewrite Hv, Hmail.
Qed.

(** *** Verification tokens *)

Lemma filter_out_filter (A : Type) (P : A -> bool) (l : list A) :
  filter P (filter (fun x => negb (P x)) l) = [].
Proof.
  induction l as [|a l IH]; simpl; [reflexivity|].
  destruct (P a) eqn:Ha; simpl; [exact IH | now rewrite Ha].
Qed.

Lemma resendVerification_sent w email db db' e :
  resendVerification cfg w email db = (db', VerificationSent e) ->
  exists u,
    find (fun v => eqb (u_email v) e && u_is_active v) (users db) = Some u
    /\ u_email u = e
    /\ Spec.unused_by_used_at (u_id u) db'
       = [mkToken (tokens_id_seq db) (u_id u) (randomBytes w)
            (now w + verification_expiryHours cfg * 3600000) (now w) None false].
Proof.
  unfold resendVerification.
  destruct (given email) as [em|]; [|discriminate].
  destruct (find _ (users db)) as [u|] eqn:Hfind; [|discriminate].
  destruct (u_email_verified u); [discriminate|].
  unfold insert_token.
  destruct (existsb _ _); [discriminate|].
  destruct (emailSent w); simpl; [|discriminate].
  intros E; inversion E; subst; clear E.
  assert (Hem : u_email u = em).
  { apply find_some in Hfind. destruct Hfind as [_ Hf].
    apply andb_prop in Hf. destruct Hf as [Hf _]. now apply eqb_eq in Hf. }
  exists u. rewrite Hem. split; [exact Hfind | split; [reflexivity|]].
  unfold Spec.unused_by_used_at. rewrite tokens_logUserActivity. simpl.
  rewrite filter_app.
  rewrite (filter_out_filter _
             (fun r => (t_user_id r =? u_id u)
                       && match t_used_at r with None => true | Some _ => false end)).
  simpl. now rewrite Z.eqb_refl.
Qed.

Lemma router_resendVerification_sent w email db db' :
  router_resendVerification w email db
  = (db', RouterReply 200 true "Verification email sent successfully") ->
  exists e u,
    email = Some e
    /\ find (fun v => eqb (u_email v) e) (users db) = Some u
    /\ Spec.unused_by_flag (u_id u) db'
       = [mkToken (tokens_id_seq db) (u_id u) (randomBytes w)
            (now w + 24 * 60 * 60 * 1000) (now w) None false].
Proof.
  unfold router_resendVerification.
  destruct (given email) as [em|] eqn:Hg; [|discriminate].
  destruct (find _ (users db)) as [u|] eqn:Hfind; [|discriminate].
  destruct (u_email_verified u); [discriminate|].
  unfold insert_token.
  destruct (existsb _ _); [discriminate|].
  destruct (emailSent w); simpl; [|discriminate].
  intros E; inversion E; subst; clear E.
  apply given_Some in Hg. destruct Hg as [-> _].
  exists em, u. split; [reflexivity | split; [exact Hfind|]].
  unfold Spec.unused_by_flag. simpl.
  rewrite filter_app.
  rewrite (filter_out_filter _
             (fun r => (t_user_id r =? u_id u) && negb (t_is_used r))).
  simpl. now rewrite Z.eqb_refl.
Qed.

(** *** The statements of a resend, one at a time *)

(** Each handler is its statements run with nothing in between. *)
Lemma resendVerification_alone w email db :
  alone (resend_step cfg w) 5 (Received email) db
  = let '(db', r) := resendVerification cfg w email db in (db', Answered r).
Proof.
  unfold resendVerification. simpl.
  destruct (given email) as [em|]; [|reflexivity].
  destruct (find _ (users db)) as [u|]; [|reflexivity].
  destruct (u_email_verified u); [reflexivity|]. simpl.
  destruct (insert_token _ _ _ _ _) as [db2|]; [|reflexivity]. simpl.
  destruct (emailSent w); reflexivity.
Qed.

Lemma router_resendVerification_alone w email db :
  alone (router_resend_step w) 4 (Received email) db
  = let '(db', r) := router_resendVerification w email db in (db', Answered r).
Proof.
  unfold router_resendVerification. simpl.
  destruct (given email) as [em|]; [|reflexivity].
  destruct (find _ (users db)) as [u|]; [|reflexivity].
  destruct (u_email_verified u); [reflexivity|]. simpl.
  destruct (insert_token _ _ _ _ _) as [db2|]; [|reflexivity]. simpl.
  destruct (emailSent w); reflexivity.
Qed.

(** From its DELETE to its answer with nothing in between, a resend
    leaves the user one token that is not used: the one it inserted. *)
Lemma resend_from_delete w u db db' e :
  alone (resend_step cfg w) 4 (Found u) db = (db', Answered (VerificationSent e)) ->
  Spec.unused_by_used_at (u_id u) db'
  = [mkToken (tokens_id_seq db) (u_id u) (randomBytes w)
       (now w + verification_expiryHours cfg * 3600000) (now w) None false].
Proof.
  simpl. unfold insert_token.
  destruct (existsb _ _); simpl; [discriminate|].
  destruct (emailSent w); simpl; [|discriminate].
  intros E; inversion E; subst; clear E.
  unfold Spec.unused_by_used_at. rewrite tokens_logUserActivity. simpl.
  rewrite filter_app.
  rewrite (filter_out_filter _
             (fun r => (t_user_id r =? u_id u)
                       && match t_used_at r with None => true | Some _ => false end)).
  simpl. now rewrite Z.eqb_refl.
Qed.

Lemma router_resend_from_delete w u db db' :
  alone (router_resend_step w) 3 (Found u) db
  = (db', Answered (RouterReply 200 true "Verification email sent successfully")) ->
  Spec.unused_by_flag (u_id u) db'
  = [mkToken (tokens_id_seq db) (u_id u) (randomBytes w)
       (now w + 24 * 60 * 60 * 1000) (now w) None false].
Proof.
  simpl. unfold insert_token.
  destruct (existsb _ _); simpl; [discriminate|].
  destruct (emailSent w); simpl; [|discriminate].
  intros E; inversion E; subst; clear E.
  unfold Spec.unused_by_flag. simpl.
  rewrite filter_app.
  rewrite (filter_out_filter _
             (fun r => (t_user_id r =? u_id u) && negb (t_is_used r))).
  simpl. now rewrite Z.eqb_refl.
Qed.

End ServerFacts.

(* ===================================================================== *)
(** ** Extraction of the assistant text *)
(* ===================================================================== *)

Section ExtractionFacts.
Import JS.
Context {engine : Engine}.

(** The chain of [if (data.k)] tests is the ordered probe of the
    specification, for every parsed value that is neither a string nor
    [null]. *)
Lemma route_chain_first_match (data : json) :
  data <> JNull ->
  pick data "responseBody"
    (pick data "redacted"
       (pick data "message"
          (pick data "output"
             (pick data "text" (Some (JStr (JSON_stringify data)))))))
  = Some (Spec.extracted Spec.route_fields JSON_stringify data).
Proof.
  intros Hn. unfold Spec.extracted, Spec.route_fields, Spec.first_match, pick.
  destruct data as [|b|x|s|items|fields]; try reflexivity; [contradiction|].
  unfold get.
  repeat match goal with
    | |- context [assoc ?k fields] => destruct (assoc k fields)
    | |- context [truthy ?v] => destruct (truthy v)
    end; reflexivity.
Qed.

Lemma server_chain_first_match (data : json) :
  data <> JNull -> is_string data = false ->
  Server.botMessageText data
  = Some (Spec.extracted Spec.server_fields JSON_stringify_pretty data).
Proof.
  intros Hn Hs. unfold Server.botMessageText. rewrite Hs.
  unfold Spec.extracted, Spec.server_fields, Spec.first_match, pick.
  destruct data as [|b|x|s|items|fields]; try reflexivity; [contradiction|].
  unfold get.
  repeat match goal with
    | |- context [assoc ?k fields] => destruct (assoc k fields)
    | |- context [truthy ?v] => destruct (truthy v)
    end; reflexivity.
Qed.

Lemma responseText_not_json (rawText : jsstring) :
  JSON_parse rawText = None -> Client.responseText rawText = JStr rawText.
Proof. intros E. unfold Client.responseText. now rewrite E. Qed.

Lemma responseText_string (rawText s : jsstring) :
  JSON_parse rawText = Some (JStr s) -> Client.responseText rawText = JStr s.
Proof. intros E. unfold Client.responseText. now rewrite E. Qed.

Lemma responseText_null (rawText : jsstring) :
  JSON_parse rawText = Some JNull -> Client.responseText rawText = JStr rawText.
Proof. intros E. unfold Client.responseText. now rewrite E. Qed.

Lemma responseText_probe (rawText : jsstring) (data : json) :
  JSON_parse rawText = Some data -> is_string data = false -> data <> JNull ->
  Client.responseText rawText
  = Spec.extracted Spec.route_fields JSON_stringify data.
Proof.
  intros E Hs Hn. unfold Client.responseText.
  now rewrite E, Hs, (route_chain_first_match data Hn).
Qed.

End ExtractionFacts.

(* ===================================================================== *)
(** ** Submissions that the store admits *)
(* ===================================================================== *)

(** ** What a submission does to the document store *)
Section DocumentFacts.
Import JS Client.
Context {engine : Engine}.

Lemma grows_refl c db : Terms.grows_in c 0 db db.
Proof.
  split.
  - exists []. rewrite app_nil_r. repeat split; auto.
  - induction (conversations db) as [|d l IH]; constructor; auto.
    split; [repeat split|]; auto.
Qed.

Lemma grows_put c n m db db1 :
  Terms.grows_in c n db db1 -> Terms.grows_in c (S n) db (put_message c m db1).
Proof.
  intros [[new (E & Hlen & Hall)] Hc]. split; [|exact Hc].
  exists (new ++ [(c, m)]). simpl. rewrite E, app_assoc, length_app. simpl.
  repeat split; [lia|]. apply Forall_app. split; [exact Hall|]. now constructor.
Qed.

Lemma grows_patch c n set db db1 :
  (forall d, Terms.same_conversation d (set d)) ->
  Terms.grows_in c n db db1 -> Terms.grows_in c n db (patch c set db1).
Proof.
  intros Hset [Hm Hc]. split; [exact Hm|]. simpl.
  induction Hc as [|d d1 l l1 [Hs Hd] _ IH]; simpl; constructor; [|exact IH].
  destruct Hs as (Hi & Hu & Ht).
  destruct (eqb (id d1) c) eqn:E.
  - destruct (Hset d1) as (Hi' & Hu' & Ht').
    split; [repeat split; congruence|].
    intros Hne. apply eqb_eq in E. congruence.
  - split; [repeat split; assumption|exact Hd].
Qed.

Lemma grows_le c n n' db db' :
  Terms.grows_in c n db db' -> (n <= n')%nat -> Terms.grows_in c n' db db'.
Proof.
  intros [[new (E & Hlen & Hall)] Hc] Hle. split; [|exact Hc].
  exists new. repeat split; auto. lia.
Qed.

Lemma same_retitle t time d : Terms.same_conversation d (retitle t time d).
Proof. repeat split. Qed.

Lemma same_touch time d : Terms.same_conversation d (touch time d).
Proof. repeat split. Qed.

(** Whatever the rules and the relay, a submission only grows the store,
    by at most two documents of its conversation. *)
Lemma handleSubmit_grows R uid w c st db :
  Terms.grows_in c 2 db (fst (fst (handleSubmit R uid w c st db))).
Proof.
  submit_cases;
    (eapply grows_le;
     [repeat first [ apply grows_refl
                   | apply grows_put
                   | apply grows_patch; [intros; first [apply same_retitle | apply same_touch]|] ]
     | lia]).
Qed.

End DocumentFacts.

Section ClientClaims.
Import JS Client.
Context {engine : Engine}.

(** A non-blank text submitted while nothing is in flight is written as
    soon as the store admits the write, whatever happens afterwards. *)
Lemma user_message_written R uid w c st db :
  trim (input st) <> [] -> loading st = false ->
  R uid CreateMessage c db = true ->
  let sent := mkMessage user (JStr (trim (input st))) (now w) in
  let '(db', _, evs) := handleSubmit R uid w c st db in
  (exists rest, evs = Wrote c sent :: rest) /\ In (c, sent) (message_docs db').
Proof.
  intros Ht Hl HR.
  assert (Htr : str_truthy (trim (input st)) = true).
  { destruct (trim (input st)); [contradiction | reflexivity]. }
  unfold handleSubmit. rewrite Htr, Hl. simpl negb; simpl orb; cbv iota.
  unfold addDoc at 1. rewrite HR.
  submit_cases; (split; [eexists; reflexivity |]);
    unfold put_message, patch; simpl; repeat (rewrite in_app_iff; simpl); auto.
Qed.

Lemma in_patch c set db d :
  In d (conversations (patch c set db)) -> id d = c ->
  (forall x, id (set x) = id x) ->
  exists d0, In d0 (conversations db) /\ d = set d0.
Proof.
  unfold patch; simpl. intros Hin Hid Hset.
  apply in_map_iff in Hin. destruct Hin as [d0 [Hd Hin]].
  exists d0. split; [exact Hin|].
  destruct (eqb (id d0) c) eqn:E; [congruence|].
  subst d. apply eqb_neq in E. contradiction.
Qed.

(** The stores a submission passes through before its reply. *)
Lemma during_sent c m db : Terms.grows_in c 1 db (put_message c m db).
Proof. apply grows_put, grows_refl. Qed.

Lemma during_patch c set db1 db :
  (forall d, Terms.same_conversation d (set d)) ->
  Terms.grows_in c 1 db db1 -> Terms.grows_in c 1 db (patch c set db1).
Proof. intros Hs Hg. now apply grows_patch. Qed.

Ltac during :=
  repeat first
    [ apply during_sent
    | apply during_patch; [intros; first [apply same_retitle | apply same_touch]|] ].

(** The title after a first message that the store accepts. *)
Lemma title_set_on_first R uid w c st db :
  messages st = [] -> trim (input st) <> [] -> loading st = false ->
  R uid CreateMessage c db = true ->
  R uid UpdateConversation c
    (put_message c (mkMessage user (JStr (trim (input st))) (now w)) db) = true ->
  has_conversation c db = true ->
  let '(db', _, evs) := handleSubmit R uid w c st db in
  In (SetTitle c (title_of (trim (input st)))) evs
  /\ forall d, In d (conversations db') -> id d = c ->
               title d = title_of (trim (input st)).
Proof.
  intros Hm Ht Hl HR HU Hc.
  assert (Htr : str_truthy (trim (input st)) = true).
  { destruct (trim (input st)); [contradiction | reflexivity]. }
  unfold handleSubmit, updateConversationTitle.
  rewrite Htr, Hl, Hm. simpl negb; simpl orb; cbv iota. simpl Nat.eqb. cbv iota.
  unfold addDoc at 1. rewrite HR.
  unfold updateDoc at 1. rewrite HU, has_conversation_put, Hc.
  set (db1 := put_message c _ db).
  set (db2 := patch c (retitle _ _) db1).
  assert (Hall : forall dbx,
             conversations dbx = conversations db2
             \/ conversations dbx = conversations (patch c (touch (now w)) db2) ->
             forall d, In d (conversations dbx) -> id d = c ->
                       title d = title_of (trim (input st))).
  { intros dbx [E|E] d Hin Hid; rewrite E in Hin.
    - apply in_patch in Hin; [|exact Hid | reflexivity].
      destruct Hin as [d1 [Hin ->]]. reflexivity.
    - apply in_patch in Hin; [|exact Hid | reflexivity].
      destruct Hin as [d1 [Hin ->]]. simpl in Hid.
      apply in_patch in Hin; [|exact Hid | reflexivity].
      destruct Hin as [d2 [Hin ->]]. reflexivity. }
  unfold on_error, updateDoc, addDoc.
  repeat match goal with
    | |- context [match sendMessageToN8n ?w ?m ?c with _ => _ end] =>
        let E := fresh "Erelay" in
        destruct (sendMessageToN8n w m c) as [? [?|]] eqn:E; simpl
    | |- context [if ?b then _ else _] =>
        let E := fresh "E" in destruct b eqn:E; simpl
    end;
    (split;
     [repeat (rewrite in_app_iff; simpl); auto 10
     | first [ exact (Hall db2 (or_introl eq_refl))
             | exact (Hall (patch c (touch (now w)) db2) (or_intror eq_refl)) ]]).
Qed.

Lemma updateDoc_cases R uid c set db :
  updateDoc R uid c set db = Resolved (patch c set db)
  \/ exists e, updateDoc R uid c set db = Rejected e.
Proof.
  unfold updateDoc. destruct (R uid UpdateConversation c db); [|eauto].
  destruct (has_conversation c db); eauto.
Qed.

Lemma updateDoc_during R uid c set db db1 :
  Terms.admitted_during R uid UpdateConversation c db ->
  Terms.grows_in c 1 db db1 -> has_conversation c db1 = true ->
  updateDoc R uid c set db1 = Resolved (patch c set db1).
Proof.
  intros HU Hg Hc. unfold updateDoc. now rewrite (HU db1 Hg), Hc.
Qed.

(** The store after the user message and the attempt at a title. *)
Lemma after_title R uid w c st db1 :
  let '(db2, _) :=
    if (List.length (messages st) =? 0)%nat
    then updateConversationTitle R uid w c (trim (input st)) db1
    else (db1, []) in
  db2 = db1
  \/ db2 = patch c (retitle (title_of (trim (input st))) (now w)) db1.
Proof.
  destruct (List.length (messages st) =? 0)%nat; [|now left].
  unfold updateConversationTitle.
  destruct (updateDoc_cases R uid c
              (retitle (title_of (trim (input st))) (now w)) db1)
    as [E|[e E]]; rewrite E; auto.
Qed.

(** When the relay fails the fallback is what the store receives as the
    reply, as soon as the rules admit the two messages. *)
Lemma fallback_stored R uid w c st db :
  Spec.relay_fails w = true ->
  trim (input st) <> [] -> loading st = false ->
  Terms.admitted_during R uid CreateMessage c db ->
  let '(db', _, _) := handleSubmit R uid w c st db in
  exists t,
    messages_of c db'
    = messages_of c db
        ++ [mkMessage user (JStr (trim (input st))) (now w);
            mkMessage assistant (JStr fallback_text) t]
    /\ (t = now w \/ t = now w + elapsed w)
    /\ (Terms.admitted_during R uid UpdateConversation c db ->
        has_conversation c db = true -> t = now w + elapsed w).
Proof.
  intros Hf Ht Hl HR.
  assert (Htr : str_truthy (trim (input st)) = true).
  { destruct (trim (input st)); [contradiction | reflexivity]. }
  apply (sendMessageToN8n_fails w (trim (input st)) c) in Hf.
  unfold handleSubmit. rewrite Htr, Hl. simpl negb; simpl orb; cbv iota zeta.
  unfold addDoc at 1.
  rewrite (HR db) by (eapply grows_le; [apply grows_refl | lia]).
  set (sent := mkMessage user (JStr (trim (input st))) (now w)).
  set (db1 := put_message c sent db).
  set (finally := mkChatArea [] false (messages st)).
  assert (Herr : forall dbx t evs,
             Terms.grows_in c 1 db dbx ->
             messages_of c dbx = messages_of c db ++ [sent] ->
             let '(db', _, _) := on_error R uid c t finally dbx evs in
             messages_of c db'
             = messages_of c db
                 ++ [sent; mkMessage assistant (JStr fallback_text) t]).
  { intros dbx t evs Hg Hmsg. unfold on_error, addDoc. rewrite (HR dbx Hg).
    rewrite messages_of_put, Hmsg, <- app_assoc. reflexivity. }
  pose proof (after_title R uid w c st db1) as H2.
  destruct (if (List.length (messages st) =? 0)%nat
            then updateConversationTitle R uid w c (trim (input st)) db1
            else (db1, [])) as [db2 ev2].
  assert (Hg2 : Terms.grows_in c 1 db db2).
  { destruct H2 as [->| ->]; subst db1; during. }
  assert (Hm2 : messages_of c db2 = messages_of c db ++ [sent]).
  { destruct H2 as [->| ->]; subst db1; rewrite ?messages_of_patch;
      apply messages_of_put. }
  destruct (updateDoc_cases R uid c (touch (now w)) db2) as [E|[e E]];
    rewrite E.
  - destruct (sendMessageToN8n w (trim (input st)) c) as [ev3 answer].
    simpl in Hf. subst answer.
    assert (Hg3 : Terms.grows_in c 1 db (patch c (touch (now w)) db2))
      by (apply during_patch; [intros; apply same_touch | exact Hg2]).
    pose proof (Herr (patch c (touch (now w)) db2) (now w + elapsed w)
                  ([Wrote c sent] ++ ev2 ++ [Touched c] ++ ev3) Hg3
                  (eq_trans (messages_of_patch _ _ _ _) Hm2)) as H.
    destruct (on_error _ _ _ _ _ _ _) as [[db' st'] evs].
    exists (now w + elapsed w). split; [exact H|]. split; auto.
  - pose proof (Herr db2 (now w) ([Wrote c sent] ++ ev2) Hg2 Hm2) as H.
    destruct (on_error _ _ _ _ _ _ _) as [[db' st'] evs].
    exists (now w). split; [exact H|]. split; [auto|].
    intros HU Hc. exfalso.
    rewrite (updateDoc_during R uid c _ db db2 HU Hg2) in E; [discriminate|].
    destruct H2 as [->| ->]; subst db1;
      rewrite ?has_conversation_patch, has_conversation_put;
      auto.
Qed.

(** Rules that look at the owner of the conversation only admit, all the
    way through a submission, what they admit at its start. *)
Lemma owner_rules_during uid a c db :
  Sample.owner_rules uid a c db = true ->
  Terms.admitted_during Sample.owner_rules uid a c db.
Proof.
  unfold Sample.owner_rules. intros H db1 [_ Hc].
  apply existsb_exists in H. destruct H as [d [Hin Hd]].
  apply existsb_exists.
  induction Hc as [|d0 d1 l l1 [(Hi & Hu & _) _] _ IH]; [destruct Hin|].
  destruct Hin as [->|Hin].
  - exists d1. split; [now left|]. now rewrite Hi, Hu.
  - destruct (IH Hin) as [x [Hx Hxd]]. exists x. split; [now right|exact Hxd].
Qed.

End ClientClaims.

(* ===================================================================== *)
(** * The claims *)
(* ===================================================================== *)

Import JS.

(** C1. In both variants the user message is stored before the webhook is
    called: in the effects of a send, whatever precedes a call contains the
    write of the user message, and that message is in the store at the end,
    whether the call succeeds or fails. A send of non-empty text that the
    store accepts (a session of the caller, a write the rules admit) does
    store the user message, for every outcome of the webhook. *)
Theorem user_message_persisted_before_webhook :
  (forall `{Engine} R uid w c st db,
     let sent :=
       Client.mkMessage Client.user (JStr (trim (Client.input st))) (Client.now w) in
     let '(db', _, evs) := Client.handleSubmit R uid w c st db in
     (forall pre e post,
         evs = pre ++ e :: post -> Spec.is_call e = true ->
         In (Client.Wrote c sent) pre /\ In (c, sent) (Client.message_docs db'))
     /\ (trim (Client.input st) <> [] -> Client.loading st = false ->
         R uid Client.CreateMessage c db = true ->
         In (Client.Wrote c sent) evs /\ In (c, sent) (Client.message_docs db')))
  /\
  (forall `{Engine} `{Server.Libraries} cfg w u sid msg db,
     let '(db', evs, r) := Server.sendMessage cfg w u sid msg db in
     (forall pre m uid' s' post,
         evs = pre ++ Server.WebhookCalled m uid' s' :: post ->
         exists row,
           In (Server.Inserted row) pre
           /\ Server.m_message_type row = Server.user
           /\ Server.m_message_text row = m
           /\ msg = Some m
           /\ In row (Server.messages db'))
     /\ (forall s m,
         Server.given_id sid = Some s -> Server.given msg = Some m ->
         existsb (Server.owns_active (Server.u_id u) s) (Server.chat_sessions db) = true ->
         exists row wr rt,
           r = Server.MessageSent row wr rt
           /\ In (Server.Inserted row) evs
           /\ Server.m_message_type row = Server.user
           /\ Server.m_message_text row = m
           /\ In row (Server.messages db'))).
Proof.
  split.
  - intros E R uid w c st db sent.
    pose proof (written_before_any_call R uid w c st db) as Hshape.
    pose proof (user_message_written R uid w c st db) as Hlive.
    cbv zeta in Hshape, Hlive. fold sent in Hshape, Hlive.
    destruct (Client.handleSubmit R uid w c st db) as [[db' st'] evs].
    split.
    + intros pre e post Hevs Hcall.
      destruct Hshape as [Hnone | [[rest Hrest] Hin]].
      * rewrite Forall_forall in Hnone.
        assert (Hc : Spec.is_call e = false).
        { apply Hnone. rewrite Hevs. apply in_or_app. right. now left. }
        congruence.
      * split; [|exact Hin].
        destruct pre as [|x pre]; simpl in Hevs; rewrite Hrest in Hevs;
          inversion Hevs; subst.
        -- discriminate Hcall.
        -- now left.
    + intros Ht Hl HR. destruct (Hlive Ht Hl HR) as [[rest ->] Hin].
      split; [now left | exact Hin].
  - intros E L cfg w u sid msg db.
    pose proof (sendMessage_shape cfg w u sid msg db) as Hshape.
    destruct (Server.sendMessage cfg w u sid msg db) as [[db' evs] r].
    destruct Hshape
      as [(-> & _ & _ & Hno)
         | (s & m & rest & bots & Hs & Hm & -> & Hrest & Hmsgs & _ & wr & rt & ->)].
    + split.
      * intros [|? ?] ? ? ? ? Hevs; discriminate Hevs.
      * intros s m Hs Hm Ho. rewrite (Hno s m Hs Hm) in Ho. discriminate.
    + assert (Hrow : In (Server.mkMessage (Server.messages_id_seq db) s
                           (Server.u_id u) m Server.user None (Server.now w) None)
                        (Server.messages db')).
      { rewrite Hmsgs. apply in_or_app. right. now left. }
      split.
      * intros pre m' uid' s' post Hevs.
        destruct pre as [|x [|y pre]]; try discriminate Hevs.
        inversion Hevs as [[Hx Hy Hz]]. subst x y.
        assert (Hin : In (Server.WebhookCalled m' uid' s') rest)
          by (rewrite Hz; apply in_or_app; right; now left).
        assert (Hmm : m' = m).
        { destruct Hrest as [-> | [tl [-> Htl]]]; [destruct Hin|].
          destruct Hin as [Hh|Hin]; [now inversion Hh | destruct (Htl _ _ _ Hin)]. }
        subst m'. eexists.
        split; [now left|].
        split; [reflexivity|]. split; [reflexivity|].
        split; [now apply given_Some in Hm | exact Hrow].
      * intros s0 m0 Hs0 Hm0 _.
        assert (s0 = s) by congruence. assert (m0 = m) by congruence. subst.
        eexists _, wr, rt. split; [reflexivity|].
        split; [now left|]. split; [reflexivity|]. split; [reflexivity | exact Hrow].
Qed.

(** On the sample data: a submission whose relay fails, and a post whose
    webhook times out, both keep the user message. *)
Lemma user_message_persisted_before_webhook_witness :
  (let sent := Client.mkMessage Client.user (JStr (lit "hello")) 1000 in
   let '(db', _, evs) :=
     Client.handleSubmit (engine := Fragment.engine) Sample.open_rules
       Sample.alice Sample.world_down Sample.c1 (Sample.typing (lit " hello "))
       Sample.store in
   In (Client.Wrote Sample.c1 sent) evs
   /\ In (Sample.c1, sent) (Client.message_docs db'))
  /\
  (let '(db', evs, r) :=
     Server.sendMessage (engine := Fragment.engine)
       (libraries := Fragment.libraries) Sample.cfg
       (Sample.at_time 1000 Server.Timeout) Sample.u_alice (Some 1)
       (Some (lit "hello")) Sample.db in
   exists row wr rt,
     r = Server.MessageSent row wr rt
     /\ In (Server.Inserted row) evs
     /\ Server.m_message_type row = Server.user
     /\ Server.m_message_text row = lit "hello"
     /\ In row (Server.messages db')).
Proof.
  split.
  - pose proof (proj1 user_message_persisted_before_webhook Fragment.engine
                  Sample.open_rules Sample.alice Sample.world_down Sample.c1
                  (Sample.typing (lit " hello ")) Sample.store) as W.
    vm_compute in W. vm_compute. apply (proj2 W).
    + discriminate.
    + reflexivity.
    + reflexivity.
  - pose proof (proj2 user_message_persisted_before_webhook Fragment.engine
                  Fragment.libraries Sample.cfg
                  (Sample.at_time 1000 Server.Timeout) Sample.u_alice (Some 1)
                  (Some (lit "hello")) Sample.db) as W.
    vm_compute in W. vm_compute. apply (proj2 W 1 (lit "hello")); reflexivity.
Defined.

(** C2 (amended). In the document-store variant, when the relay fails
    (route out of reach or not configured, webhook request failed, or an
    answer that is not a 2xx) every assistant message the send writes has
    the fixed fallback text, and when the rules admit the user message and
    the reply the conversation gains exactly the user message and that
    fallback reply, stamped with the time of the failure. The session-based
    server stores no bot message when the call is rejected (no answer,
    timeout, or a status of 500 and above) or when the body of the answer
    is [null], and hands the error object back in [webhookResponse]; an
    answer below 500, a 4xx included, is handled as the same answer with
    status 200 is, and when its body is a string that PostgreSQL accepts
    that string is stored as the bot message. *)
Theorem fallback_reply_on_relay_failure :
  (forall `{Engine} R uid w c st db,
     Spec.relay_fails w = true ->
     let '(db', _, evs) := Client.handleSubmit R uid w c st db in
     (forall c' m,
         In (Client.Wrote c' m) evs -> Client.role m = Client.assistant ->
         Client.content m = JStr Client.fallback_text)
     /\ (trim (Client.input st) <> [] -> Client.loading st = false ->
         Terms.admitted_during R uid Client.CreateMessage c db ->
         exists t,
           Client.messages_of c db'
           = Client.messages_of c db
               ++ [Client.mkMessage Client.user (JStr (trim (Client.input st)))
                     (Client.now w);
                   Client.mkMessage Client.assistant (JStr Client.fallback_text) t]
           /\ (t = Client.now w \/ t = Client.now w + Client.elapsed w)
           /\ (Terms.admitted_during R uid Client.UpdateConversation c db ->
               Client.has_conversation c db = true ->
               t = Client.now w + Client.elapsed w)))
  /\
  (forall `{Engine} `{Server.Libraries} cfg w u sid msg s m db,
     Server.given_id sid = Some s -> Server.given msg = Some m ->
     existsb (Server.owns_active (Server.u_id u) s) (Server.chat_sessions db) = true ->
     Server.webhook_enabled cfg && str_truthy (Server.webhook_url cfg) = true ->
     let userMessage :=
       Server.mkMessage (Server.messages_id_seq db) s (Server.u_id u) m
         Server.user None (Server.now w) None in
     let '(db', evs, r) := Server.sendMessage cfg w u sid msg db in
     let no_reply :=
       Server.messages db' = Server.messages db ++ [userMessage]
       /\ r = Server.MessageSent userMessage (Some Server.webhook_failed)
                (Some (Server.elapsed w)) in
     (Spec.webhook_rejects w = true -> no_reply)
     /\ (forall status, Server.webhook w = Server.Replied status JNull -> no_reply)
     /\ (forall status data,
           Server.webhook w = Server.Replied status data -> status < 500 ->
           Server.sendMessage cfg (Spec.answered (Server.Replied 200 data) w)
             u sid msg db
           = (db', evs, r))
     /\ (forall status text,
           Server.webhook w = Server.Replied status (JStr text) -> status < 500 ->
           Spec.bot_message_accepted w db text ->
           Server.messages db'
           = Server.messages db
               ++ [userMessage;
                   Server.mkMessage (Server.messages_id_seq db + 1) s
                     (Server.u_id u) text Server.bot
                     (Some (JSON_stringify (JStr text)))
                     (Server.now w + Server.elapsed w) (Some (Server.elapsed w))])).
Proof.
  split.
  - intros E R uid w c st db Hf.
    pose proof (fallback_when_relay_fails R uid w c st db) as Hsafe.
    pose proof (fallback_stored R uid w c st db Hf) as Hlive.
    destruct (Client.handleSubmit R uid w c st db) as [[db' st'] evs].
    split; [intros c' m; apply Hsafe; exact Hf | exact Hlive].
  - intros E L cfg w u sid msg s m db Hs Hm Ho Hon userMessage.
    rewrite (sendMessage_accepted cfg w u sid msg s m db Hs Hm Ho), Hon.
    unfold Server.insert_message. cbv beta iota zeta.
    match goal with |- context [Server.callWebhook w u s m ?d] =>
      set (db1 := d);
      destruct (Server.callWebhook w u s m db1) as [[[db2 ev2] wr] rt] eqn:Hcall
    end.
    split; [|split; [|split]].
    + intros Hrej. rewrite (callWebhook_rejects _ _ _ _ _ Hrej) in Hcall.
      inversion Hcall; subst; clear Hcall.
      rewrite messages_logUserActivity. simpl. split; reflexivity.
    + intros status Hw. unfold Server.callWebhook in Hcall.
      rewrite Hw in Hcall.
      assert (Hc : (db1, [Server.WebhookCalled m (Server.u_id u) s;
                          Server.Logged "Webhook error:"],
                    Some Server.webhook_failed, Some (Server.elapsed w))
                   = (db2, ev2, wr, rt))
        by (destruct (Server.validateStatus status); exact Hcall).
      inversion Hc; subst; clear Hc Hcall.
      rewrite messages_logUserActivity. simpl. split; reflexivity.
    + intros status data Hw Hst.
      rewrite (sendMessage_accepted cfg _ u sid msg s m db Hs Hm Ho), Hon.
      unfold Server.insert_message. cbv beta iota zeta.
      change (Server.now (Spec.answered (Server.Replied 200 data) w))
        with (Server.now w).
      fold db1.
      assert (Hc : Server.callWebhook (Spec.answered (Server.Replied 200 data) w)
                     u s m db1
                   = Server.callWebhook w u s m db1).
      { unfold Server.callWebhook. rewrite Hw. simpl.
        apply Z.ltb_lt in Hst. unfold Server.validateStatus. now rewrite Hst. }
      rewrite Hc, Hcall. reflexivity.
    + intros status text Hw Hst _. unfold Server.callWebhook in Hcall.
      apply Z.ltb_lt in Hst. unfold Server.validateStatus in Hcall.
      rewrite Hw, Hst in Hcall. simpl in Hcall.
      inversion Hcall; subst; clear Hcall.
      rewrite messages_logUserActivity. simpl.
      rewrite <- app_assoc. reflexivity.
Qed.

(** On the sample data: a webhook that answers 404 to the route, under
    rules that admit the owner of a conversation only, and one that answers
    503 to the server. *)
Lemma fallback_reply_on_relay_failure_witness :
  (let '(db', _, _) :=
     Client.handleSubmit (engine := Fragment.engine) Sample.owner_rules
       Sample.alice Sample.world_404 Sample.c1 (Sample.typing (lit " hello "))
       Sample.store in
   Client.messages_of Sample.c1 db'
   = [Client.mkMessage Client.user (JStr Sample.hello) 1000;
      Client.mkMessage Client.assistant (JStr Client.fallback_text) 1250])
  /\
  (let '(db', _, r) :=
     Sample.send Sample.cfg 1000 (Server.Replied 503 JNull) Sample.hello
       Sample.db in
   Server.messages db'
   = [Server.mkMessage 1 1 1 Sample.hello Server.user None 1000 None]
   /\ r = Server.MessageSent (Server.mkMessage 1 1 1 Sample.hello Server.user None 1000 None)
            (Some Server.webhook_failed) (Some 250)).
Proof.
  split.
  - pose proof (proj1 fallback_reply_on_relay_failure Fragment.engine
                  Sample.owner_rules Sample.alice Sample.world_404 Sample.c1
                  (Sample.typing (lit " hello ")) Sample.store eq_refl) as W.
    destruct (Client.handleSubmit _ _ _ _ _ _) as [[db' st'] evs].
    destruct W as [_ W].
    destruct W as (t & Hm & _ & Ht).
    + vm_compute. discriminate.
    + reflexivity.
    + now apply owner_rules_during.
    + rewrite Hm, Ht; [reflexivity | now apply owner_rules_during | reflexivity].
  - pose proof (proj2 fallback_reply_on_relay_failure Fragment.engine
                  Fragment.libraries Sample.cfg
                  (Sample.at_time 1000 (Server.Replied 503 JNull)) Sample.u_alice
                  (Some 1) (Some Sample.hello) 1 Sample.hello Sample.db
                  eq_refl eq_refl eq_refl eq_refl) as W.
    unfold Sample.send.
    destruct (Server.sendMessage _ _ _ _ _ _) as [[db' evs] r].
    cbv zeta in W. destruct W as [W _]. exact (W eq_refl).
Defined.

(** On the sample data the server stores no bot message when the webhook
    times out, and stores the body of a 404 answer as the bot message. *)
Lemma server_timeout_stores_no_reply :
  (Spec.webhook_rejects (Sample.at_time 1000 Server.Timeout) = true
   /\ let '(db', _, r) := Sample.send Sample.cfg 1000 Server.Timeout Sample.hello Sample.db in
      map Server.m_message_text (Server.messages db') = [Sample.hello]
      /\ filter Spec.is_bot (Server.messages db') = [])
  /\
  (let '(db', _, r) :=
     Sample.send Sample.cfg 1000 (Server.Replied 404 (JStr (lit "Not Found")))
       Sample.hello Sample.db in
   map Server.m_message_text (filter Spec.is_bot (Server.messages db'))
   = [lit "Not Found"]
   /\ eqb (lit "Not Found") Client.fallback_text = false).
Proof. vm_compute. repeat split. Qed.

(** C3 (amended). The chat API route extracts ["hi"] from the object
    [{"output": "hi"}], a bare JSON string as it is, and a body that is not
    JSON verbatim; for every other parsed value but [null] it takes the
    first truthy field among [responseBody], [redacted], [message],
    [output], [text], in that order, and falls back to the serialisation of
    the whole value ([null] itself yields the raw body). The session-based
    server keeps a string as it is too, but probes [text] then [response]
    and falls back to the indented serialisation: there [{"output": "hi"}]
    is stored as that serialisation. *)
Theorem assistant_text_extraction :
  forall engine : Engine,
    (forall raw,
        JSON_parse raw = Some (JObj [(lit "output", JStr (lit "hi"))]) ->
        Client.responseText raw = JStr (lit "hi"))
    /\ (forall raw s,
        JSON_parse raw = Some (JStr s) -> Client.responseText raw = JStr s)
    /\ (forall raw,
        JSON_parse raw = None -> Client.responseText raw = JStr raw)
    /\ (forall raw,
        JSON_parse raw = Some JNull -> Client.responseText raw = JStr raw)
    /\ (forall raw data,
        JSON_parse raw = Some data -> is_string data = false -> data <> JNull ->
        Client.responseText raw
        = Spec.extracted Spec.route_fields JSON_stringify data)
    /\ (forall s, Server.botMessageText (JStr s) = Some (JStr s))
    /\ (forall data,
        is_string data = false -> data <> JNull ->
        Server.botMessageText data
        = Some (Spec.extracted Spec.server_fields JSON_stringify_pretty data))
    /\ Server.botMessageText (JObj [(lit "output", JStr (lit "hi"))])
       = Some (JStr (JSON_stringify_pretty (JObj [(lit "output", JStr (lit "hi"))]))).
Proof.
  intros E. repeat split.
  - intros raw Hp.
    rewrite (responseText_probe raw _ Hp); [reflexivity | reflexivity | discriminate].
  - intros raw s. apply responseText_string.
  - intros raw. apply responseText_not_json.
  - intros raw. apply responseText_null.
  - intros raw data. apply responseText_probe.
  - intros data Hs Hn. now apply server_chain_first_match.
Qed.

(** The route and the server on concrete bodies, read by the fragment
    engine. *)
Lemma assistant_text_extraction_witness :
  Client.responseText (engine := Fragment.engine) Sample.output_hi = JStr (lit "hi")
  /\ Client.responseText (engine := Fragment.engine) Sample.quoted_hi = JStr (lit "hi")
  /\ Client.responseText (engine := Fragment.engine) (lit "plain text")
     = JStr (lit "plain text")
  /\ Client.responseText (engine := Fragment.engine) (lit "[1, 2]")
     = JStr (lit "[1,2]")
  /\ Server.botMessageText (engine := Fragment.engine)
       (JObj [(lit "response", JStr (lit "hi"))])
     = Some (JStr (lit "hi")).
Proof.
  pose proof (assistant_text_extraction Fragment.engine)
    as (Hobj & Hstr & Hraw & _ & Hany & _ & Hsrv & _).
  split; [apply Hobj; reflexivity|].
  split; [apply Hstr; reflexivity|].
  split; [apply Hraw; reflexivity|].
  split.
  - rewrite (Hany (lit "[1, 2]") (JArr [JNum 1; JNum 2]));
      [reflexivity | reflexivity | reflexivity | discriminate].
  - rewrite Hsrv; [reflexivity | reflexivity | discriminate].
Defined.

(** What the server stores when the webhook answers [{"output": "hi"}]. *)
Lemma server_output_hi_not_extracted :
  (let '(db', _, _) :=
     Sample.send Sample.cfg 1000 (Server.Replied 200 Sample.hi_object) Sample.hello Sample.db in
   map Server.m_message_text (filter Spec.is_bot (Server.messages db')) = [Sample.pretty_hi])
  /\ eqb Sample.pretty_hi (lit "hi") = false.
Proof. vm_compute. split; reflexivity. Qed.

(** C4 (amended). Whatever the page and the page size, the rows that
    [GET /api/chat/sessions/:sessionId/messages] returns are the session's
    own and in ascending order of creation time, and nothing on a later
    page is newer than anything on an earlier one; the order within a page
    is strict whenever the creation times of the session's messages are
    pairwise distinct (nothing in the store makes them so). *)
Theorem messages_page_ascending :
  forall u sid page limit db rows,
    Server.getMessages u sid page limit db = Server.MessageList rows ->
    Spec.ascending rows
    /\ (NoDup (map Server.m_created_at (Spec.session_messages sid db)) ->
        Spec.strictly_ascending rows)
    /\ (forall m, In m rows ->
                  In m (Server.messages db) /\ Server.m_session_id m = sid)
    /\ (forall p l q older,
          page = Some p -> limit = Some l -> 1 <= p -> p < q ->
          Server.getMessages u sid (Some q) (Some l) db = Server.MessageList older ->
          forall a b, In a older -> In b rows ->
                      Server.m_created_at a <= Server.m_created_at b).
Proof.
  intros u sid page limit db rows Hrows.
  destruct (getMessages_ascending u sid page limit db rows Hrows)
    as (Hasc & Hstrict & Hown).
  repeat split; try assumption; try (apply Hown; assumption).
  intros p l q older -> -> Hp Hq Holder.
  exact (later_pages_are_older u sid p q l db rows older Hp Hq Hrows Holder).
Qed.

(** The first page of a session with two messages a second apart. *)
Lemma messages_page_ascending_witness :
  Spec.ascending [Sample.user_row 1 1000 (lit "first"); Sample.user_row 2 2000 (lit "second")]
  /\ Spec.strictly_ascending
       [Sample.user_row 1 1000 (lit "first"); Sample.user_row 2 2000 (lit "second")].
Proof.
  destruct (messages_page_ascending Sample.u_alice 1 (Some 1) (Some 10) Sample.db_two
              [Sample.user_row 1 1000 (lit "first"); Sample.user_row 2 2000 (lit "second")] eq_refl)
    as (Hasc & Hstrict & _ & _).
  split; [exact Hasc | apply Hstrict].
  vm_compute. repeat constructor; simpl; intuition discriminate.
Defined.

(** Two messages stored at the same clock reading come back on one page,
    which is then not strictly ascending. *)
Lemma equal_timestamps_not_strict :
  map Server.m_created_at (Server.messages Sample.db_tie) = [1000; 1000]
  /\ match Server.getMessages Sample.u_alice 1 None None Sample.db_tie with
     | Server.MessageList rows =>
         List.length rows = 2%nat /\ ~ Spec.strictly_ascending rows
     | _ => False
     end.
Proof.
  split; [reflexivity|]. vm_compute. split; [reflexivity|].
  intros Hs. apply StronglySorted_inv in Hs. destruct Hs as [_ Hs].
  apply Forall_inv in Hs. vm_compute in Hs. discriminate Hs.
Qed.





(** C6 (amended). A blank text (empty, or white space only) never leaves
    either client: [handleSubmit] returns with the store untouched and no
    effect, and the form of the session-based client posts nothing. The
    server endpoint itself refuses a missing or empty message with 400
    before it reads or writes anything; a message of white space only
    passes that test. *)
Theorem blank_text_rejected :
  (forall `{Engine} R uid w c st db,
     Spec.blank (Client.input st) ->
     Client.handleSubmit R uid w c st db = (db, st, []))
  /\ (forall newMessage currentSession,
     Spec.blank newMessage -> App.sendMessage newMessage currentSession = None)
  /\ (forall `{Engine} `{Server.Libraries} cfg w u sid msg db,
     msg = None \/ msg = Some [] ->
     Server.sendMessage cfg w u sid msg db
     = (db, [], Server.Error 400 "Session ID and message are required")).
Proof.
  split; [|split].
  - intros E R uid w c st db. apply handleSubmit_blank.
  - intros newMessage currentSession Hb. apply trim_nil_iff in Hb.
    unfold App.sendMessage. now rewrite Hb.
  - intros E L cfg w u sid msg db Hm. apply sendMessage_empty.
    now apply given_None.
Qed.

(** Three spaces typed into either client, and an empty message posted to
    the server. *)
Lemma blank_text_rejected_witness :
  Client.handleSubmit (engine := Fragment.engine) Sample.open_rules Sample.alice
    Sample.world_hi Sample.c1 (Sample.typing (lit "   ")) Sample.store
  = (Sample.store, Sample.typing (lit "   "), [])
  /\ App.sendMessage (lit "   ") (Some 1) = None
  /\ Sample.send Sample.cfg 1000 Server.Timeout [] Sample.db
     = (Sample.db, [], Server.Error 400 "Session ID and message are required").
Proof.
  destruct blank_text_rejected as (Hcli & Happ & Hsrv).
  assert (Hb : Spec.blank (lit "   ")) by (repeat constructor).
  split; [|split].
  - apply Hcli. exact Hb.
  - apply Happ. exact Hb.
  - apply Hsrv. now right.
Defined.

(** A message of one space posted to the server is stored. *)
Lemma server_stores_whitespace_message :
  Spec.blank (lit " ")
  /\ let '(db', _, r) := Sample.send Sample.quiet 1000 Server.Timeout (lit " ") Sample.db in
     Server.messages db' = [Sample.user_row 1 1000 (lit " ")]
     /\ r = Server.MessageSent (Sample.user_row 1 1000 (lit " ")) None None.
Proof. split; [repeat constructor | vm_compute; split; reflexivity]. Qed.

(** C7. [updateConversationTitle] derives the title the claim describes,
    but [handleSubmit] decides on the list of messages the component
    holds, not on the conversation. Alice's conversation holds "hello" and
    "hi" under the title "hello". The chat is mounted on it and, before
    the listener has delivered, "second thoughts" is submitted: the title
    becomes "second thoughts". With the snapshot delivered first the title
    stays. And a first message sent into a new conversation while the
    component still holds the list of the former one sets no title. *)
Theorem later_message_sets_the_title :
  let typed := Client.handleTextareaChange (lit "second thoughts") Client.mounted in
  map Client.content (Client.messages_of Sample.c1 Sample.store_after_hello)
  = [JStr Sample.hello; JStr (lit "hi")]
  /\ map Client.title (Client.conversations Sample.store_after_hello)
     = [Sample.hello]
  /\ (let '(db', _, evs) :=
        Client.handleSubmit (engine := Fragment.engine) Sample.open_rules
          Sample.alice Sample.world_hi Sample.c1 typed Sample.store_after_hello in
      In (Client.SetTitle Sample.c1 (lit "second thoughts")) evs
      /\ map Client.title (Client.conversations db') = [lit "second thoughts"])
  /\ (let '(db', _, evs) :=
        Client.handleSubmit (engine := Fragment.engine) Sample.open_rules
          Sample.alice Sample.world_hi Sample.c1
          (Client.onSnapshot
             (Client.messages_of Sample.c1 Sample.store_after_hello) typed)
          Sample.store_after_hello in
      map Client.title (Client.conversations db') = [Sample.hello])
  /\ (let '(db1, page, _) :=
        ChatPage.createNewConversation (fun _ _ => true) (Some Sample.alice)
          (Client.mkWorld 2000 0 true [] Client.NetworkError) (lit "conv-2")
          (ChatPage.mkPage (Some Sample.c1) false) Sample.store_after_hello in
      let held :=
        Client.onSnapshot
          (Client.messages_of Sample.c1 Sample.store_after_hello)
          Client.mounted in
      let '(db', _, evs) :=
        Client.handleSubmit (engine := Fragment.engine) Sample.open_rules
          Sample.alice Sample.world_hi (lit "conv-2")
          (Client.handleTextareaChange (lit "fresh start") held) db1 in
      ChatPage.selectedConversation page = Some (lit "conv-2")
      /\ Client.messages_of (lit "conv-2") db1 = []
      /\ map Client.content (Client.messages_of (lit "conv-2") db')
         = [JStr (lit "fresh start"); JStr (lit "hi")]
      /\ map Client.title (Client.conversations db')
         = [Sample.hello; lit "New Chat"]).
Proof. vm_compute. repeat split; auto. Qed.

(** A field that is missing or empty is refused before the account is
    looked up, whatever the account. *)
Lemma login_requires_both_fields `{Server.Libraries} cfg w email password db :
  Server.given email = None \/ Server.given password = None ->
  Server.login cfg w email password db
  = (db, Server.Error 400 "Email and password are required").
Proof.
  unfold Server.login. intros [-> | ->]; [reflexivity|].
  now destruct (Server.given email).
Qed.

(** C8. When email verification is required, a login that carries the
    email of an active, unverified account and a password is answered 403
    with the code EMAIL_NOT_VERIFIED, which the answer to bad credentials
    (401, no code) does not carry; the answer holds no token and the store
    is left as it was. *)
Theorem login_unverified_fails_with_code :
  forall (libraries : Server.Libraries) cfg w u email password db,
    Server.auth_requireEmailVerification cfg = true ->
    Spec.unverified_account u email db ->
    email <> [] -> password <> [] ->
    let '(db', r) := Server.login cfg w (Some email) (Some password) db in
    db' = db
    /\ r = Server.EmailNotVerified email
    /\ Server.status_of r = 403
    /\ Server.code_of r = Some "EMAIL_NOT_VERIFIED"%string
    /\ Server.code_of r <> Server.code_of (Server.Error 401 "Invalid credentials")
    /\ Server.token_of r = None.
Proof.
  intros L cfg w u email password db Hreq Hu He Hp.
  rewrite (login_unverified cfg w u email password db Hreq Hu He Hp).
  repeat split. discriminate.
Qed.

(** Alice's account in the sample data. *)
Lemma alice_unverified :
  Spec.unverified_account Sample.u_alice (lit "alice@example.com") Sample.db.
Proof.
  repeat split; try reflexivity; [now left|].
  intros v [<-|[<-|[]]]; [reflexivity|]. intros Hm. discriminate Hm.
Qed.

(** Alice, whose account is not verified, logs in with her password. *)
Lemma login_unverified_fails_with_code_witness :
  Server.login (libraries := Fragment.libraries) Sample.cfg
    (Sample.at_time 1000 Server.Timeout) (Some (lit "alice@example.com"))
    (Some (lit "correct horse")) Sample.db
  = (Sample.db, Server.EmailNotVerified (lit "alice@example.com")).
Proof.
  pose proof (login_unverified_fails_with_code Fragment.libraries Sample.cfg
                (Sample.at_time 1000 Server.Timeout) Sample.u_alice
                (lit "alice@example.com") (lit "correct horse") Sample.db
                eq_refl alice_unverified) as W.
  destruct (Server.login _ _ _ _ _) as [db' r].
  destruct W as (-> & -> & _); [discriminate | discriminate | reflexivity].
Defined.

(** C9. When email verification is required, the answer to a login for an
    active, unverified account is the same EMAIL_NOT_VERIFIED failure for
    any two passwords, and whatever the hash comparison would say of them:
    the comparison is not reached. *)
Theorem login_unverified_ignores_password :
  forall (compare1 compare2 : Server.Libraries) cfg w u email password1 password2 db,
    Server.auth_requireEmailVerification cfg = true ->
    Spec.unverified_account u email db ->
    email <> [] -> password1 <> [] -> password2 <> [] ->
    Server.login (libraries := compare1) cfg w (Some email) (Some password1) db
    = Server.login (libraries := compare2) cfg w (Some email) (Some password2) db
    /\ Server.login (libraries := compare1) cfg w (Some email) (Some password1) db
       = (db, Server.EmailNotVerified email).
Proof.
  intros L1 L2 cfg w u email p1 p2 db Hreq Hu He Hp1 Hp2.
  rewrite (@login_unverified L1 cfg w u email p1 db Hreq Hu He Hp1).
  rewrite (@login_unverified L2 cfg w u email p2 db Hreq Hu He Hp2).
  split; reflexivity.
Qed.

(** Alice logs in with her password and with a wrong one. *)
Lemma login_unverified_ignores_password_witness :
  Server.login (libraries := Fragment.libraries) Sample.cfg
    (Sample.at_time 1000 Server.Timeout) (Some (lit "alice@example.com"))
    (Some (lit "correct horse")) Sample.db
  = Server.login (libraries := Fragment.libraries) Sample.cfg
      (Sample.at_time 1000 Server.Timeout) (Some (lit "alice@example.com"))
      (Some (lit "wrong guess")) Sample.db.
Proof.
  apply (login_unverified_ignores_password Fragment.libraries Fragment.libraries
           Sample.cfg (Sample.at_time 1000 Server.Timeout) Sample.u_alice
           (lit "alice@example.com") (lit "correct horse") (lit "wrong guess")
           Sample.db eq_refl alice_unverified);
    discriminate.
Defined.

(** C10 (amended). The DELETE and the INSERT of a resend are two awaited
    statements that no transaction ties together. A resend whose
    statements, from its DELETE to its answer, reach the database with no
    statement of another request in between (a request that runs alone, in
    particular) leaves the user exactly one unused verification token when
    it succeeds, the one just issued: the handler of [server.js] deletes
    the user's tokens with no [used_at] and the router of [auth.js] those
    with [is_used] false, and each inserts one fresh token that is unused
    by both tests. *)
Theorem resend_leaves_one_unused_token :
  (forall cfg w email db,
     Server.alone (Server.resend_step cfg w) 5 (Server.Received email) db
     = let '(db', r) := Server.resendVerification cfg w email db in
       (db', Server.Answered r))
  /\
  (forall w email db,
     Server.alone (Server.router_resend_step w) 4 (Server.Received email) db
     = let '(db', r) := Server.router_resendVerification w email db in
       (db', Server.Answered r))
  /\
  (forall cfg w u db db' e,
     Server.alone (Server.resend_step cfg w) 4 (Server.Found u) db
     = (db', Server.Answered (Server.VerificationSent e)) ->
     exists fresh,
       Spec.unused_by_used_at (Server.u_id u) db' = [fresh]
       /\ Server.t_token fresh = Server.randomBytes w
       /\ Server.t_id fresh = Server.tokens_id_seq db)
  /\
  (forall w u db db',
     Server.alone (Server.router_resend_step w) 3 (Server.Found u) db
     = (db', Server.Answered
               (Server.RouterReply 200 true "Verification email sent successfully")) ->
     exists fresh,
       Spec.unused_by_flag (Server.u_id u) db' = [fresh]
       /\ Server.t_token fresh = Server.randomBytes w
       /\ Server.t_id fresh = Server.tokens_id_seq db)
  /\
  (forall cfg w email db db' e,
     Server.resendVerification cfg w email db = (db', Server.VerificationSent e) ->
     exists u fresh,
       find (fun v => eqb (Server.u_email v) e && Server.u_is_active v)
         (Server.users db) = Some u
       /\ Spec.unused_by_used_at (Server.u_id u) db' = [fresh]
       /\ List.length (Spec.unused_by_used_at (Server.u_id u) db') = 1%nat
       /\ Server.t_token fresh = Server.randomBytes w
       /\ Server.t_id fresh = Server.tokens_id_seq db)
  /\
  (forall w email db db',
     Server.router_resendVerification w email db
     = (db', Server.RouterReply 200 true "Verification email sent successfully") ->
     exists e u fresh,
       email = Some e
       /\ find (fun v => eqb (Server.u_email v) e) (Server.users db) = Some u
       /\ Spec.unused_by_flag (Server.u_id u) db' = [fresh]
       /\ List.length (Spec.unused_by_flag (Server.u_id u) db') = 1%nat
       /\ Server.t_token fresh = Server.randomBytes w
       /\ Server.t_id fresh = Server.tokens_id_seq db).
Proof.
  split; [|split; [|split; [|split; [|split]]]].
  - intros cfg w email db. apply resendVerification_alone.
  - intros w email db. apply router_resendVerification_alone.
  - intros cfg w u db db' e Hrun.
    eexists. rewrite (resend_from_delete cfg w u db db' e Hrun).
    repeat split.
  - intros w u db db' Hrun.
    eexists. rewrite (router_resend_from_delete w u db db' Hrun).
    repeat split.
  - intros cfg w email db db' e Hrun.
    destruct (resendVerification_sent cfg w email db db' e Hrun)
      as (u & Hfind & _ & Hunused).
    exists u. eexists. rewrite Hunused. repeat split. exact Hfind.
  - intros w email db db' Hrun.
    destruct (router_resendVerification_sent w email db db' Hrun)
      as (e & u & He & Hfind & Hunused).
    exists e, u. eexists. rewrite Hunused. repeat split; assumption.
Qed.

(** Alice holds two unused tokens and asks for a new one, through either
    handler. *)
Lemma resend_leaves_one_unused_token_witness :
  List.length (Spec.unused_by_used_at 1 Sample.db) = 2%nat
  /\ (exists db',
        Server.resendVerification Sample.cfg (Sample.at_time 1000 Server.Timeout)
          (Some (lit "alice@example.com")) Sample.db
        = (db', Server.VerificationSent (lit "alice@example.com"))
        /\ List.length (Spec.unused_by_used_at 1 db') = 1%nat)
  /\ (exists db',
        Server.router_resendVerification (Sample.at_time 1000 Server.Timeout)
          (Some (lit "alice@example.com")) Sample.db
        = (db', Server.RouterReply 200 true "Verification email sent successfully")
        /\ List.length (Spec.unused_by_flag 1 db') = 1%nat).
Proof.
  destruct resend_leaves_one_unused_token as (_ & _ & _ & _ & Hsrv & Hrtr).
  split; [reflexivity | split].
  - eexists. split; [vm_compute; reflexivity|].
    match goal with |- List.length (Spec.unused_by_used_at _ ?d) = _ =>
      destruct (Hsrv Sample.cfg (Sample.at_time 1000 Server.Timeout)
                  (Some (lit "alice@example.com")) Sample.db d
                  (lit "alice@example.com") eq_refl)
        as (u & fresh & Hfind & _ & Hlen & _)
    end.
    vm_compute in Hfind. inversion Hfind; subst u. exact Hlen.
  - eexists. split; [vm_compute; reflexivity|].
    match goal with |- List.length (Spec.unused_by_flag _ ?d) = _ =>
      destruct (Hrtr (Sample.at_time 1000 Server.Timeout)
                  (Some (lit "alice@example.com")) Sample.db d eq_refl)
        as (e & u & fresh & He & Hfind & _ & Hlen & _)
    end.
    inversion He; subst e. vm_compute in Hfind. inversion Hfind; subst u.
    exact Hlen.
Defined.

(** Two resends for Alice overlap: each finds her account, each deletes
    her unused tokens, and then each inserts its token. Both are answered
    as sent, and Alice holds two unused tokens; so it is through the
    router. *)
Lemma overlapping_resends_leave_two_tokens :
  let alice := Some (lit "alice@example.com") in
  let first := (Sample.at_time 1000 Server.Timeout, Server.Received alice) in
  let second :=
    (Server.mkWorld 1001 250 Server.Timeout (lit "fresh-token-2") true,
     Server.Received alice) in
  let turns := [0; 1; 0; 1; 0; 1; 0; 1; 0; 1]%nat in
  (let '(db', requests) :=
     Server.interleave (Server.resend_step Sample.cfg) turns [first; second]
       Sample.db in
   map snd requests
   = [Server.Answered (Server.VerificationSent (lit "alice@example.com"));
      Server.Answered (Server.VerificationSent (lit "alice@example.com"))]
   /\ map Server.t_token (Spec.unused_by_used_at 1 db')
      = [lit "fresh-token"; lit "fresh-token-2"])
  /\
  (let '(db', requests) :=
     Server.interleave Server.router_resend_step turns [first; second]
       Sample.db in
   map snd requests
   = [Server.Answered
        (Server.RouterReply 200 true "Verification email sent successfully");
      Server.Answered
        (Server.RouterReply 200 true "Verification email sent successfully")]
   /\ map Server.t_token (Spec.unused_by_flag 1 db')
      = [lit "fresh-token"; lit "fresh-token-2"]).
Proof. vm_compute. repeat split. Qed.

(* ===================================================================== *)
(** * Further properties *)
(* ===================================================================== *)

(** ** Splitting and sorting *)
Section TextFacts.
Import JS Text.

Lemma split_cons_eq (sep c : code_unit) (r : jsstring) :
  c <> sep ->
  split sep (c :: r)
  = match split sep r with
    | piece :: pieces => (c :: piece) :: pieces
    | [] => [[c]]
    end.
Proof.
  intros Hc. simpl. destruct (N.eqb_spec c sep) as [E|_]; [contradiction|reflexivity].
Qed.

(** The first piece of a text ends at the first separator. *)
Lemma split_app (sep : code_unit) (a b : jsstring) :
  ~ In sep a -> split sep (a ++ sep :: b) = a :: split sep b.
Proof.
  induction a as [|c a IH]; intros Ha; simpl.
  - now rewrite N.eqb_refl.
  - destruct (N.eqb_spec c sep) as [E|_].
    + exfalso. apply Ha. now left.
    + rewrite IH; [reflexivity|]. intros H. apply Ha. now right.
Qed.

Lemma split_none (sep : code_unit) (a : jsstring) :
  ~ In sep a -> split sep a = [a].
Proof.
  induction a as [|c a IH]; intros Ha; simpl; [reflexivity|].
  destruct (N.eqb_spec c sep) as [E|_].
  - exfalso. apply Ha. now left.
  - rewrite IH; [reflexivity|]. intros H. apply Ha. now right.
Qed.

(** The second piece of a text with a separator: what stands between the
    first separator and the next, or the end. *)
Lemma split_second (sep : code_unit) (a b : jsstring) :
  ~ In sep a -> ~ In sep b ->
  nth_error (split sep (a ++ sep :: b)) 1 = Some b
  /\ forall rest, nth_error (split sep (a ++ sep :: b ++ sep :: rest)) 1 = Some b.
Proof.
  intros Ha Hb. split.
  - rewrite split_app by exact Ha. now rewrite split_none.
  - intros rest. rewrite split_app by exact Ha. now rewrite split_app.
Qed.

Lemma existsb_eqb_In (d : jsstring) (l : list jsstring) :
  existsb (eqb d) l = true <-> In d l.
Proof.
  rewrite existsb_exists. split.
  - intros [x [Hin E]]. apply eqb_eq in E. now subst.
  - intros Hin. exists d. split; [exact Hin | apply eqb_refl].
Qed.

Variable A : Type.
Variable key : A -> Z.

Lemma insert_by_perm (x : A) (rows : list A) :
  Permutation (insert_by key x rows) (x :: rows).
Proof.
  induction rows as [|y r IH]; simpl; [reflexivity|].
  destruct (key y <=? key x); [reflexivity|].
  rewrite IH. apply perm_swap.
Qed.

Lemma order_by_desc_perm (rows : list A) :
  Permutation (order_by_desc key rows) rows.
Proof.
  induction rows as [|x r IH]; simpl; [reflexivity|].
  rewrite insert_by_perm. now constructor.
Qed.

Lemma insert_by_sorted (x : A) (rows : list A) :
  StronglySorted (desc key) rows -> StronglySorted (desc key) (insert_by key x rows).
Proof.
  induction rows as [|y r IH]; intros Hs; simpl.
  - repeat constructor.
  - inversion Hs as [|? ? Hr Hy]; subst.
    destruct (Z.leb_spec (key y) (key x)) as [Hle|Hgt].
    + constructor; [exact Hs|]. constructor; [exact Hle|].
      rewrite Forall_forall in *. intros z Hz. unfold desc in *.
      specialize (Hy z Hz). lia.
    + constructor; [apply IH; exact Hr|].
      rewrite Forall_forall in *. intros z Hz.
      apply (Permutation_in _ (insert_by_perm x r)) in Hz.
      destruct Hz as [<-|Hz]; [unfold desc; lia | now apply Hy].
Qed.

Lemma order_by_desc_sorted (rows : list A) :
  StronglySorted (desc key) (order_by_desc key rows).
Proof.
  induction rows as [|x r IH]; simpl; [constructor|].
  now apply insert_by_sorted.
Qed.

(** A row whose key is above every other comes first. *)
Lemma insert_by_head (x y : A) (rows : list A) :
  key x < key y -> exists rest,
    insert_by key x (y :: rows) = y :: rest.
Proof.
  intros H. simpl. destruct (Z.leb_spec (key y) (key x)); [lia|]. eauto.
Qed.

Lemma order_by_desc_top (l1 l2 : list A) (x : A) :
  (forall y, In y l1 -> key y < key x) ->
  (forall y, In y l2 -> key y < key x) ->
  exists rest, order_by_desc key (l1 ++ x :: l2) = x :: rest.
Proof.
  intros H1 H2. induction l1 as [|y l1 IH].
  - simpl. assert (Hall : forall y, In y (order_by_desc key l2) -> key y < key x).
    { intros y Hy. apply H2. eapply Permutation_in; [apply order_by_desc_perm|exact Hy]. }
    destruct (order_by_desc key l2) as [|z r]; simpl; [eauto|].
    destruct (Z.leb_spec (key z) (key x)); [eauto|].
    specialize (Hall z (or_introl eq_refl)). lia.
  - destruct IH as [rest E]; [intros z Hz; apply H1; now right|].
    unfold order_by_desc in *. simpl. rewrite E.
    apply insert_by_head. apply H1. now left.
Qed.

(** A row appended with a key above all the others comes first, and the
    others keep their order. *)
Lemma order_by_desc_last (l : list A) (x : A) :
  (forall y, In y l -> key y < key x) ->
  order_by_desc key (l ++ [x]) = x :: order_by_desc key l.
Proof.
  intros H. induction l as [|y l IH]; [reflexivity|].
  unfold order_by_desc in *. simpl.
  rewrite IH by (intros z Hz; apply H; now right). simpl.
  destruct (Z.leb_spec (key x) (key y)) as [Hle|_]; [|reflexivity].
  specialize (H y (or_introl eq_refl)). lia.
Qed.

End TextFacts.

(** ** Registration, the middleware and email verification *)
Section AccountFacts.
Import JS Server Text Accounts.
Context {engine : Engine} {libraries : Libraries} {packages : Packages}.

Lemma users_logUserActivity cfg uid ty t db :
  users (logUserActivity cfg uid ty t db) = users db.
Proof. unfold logUserActivity. now destruct (features_userActivityLogging cfg). Qed.

Lemma seqs_logUserActivity cfg uid ty t db :
  messages_id_seq (logUserActivity cfg uid ty t db) = messages_id_seq db
  /\ tokens_id_seq (logUserActivity cfg uid ty t db) = tokens_id_seq db.
Proof. unfold logUserActivity. now destruct (features_userActivityLogging cfg). Qed.

Lemma tables_logAudit s uid a tn rid o n st :
  tables (logAudit s uid a tn rid o n st) = tables st.
Proof. unfold logAudit. now destruct (features_auditLogging s). Qed.

Lemma seqs_logAudit s uid a tn rid o n st :
  users_id_seq (logAudit s uid a tn rid o n st) = users_id_seq st
  /\ chat_sessions_id_seq (logAudit s uid a tn rid o n st)
     = chat_sessions_id_seq st.
Proof. unfold logAudit. now destruct (features_auditLogging s). Qed.

(** The token [register] issues, when it issues one. *)
Lemma register_created s w salt email password firstName lastName st st' u :
  register s w salt email password firstName lastName st = (st', Registered u) ->
  exists e p f l,
    email = Some e /\ password = Some p /\ firstName = Some f /\ lastName = Some l
    /\ e <> [] /\ p <> []
    /\ isEmailDomainAllowed (allowedEmailDomains s) e = true
    /\ (8 <= List.length p)%nat
    /\ existsb (fun r => eqb (u_email r) e) (users (tables st)) = false
    /\ u = mkUser (users_id_seq st) e (bcrypt_hash salt p) f l true
             (negb (auth_requireEmailVerification (base s))) None
    /\ users (tables st') = users (tables st) ++ [u]
    /\ users_id_seq st' = users_id_seq st + 1
    /\ chat_sessions_id_seq st' = chat_sessions_id_seq st
    /\ chat_sessions (tables st') = chat_sessions (tables st)
    /\ messages (tables st') = messages (tables st)
    /\ email_verification_tokens (tables st')
       = email_verification_tokens (tables st)
           ++ (if features_emailVerification s
                  && auth_requireEmailVerification (base s)
               then [mkToken (tokens_id_seq (tables st)) (users_id_seq st)
                       (randomBytes w)
                       (now w + verification_expiryHours (base s) * 3600000)
                       (now w) None false]
               else [])
    /\ (features_emailVerification s && auth_requireEmailVerification (base s)
        = true ->
        existsb (fun r => eqb (t_token r) (randomBytes w))
          (email_verification_tokens (tables st)) = false).
Proof.
  unfold register.
  destruct (given email) as [e|] eqn:Ee; [|intros [= ]].
  destruct (given password) as [p|] eqn:Ep; [|intros [= ]].
  destruct (given firstName) as [f|] eqn:Ef; [|intros [= ]].
  destruct (given lastName) as [l|] eqn:El; [|intros [= ]].
  apply given_Some in Ee, Ep, Ef, El.
  destruct Ee as [-> He], Ep as [-> Hp], Ef as [-> Hf], El as [-> Hl].
  destruct (isEmailDomainAllowed _ e) eqn:Ed; simpl; [|intros [= ]].
  destruct (Nat.ltb_spec (List.length p) 8) as [|Hlen]; [intros [= ]|].
  destruct (existsb _ (users (tables st))) eqn:Eex; [intros [= ]|].
  destruct (features_emailVerification s && auth_requireEmailVerification (base s))
    eqn:Eiss.
  - unfold insert_token. simpl.
    destruct (existsb _ (email_verification_tokens (tables st))) eqn:Etok;
      [intros [= ]|].
    intros [= <- <-].
    exists e, p, f, l. simpl.
    rewrite users_logUserActivity, tokens_logUserActivity,
      messages_logUserActivity, chat_sessions_logUserActivity, tables_logAudit.
    unfold logAudit. destruct (features_auditLogging s);
      simpl; repeat split; auto.
  - intros [= <- <-].
    exists e, p, f, l. simpl.
    rewrite users_logUserActivity, tokens_logUserActivity,
      messages_logUserActivity, chat_sessions_logUserActivity, tables_logAudit.
    simpl. rewrite app_nil_r.
    repeat split; auto; try discriminate.
    + unfold logAudit. now destruct (features_auditLogging s).
    + unfold logAudit. now destruct (features_auditLogging s).
Qed.

Lemma register_shape s w salt email password firstName lastName st :
  let '(st', r) := register s w salt email password firstName lastName st in
  (st' = st /\ exists msg, r = Refused 400 msg)
  \/ exists row,
       users (tables st') = users (tables st) ++ [row]
       /\ u_id row = users_id_seq st
       /\ users_id_seq st' = users_id_seq st + 1
       /\ existsb (fun x => eqb (u_email x) (u_email row)) (users (tables st))
          = false
       /\ (r = Registered row \/ r = Refused 500 "Internal server error").
Proof.
  destruct (register s w salt email password firstName lastName st)
    as [st' r] eqn:E.
  destruct r as [status msg|u].
  - revert E. unfold register.
    destruct (given email) as [e|]; [|intros [= <- <- <-]; left; eauto].
    destruct (given password) as [p|]; [|intros [= <- <- <-]; left; eauto].
    destruct (given firstName) as [f|]; [|intros [= <- <- <-]; left; eauto].
    destruct (given lastName) as [l|]; [|intros [= <- <- <-]; left; eauto].
    destruct (isEmailDomainAllowed _ e); simpl; [|intros [= <- <- <-]; left; eauto].
    destruct (_ <? _)%nat; [intros [= <- <- <-]; left; eauto|].
    destruct (existsb _ (users (tables st))) eqn:Eex;
      [intros [= <- <- <-]; left; eauto|].
    destruct (features_emailVerification s && auth_requireEmailVerification (base s)).
    + destruct (insert_token _ _ _ _ _); intros [= <- <- <-].
      right. eexists. simpl. repeat split; eauto.
    + intros [= ].
  - apply register_created in E.
    destruct E as (e & p & f & l & _ & _ & _ & _ & _ & _ & _ & _ & Hex & Hu & Hus
                   & Hseq & _).
    right. exists u. subst u. simpl in *. repeat split; auto.
Qed.

Lemma find_last (A : Type) (f P : A -> bool) (l : list A) (x : A) :
  existsb P l = false -> (forall y, f y = true -> P y = true) ->
  find f (l ++ [x]) = if f x then Some x else None.
Proof.
  intros Hex Hf. induction l as [|y l IH]; simpl in *; [reflexivity|].
  apply orb_false_iff in Hex. destruct Hex as [Hy Hl].
  destruct (f y) eqn:E; [apply Hf in E; congruence|]. now apply IH.
Qed.

End AccountFacts.

Section MiddlewareFacts.
Import JS Server Text Accounts.
Context {packages : Packages}.

Lemma bearer_second_word (scheme token : jsstring) :
  ~ In 32%N scheme -> ~ In 32%N token ->
  bearer (Some (scheme ++ 32%N :: token)) = given (Some token)
  /\ forall rest : jsstring,
      bearer (Some (scheme ++ 32%N :: token ++ 32%N :: rest))
      = given (Some token).
Proof.
  intros Hs Ht. unfold bearer.
  destruct (split_second 32%N scheme token Hs Ht) as [E1 E2].
  unfold code_unit in *. split; [now rewrite E1|].
  intros rest. now rewrite E2.
Qed.

Lemma bearer_no_space (header : jsstring) :
  ~ In 32%N header -> bearer (Some header) = None.
Proof. intros H. unfold bearer. now rewrite split_none. Qed.

Lemma bearer_two_spaces (scheme rest : jsstring) :
  ~ In 32%N scheme -> bearer (Some (scheme ++ 32%N :: 32%N :: rest)) = None.
Proof.
  intros H. unfold bearer.
  pose proof (split_app 32%N scheme (32%N :: rest) H) as E.
  unfold code_unit in *. rewrite E. reflexivity.
Qed.

Lemma bearer_of_api (token : jsstring) :
  ~ In 32%N token ->
  bearer (Api.authorization (Some token)) = given (Some token).
Proof.
  intros Ht. unfold Api.authorization.
  destruct (given (Some token)) as [t|] eqn:E; [|reflexivity].
  apply given_Some in E. destruct E as [[= <-] Hne].
  change (lit "Bearer " ++ token) with (lit "Bearer" ++ 32%N :: token).
  rewrite (proj1 (bearer_second_word (lit "Bearer") token ltac:(vm_compute; intuition discriminate) Ht)).
  destruct token; [now elim Hne|reflexivity].
Qed.

End MiddlewareFacts.

Section VerificationFacts.
Import JS Server Text Accounts.
Context {libraries : Libraries} {packages : Packages}.

Lemma filter_none (A : Type) (P : A -> bool) (l : list A) :
  existsb P l = false -> filter P l = [].
Proof.
  induction l as [|a l IH]; simpl; [reflexivity|].
  intros H. apply orb_false_iff in H. destruct H as [-> H]. now apply IH.
Qed.

(** The rows the join yields for a token that was just inserted for a
    user that was just inserted. *)
Lemma tokens_with_users_fresh token db tokens0 users0 t u :
  email_verification_tokens db = tokens0 ++ [t] ->
  users db = users0 ++ [u] ->
  existsb (fun r => eqb (t_token r) token) tokens0 = false ->
  t_token t = token -> t_user_id t = u_id u ->
  (forall x, In x users0 -> u_id x < u_id u) ->
  tokens_with_users token db = [(t, u)].
Proof.
  intros Et Eu Hex Htok Huid Hlt. unfold tokens_with_users.
  rewrite Et, Eu, filter_app, filter_none by exact Hex. simpl.
  rewrite Htok, eqb_refl. simpl. rewrite filter_app, app_nil_r.
  rewrite filter_none.
  - simpl. rewrite Huid, Z.eqb_refl. reflexivity.
  - apply not_true_is_false. intros H. apply existsb_exists in H.
    destruct H as [x [Hx E]]. apply Hlt in Hx. rewrite Huid in E. lia.
Qed.

Lemma existsb_of_map (A B : Type) (P : B -> bool) (g : A -> B) (l : list A) :
  existsb P (map g l) = existsb (fun x => P (g x)) l.
Proof. induction l as [|a l IH]; simpl; [reflexivity|]. now rewrite IH. Qed.

Lemma filter_map_commute (A : Type) (P : A -> bool) (g : A -> A) (l : list A) :
  (forall x, P (g x) = P x) -> filter P (map g l) = map g (filter P l).
Proof.
  intros H. induction l as [|a l IH]; simpl; [reflexivity|].
  rewrite H. destruct (P a); simpl; now rewrite IH.
Qed.

(** The join after an update of the token rows, and after an update of
    the user rows, that leaves the columns of the join alone. *)
Lemma tokens_with_users_set_tokens token g db :
  (forall r, t_token (g r) = t_token r) ->
  (forall r, t_user_id (g r) = t_user_id r) ->
  tokens_with_users token (set_tokens (map g) db)
  = map (fun row => (g (fst row), snd row)) (tokens_with_users token db).
Proof.
  intros Htok Huid. unfold tokens_with_users. simpl.
  rewrite filter_map_commute by (intros x; now rewrite Htok).
  induction (filter _ (email_verification_tokens db)) as [|r l IH]; simpl;
    [reflexivity|].
  rewrite map_app, IH, map_map. f_equal.
  rewrite (filter_ext _ (fun u => t_user_id r =? u_id u)) by
      (intros u; now rewrite Huid).
  reflexivity.
Qed.

Lemma tokens_with_users_set_users token h db :
  (forall u, u_id (h u) = u_id u) ->
  tokens_with_users token (set_users (map h) db)
  = map (fun row => (fst row, h (snd row))) (tokens_with_users token db).
Proof.
  intros Hid. unfold tokens_with_users. simpl.
  induction (filter _ (email_verification_tokens db)) as [|r l IH]; simpl;
    [reflexivity|].
  rewrite map_app, IH, map_map. f_equal.
  rewrite filter_map_commute by (intros x; now rewrite Hid).
  now rewrite map_map.
Qed.

Lemma NoDup_map_eq (A B : Type) (f : A -> B) (l : list A) (x y : A) :
  NoDup (map f l) -> In x l -> In y l -> f x = f y -> x = y.
Proof.
  induction l as [|a l IH]; simpl; [intros _ []|].
  intros Hnd Hx Hy E. inversion Hnd as [|? ? Hnot Hnd']; subst.
  destruct Hx as [->|Hx], Hy as [->|Hy]; auto.
  - elim Hnot. rewrite E. now apply in_map.
  - elim Hnot. rewrite <- E. now apply in_map.
Qed.

(** Under the UNIQUE constraint every row of the join for one token
    comes from the same token row. *)
Lemma tokens_with_users_one token db row row' :
  NoDup (map t_token (email_verification_tokens db)) ->
  In row (tokens_with_users token db) -> In row' (tokens_with_users token db) ->
  fst row = fst row'.
Proof.
  intros Hnd H H'. unfold tokens_with_users in *.
  apply in_flat_map in H, H'.
  destruct H as [r [Hr H]], H' as [r' [Hr' H']].
  apply in_map_iff in H, H'.
  destruct H as [u [<- _]], H' as [u' [<- _]]. simpl.
  apply filter_In in Hr, Hr'. destruct Hr as [Hr E], Hr' as [Hr' E'].
  apply eqb_eq in E, E'.
  apply (NoDup_map_eq _ _ t_token (email_verification_tokens db)); congruence.
Qed.

Lemma login_after s w e p u db :
  find (fun r => eqb (u_email r) e && u_is_active r) (users db) = Some u ->
  e <> [] -> p <> [] ->
  auth_requireEmailVerification (base s) && negb (u_email_verified u) = false ->
  bcrypt_compare p (u_password_hash u) = true ->
  snd (login (base s) w (Some e) (Some p) db) = LoggedIn (jwt_sign (u_id u)) u.
Proof.
  intros Hf He Hp Hv Hc. unfold login.
  destruct e as [|c e]; [now elim He|]. destruct p as [|d p]; [now elim Hp|].
  simpl given. cbv iota. rewrite Hf, Hv, Hc. reflexivity.
Qed.

End VerificationFacts.

Section SessionTokenFacts.
Import JS Server Text Accounts.
Context {libraries : Libraries} {packages : Packages}.

Lemma find_map (A : Type) (f : A -> bool) (g : A -> A) (l : list A) :
  (forall x, f (g x) = f x) -> find f (map g l) = option_map g (find f l).
Proof.
  intros H. induction l as [|a l IH]; simpl; [reflexivity|].
  rewrite H. now destruct (f a).
Qed.

(** What [authenticateToken] lets through. *)
Lemma authenticateToken_passes s w h db u :
  authenticateToken s w h db = inr u ->
  exists token,
    bearer h = Some token /\ jwt_verify (now w) token = Some (u_id u)
    /\ In u (users db) /\ u_is_active u = true
    /\ (auth_requireEmailVerification (base s) = true -> u_email_verified u = true).
Proof.
  unfold authenticateToken.
  destruct (bearer h) as [token|]; [|discriminate].
  destruct (jwt_verify (now w) token) as [userId|] eqn:Ej; [|discriminate].
  destruct (find _ (users db)) as [x|] eqn:Ef; [|discriminate].
  destruct (auth_requireEmailVerification (base s) && negb (u_email_verified x))
    eqn:Ev; [discriminate|].
  intros [= <-]. apply find_some in Ef. destruct Ef as [Hin Hx].
  apply andb_prop in Hx. destruct Hx as [Hid Hact]. apply Z.eqb_eq in Hid.
  exists token. subst userId. repeat split; auto.
  intros Hreq. rewrite Hreq in Ev. simpl in Ev. now apply negb_false_iff in Ev.
Qed.

End SessionTokenFacts.

(** ** Resending the verification email *)
Section ResendFacts.
Import JS Server Text Accounts.

Lemma filter_key (A : Type) (f : A -> Z) (l : list A) (x : A) :
  NoDup (map f l) -> In x l -> filter (fun y => f x =? f y) l = [x].
Proof.
  induction l as [|a l IH]; simpl; [intros _ []|].
  intros Hnd Hin. inversion Hnd as [|? ? Hnot Hnd']; subst.
  destruct Hin as [->|Hin].
  - rewrite Z.eqb_refl. f_equal. apply filter_none.
    apply not_true_is_false. intros H. apply existsb_exists in H.
    destruct H as [y [Hy E]]. apply Z.eqb_eq in E. apply Hnot.
    rewrite E. now apply in_map.
  - destruct (Z.eqb_spec (f x) (f a)) as [E|_]; [|now apply IH].
    elim Hnot. rewrite <- E. now apply in_map.
Qed.

(** The store after the router has sent a new verification email. *)
Lemma router_resendVerification_store w email db db' :
  router_resendVerification w email db
  = (db', RouterReply 200 true "Verification email sent successfully") ->
  exists e u,
    email = Some e
    /\ find (fun v => eqb (u_email v) e) (users db) = Some u
    /\ u_email_verified u = false
    /\ users db' = users db
    /\ existsb (fun r => eqb (t_token r) (randomBytes w))
         (filter (fun r => negb ((t_user_id r =? u_id u) && negb (t_is_used r)))
            (email_verification_tokens db)) = false
    /\ email_verification_tokens db'
       = filter (fun r => negb ((t_user_id r =? u_id u) && negb (t_is_used r)))
           (email_verification_tokens db)
           ++ [mkToken (tokens_id_seq db) (u_id u) (randomBytes w)
                 (now w + 24 * 60 * 60 * 1000) (now w) None false].
Proof.
  unfold router_resendVerification.
  destruct (given email) as [em|] eqn:Hg; [|discriminate].
  destruct (find _ (users db)) as [u|] eqn:Hfind; [|discriminate].
  destruct (u_email_verified u) eqn:Hv; [discriminate|].
  unfold insert_token.
  destruct (existsb _ _) eqn:Hex; [discriminate|].
  destruct (emailSent w); simpl; [|discriminate].
  intros E; inversion E; subst; clear E.
  apply given_Some in Hg. destruct Hg as [-> _].
  exists em, u. simpl. auto 8.
Qed.

End ResendFacts.

(** ** What a chat request does to the store *)
Section StoreFacts.
Import JS Server.
Context {engine : Engine} {libraries : Libraries}.
Variable cfg : config.

(** The relay adds at most one row, the bot message of the session and
    the caller, under the next id, and touches nothing else. *)
Lemma callWebhook_store w u sid m db :
  let '(db', _, _, rt) := callWebhook w u sid m db in
  rt = Some (elapsed w)
  /\ users db' = users db
  /\ chat_sessions db' = chat_sessions db
  /\ email_verification_tokens db' = email_verification_tokens db
  /\ exists bots,
      messages db' = messages db ++ bots
      /\ messages_id_seq db' = messages_id_seq db + Z.of_nat (List.length bots)
      /\ (List.length bots <= 1)%nat
      /\ Forall (fun r => m_session_id r = sid /\ m_user_id r = u_id u
                          /\ m_id r = messages_id_seq db
                          /\ m_message_type r = bot) bots.
Proof.
  unfold callWebhook.
  assert (Hc : Some (elapsed w) = Some (elapsed w)
               /\ users db = users db /\ chat_sessions db = chat_sessions db
               /\ email_verification_tokens db = email_verification_tokens db
               /\ exists bots,
                   messages db = messages db ++ bots
                   /\ messages_id_seq db
                      = messages_id_seq db + Z.of_nat (List.length bots)
                   /\ (List.length bots <= 1)%nat
                   /\ Forall (fun r => m_session_id r = sid /\ m_user_id r = u_id u
                                       /\ m_id r = messages_id_seq db
                                       /\ m_message_type r = bot) bots).
  { repeat split. exists []. rewrite app_nil_r. simpl. repeat split; auto; lia. }
  destruct (webhook w) as [| |st data]; try exact Hc.
  destruct (validateStatus st); [|exact Hc].
  destruct (botMessageText data) as [text|]; [|exact Hc].
  destruct (prepareValue text) as [message_text|]; [|exact Hc].
  simpl. repeat split. eexists. split; [reflexivity|]. simpl.
  repeat split; auto.
Qed.

(** A send is refused and changes nothing, or adds the user message and
    what the relay adds, and stamps the session. *)
Lemma sendMessage_store w u sid msg db :
  let '(db', _, r) := sendMessage cfg w u sid msg db in
  (db' = db /\ exists st e, r = Error st e)
  \/ exists s m t bots,
       let userMessage :=
         mkMessage (messages_id_seq db) s (u_id u) m user None (now w) None in
       given_id sid = Some s /\ given msg = Some m
       /\ existsb (owns_active (u_id u) s) (chat_sessions db) = true
       /\ (exists wr rt, r = MessageSent userMessage wr rt)
       /\ (t = now w \/ t = now w + elapsed w)
       /\ users db' = users db
       /\ email_verification_tokens db' = email_verification_tokens db
       /\ chat_sessions db'
          = map (fun r =>
                   if cs_id r =? s then
                     mkSession (cs_id r) (cs_user_id r) (cs_session_name r)
                       (cs_created_at r) t (cs_is_active r)
                   else r)
              (chat_sessions db)
       /\ messages db' = messages db ++ userMessage :: bots
       /\ messages_id_seq db'
          = messages_id_seq db + 1 + Z.of_nat (List.length bots)
       /\ (List.length bots <= 1)%nat
       /\ Forall (fun r => m_session_id r = s /\ m_user_id r = u_id u
                           /\ m_id r = messages_id_seq db + 1
                           /\ m_message_type r = bot) bots.
Proof.
  unfold sendMessage.
  destruct (given_id sid) as [s|] eqn:Hs; [|left; eauto].
  destruct (given msg) as [m|] eqn:Hm; [|left; eauto].
  destruct (existsb _ _) eqn:Ho; simpl negb; cbv iota; [|left; eauto].
  unfold insert_message.
  destruct (webhook_enabled cfg && str_truthy (webhook_url cfg)).
  - match goal with |- context [callWebhook w u s m ?d] =>
      pose proof (callWebhook_store w u s m d) as Hw;
      destruct (callWebhook w u s m d) as [[[db2 ev2] wr] rt]
    end.
    destruct Hw as (-> & Hu & Hc & Ht & bots & Hb & Hseq & Hlen & Hbots).
    simpl in *. right. exists s, m, (now w + elapsed w), bots. cbv zeta.
    rewrite messages_logUserActivity, chat_sessions_logUserActivity,
      tokens_logUserActivity, users_logUserActivity.
    destruct (seqs_logUserActivity cfg (u_id u) "message_sent" (now w + elapsed w)
                (set_chat_sessions
                   (map (fun s0 =>
                           if cs_id s0 =? s then
                             mkSession (cs_id s0) (cs_user_id s0) (cs_session_name s0)
                               (cs_created_at s0) (now w + elapsed w) (cs_is_active s0)
                           else s0)) db2)) as [-> _].
    simpl. rewrite Hb, Hc, Hu, Ht, Hseq, <- app_assoc. simpl.
    repeat split; eauto; try lia.
  - right. exists s, m, (now w), []. cbv zeta.
    rewrite messages_logUserActivity, chat_sessions_logUserActivity,
      tokens_logUserActivity, users_logUserActivity.
    destruct (seqs_logUserActivity cfg (u_id u) "message_sent" (now w)
                (set_chat_sessions
                   (map (fun s0 =>
                           if cs_id s0 =? s then
                             mkSession (cs_id s0) (cs_user_id s0) (cs_session_name s0)
                               (cs_created_at s0) (now w) (cs_is_active s0)
                           else s0))
                   (mkDatabase (users db) (chat_sessions db)
                      (messages db
                         ++ [mkMessage (messages_id_seq db) s (u_id u) m user None
                               (now w) None])
                      (email_verification_tokens db) (user_activity_logs db)
                      (messages_id_seq db + 1) (tokens_id_seq db)))) as [-> _].
    simpl. repeat split; eauto; try lia.
Qed.

Ltac nothing_new :=
  exists []; rewrite app_nil_r; simpl;
  split; [reflexivity|]; split; [lia|]; split; [lia|];
  split; [intros [|?] ? H; discriminate H | intros H; now elim H].

(** Every request on a session leaves the accounts, the tokens and the
    stored messages alone, keeps the identity of every session, and adds
    at most two messages, of the session addressed and of the caller,
    under the next ids. *)
Lemma serve_store w u sid req db :
  let '(db', r) := serve cfg w u sid req db in
  users db' = users db
  /\ email_verification_tokens db' = email_verification_tokens db
  /\ map Terms.session_identity (chat_sessions db')
     = map Terms.session_identity (chat_sessions db)
  /\ exists new,
      messages db' = messages db ++ new
      /\ messages_id_seq db' = messages_id_seq db + Z.of_nat (List.length new)
      /\ (List.length new <= 2)%nat
      /\ (forall i row, nth_error new i = Some row ->
                        m_id row = messages_id_seq db + Z.of_nat i
                        /\ m_session_id row = sid /\ m_user_id row = u_id u)
      /\ (new <> [] ->
          existsb (owns_active (u_id u) sid) (chat_sessions db) = true
          /\ exists m, req = PostMessage (Some m) /\ m <> []).
Proof.
  destruct req as [page limit|message| |verb]; simpl.
  - repeat split; auto. nothing_new.
  - pose proof (sendMessage_store w u (Some sid) message db) as H.
    destruct (sendMessage cfg w u (Some sid) message db) as [[db' evs] r].
    destruct H as [[-> _]|(s & m & t & bots & Hs & Hm & Ho & _ & _ & Hu & Ht & Hc
                           & Hmsg & Hseq & Hlen & Hbots)].
    + repeat split; auto. nothing_new.
    + assert (s = sid).
      { unfold given_id in Hs. destruct (sid =? 0); congruence. }
      subst s. apply given_Some in Hm. destruct Hm as [-> Hne].
      repeat split; auto.
      * rewrite Hc, map_map. apply map_ext. intros r0.
        now destruct (cs_id r0 =? sid).
      * eexists. split; [exact Hmsg|]. simpl.
        repeat split; eauto; try lia.
        -- destruct i as [|i]; simpl in H; [injection H as <-; simpl; lia|].
           destruct bots as [|b bots]; [destruct i; discriminate|].
           destruct bots; [|simpl in Hlen; lia].
           destruct i; [|destruct i; discriminate]. injection H as <-.
           inversion Hbots as [|? ? (H1 & H2 & H3 & H4) _]; subst.
           rewrite H3. lia.
        -- destruct i as [|i]; simpl in H; [injection H as <-; reflexivity|].
           apply nth_error_In in H. rewrite Forall_forall in Hbots.
           now apply Hbots in H.
        -- destruct i as [|i]; simpl in H; [injection H as <-; reflexivity|].
           apply nth_error_In in H. rewrite Forall_forall in Hbots.
           now apply Hbots in H.
  - unfold deleteSession.
    destruct (existsb _ _); simpl; [|repeat split; auto; nothing_new].
    rewrite users_logUserActivity, tokens_logUserActivity,
      chat_sessions_logUserActivity, messages_logUserActivity.
    destruct (seqs_logUserActivity cfg (u_id u) "chat_session_deleted" (now w)
                (set_chat_sessions
                   (map (fun s =>
                           if owns_active (u_id u) sid s then
                             mkSession (cs_id s) (cs_user_id s) (cs_session_name s)
                               (cs_created_at s) (now w) false
                           else s)) db)) as [-> _].
    simpl. split; [reflexivity|]. split; [reflexivity|]. split.
    + rewrite map_map. apply map_ext. intros r0.
      now destruct (owns_active (u_id u) sid r0).
    + nothing_new.
  - repeat split; auto. nothing_new.
Qed.

End StoreFacts.

(** ** The sessions of a user *)
Section SessionFacts.
Import JS Server Text Accounts.
Context {engine : Engine} {libraries : Libraries} {packages : Packages}.

Lemma createSession_store s w u name st :
  let '(st', row) := createSession s w u name st in
  row = mkSession (chat_sessions_id_seq st) (u_id u)
          match given name with
          | Some n => n
          | None => lit "Chat " ++ toISOString (now w)
          end
          (now w) (now w) true
  /\ chat_sessions (tables st') = chat_sessions (tables st) ++ [row]
  /\ messages (tables st') = messages (tables st)
  /\ users (tables st') = users (tables st)
  /\ chat_sessions_id_seq st' = chat_sessions_id_seq st + 1.
Proof.
  unfold createSession. simpl.
  rewrite chat_sessions_logUserActivity, messages_logUserActivity,
    users_logUserActivity. simpl. auto.
Qed.

Lemma in_listSessions u db cs n :
  In (cs, n) (listSessions u db) <->
  In cs (chat_sessions db) /\ cs_user_id cs = u_id u /\ cs_is_active cs = true
  /\ n = message_count db cs.
Proof.
  unfold listSessions. split.
  - intros H. apply (Permutation_in _ (order_by_desc_perm _ _ _)) in H.
    apply in_map_iff in H. destruct H as [x [[= <- <-] Hx]].
    apply filter_In in Hx. destruct Hx as [Hin Hx].
    apply andb_prop in Hx. destruct Hx as [Hu Ha]. apply Z.eqb_eq in Hu. auto.
  - intros (Hin & Hu & Ha & ->).
    apply (Permutation_in _ (Permutation_sym (order_by_desc_perm _ _ _))).
    apply in_map_iff. exists cs. split; [reflexivity|].
    apply filter_In. split; [exact Hin|].
    rewrite Hu, Z.eqb_refl, Ha. reflexivity.
Qed.

Lemma existsb_same (A : Type) (f g : A -> bool) (l : list A) :
  (forall x, f x = g x) -> existsb f l = existsb g l.
Proof.
  intros H. induction l as [|a l IH]; simpl; [reflexivity|]. now rewrite H, IH.
Qed.

Lemma existsb_owns_active uid sid l :
  existsb (owns_active uid sid) l = true <->
  exists cs, In cs l /\ cs_id cs = sid /\ cs_user_id cs = uid
             /\ cs_is_active cs = true.
Proof.
  rewrite existsb_exists. unfold owns_active. split.
  - intros [cs [Hin H]]. apply andb_prop in H. destruct H as [H Ha].
    apply andb_prop in H. destruct H as [Hi Hu].
    apply Z.eqb_eq in Hi, Hu. eauto.
  - intros [cs (Hin & Hi & Hu & Ha)]. exists cs. split; [exact Hin|].
    now rewrite Hi, Hu, Ha, !Z.eqb_refl.
Qed.

End SessionFacts.

(** ** The text of the bot message *)
Section BotTextFacts.
Import JS Server.
Context {engine : Engine} {libraries : Libraries}.

Lemma prepareValue_truthy (v : json) :
  truthy v = true -> exists text, prepareValue v = Some text.
Proof. destruct v; simpl; try discriminate; eauto. Qed.

Lemma pick_truthy data k otherwise :
  data <> JNull ->
  (exists v, otherwise = Some v /\ exists text, prepareValue v = Some text) ->
  exists v, pick data k otherwise = Some v
            /\ exists text, prepareValue v = Some text.
Proof.
  intros Hd Ho. unfold pick, get.
  destruct data as [| | | | |fields]; try exact Ho; [now elim Hd|].
  destruct (assoc (lit k) fields) as [v|]; [|exact Ho].
  destruct (truthy v) eqn:Ev; [|exact Ho].
  exists v. split; [reflexivity|]. now apply prepareValue_truthy.
Qed.

(** Whatever the webhook answered, short of [null], has a text. *)
Lemma botMessageText_text data :
  data <> JNull ->
  exists v text, botMessageText data = Some v /\ prepareValue v = Some text.
Proof.
  intros Hd. unfold botMessageText.
  destruct (is_string data) eqn:Es.
  - destruct data as [| | |str| |]; try discriminate.
    exists (JStr str), str. split; reflexivity.
  - destruct (pick_truthy data "text"
                (pick data "response"
                   (Some (JStr (JSON_stringify_pretty data)))) Hd)
      as [v [E [text Ht]]].
    + apply pick_truthy; [exact Hd|].
      exists (JStr (JSON_stringify_pretty data)). split; [reflexivity|].
      simpl. eauto.
    + exists v, text. split; assumption.
Qed.

End BotTextFacts.


Section GrowthFacts.
Import JS Client.

Lemma grows_messages_of c n db db' c' :
  Terms.grows_in c n db db' -> c' <> c -> messages_of c' db' = messages_of c' db.
Proof.
  intros [[new (E & _ & Hall)] _] Hne. unfold messages_of.
  rewrite E, filter_app, map_app.
  rewrite (filter_none _ _ new); [simpl; now rewrite app_nil_r|].
  apply not_true_is_false. intros H. apply existsb_exists in H.
  destruct H as [cm [Hin Hcm]]. rewrite Forall_forall in Hall.
  apply Hall in Hin. apply eqb_eq in Hcm. congruence.
Qed.

Lemma grows_map (B : Type) (f : Conversation -> B) c n db db' :
  (forall d d', Terms.same_conversation d d' -> f d' = f d) ->
  Terms.grows_in c n db db' ->
  map f (conversations db') = map f (conversations db).
Proof.
  intros Hf [_ Hc]. induction Hc as [|d d' l l' [Hs _] _ IH]; simpl;
    [reflexivity|].
  now rewrite (Hf d d' Hs), IH.
Qed.

Lemma grows_others c n db db' d :
  Terms.grows_in c n db db' -> id d <> c ->
  (In d (conversations db') <-> In d (conversations db)).
Proof.
  intros [_ Hc] Hne.
  induction Hc as [|d0 d1 l l' [(Hi & _) Hsame] _ IH]; simpl; [tauto|].
  split; intros [H|H]; try (right; now apply IH).
  - subst d1. left. symmetry. apply Hsame. congruence.
  - subst d0. left. now apply Hsame.
Qed.

End GrowthFacts.

Section SidebarFacts.
Import JS Client Text ChatPage.
Context {engine : Engine}.

(** No branch of the [catch] block touches a conversation document. *)
Lemma on_error_conversations R uid c t st db evs :
  conversations (fst (fst (on_error R uid c t st db evs))) = conversations db.
Proof.
  unfold on_error, addDoc. now destruct (R uid CreateMessage c db).
Qed.

(** The conversations after a submission that the store admits. *)
Lemma handleSubmit_conversations R uid w c st db :
  trim (input st) <> [] -> loading st = false ->
  R uid CreateMessage c db = true ->
  Terms.admitted_during R uid UpdateConversation c db ->
  has_conversation c db = true ->
  conversations (fst (fst (handleSubmit R uid w c st db)))
  = map (fun d =>
           if eqb (id d) c then
             mkConversation (id d) (userId d)
               (if (List.length (messages st) =? 0)%nat
                then title_of (trim (input st)) else title d)
               (conv_createdAt d) (now w)
           else d)
      (conversations db).
Proof.
  intros Ht Hl HR HU Hc.
  assert (Htr : str_truthy (trim (input st)) = true).
  { destruct (trim (input st)); [contradiction | reflexivity]. }
  unfold handleSubmit, updateConversationTitle.
  rewrite Htr, Hl; simpl negb; simpl orb; cbv iota zeta.
  unfold addDoc at 1. rewrite HR.
  set (sent := mkMessage user (JStr (trim (input st))) (now w)).
  set (db1 := put_message c sent db).
  assert (Hg1 : Terms.grows_in c 1 db db1) by (subst db1; apply during_sent).
  assert (Hc1 : has_conversation c db1 = true)
    by (subst db1; now rewrite has_conversation_put).
  assert (Hend : forall db3 (x : Firestore * ChatArea * list event) l,
             conversations (fst (fst x)) = conversations db3 ->
             conversations db3 = l ->
             conversations (fst (fst x)) = l) by (intros; congruence).
  destruct (List.length (messages st) =? 0)%nat.
  - rewrite (updateDoc_during R uid c _ db db1 HU Hg1 Hc1).
    set (db2 := patch c _ db1).
    assert (Hg2 : Terms.grows_in c 1 db db2) by (subst db2; apply during_patch; [intros; apply same_retitle | exact Hg1]).
    rewrite (updateDoc_during R uid c _ db db2 HU Hg2)
      by (subst db2; rewrite has_conversation_patch; [exact Hc1|reflexivity]).
    assert (E : conversations (patch c (touch (now w)) db2)
                = map (fun d =>
                         if eqb (id d) c then
                           mkConversation (id d) (userId d)
                             (title_of (trim (input st)))
                             (conv_createdAt d) (now w)
                         else d) (conversations db)).
    { subst db2 db1. simpl. rewrite map_map. apply map_ext. intros d.
      destruct (eqb (id d) c) eqn:E; simpl; now rewrite ?E. }
    destruct (sendMessageToN8n w (trim (input st)) c) as [ev3 [text|]].
    + unfold addDoc.
      destruct (R uid CreateMessage c (patch c (touch (now w)) db2)).
      * exact E.
      * eapply Hend; [apply on_error_conversations | exact E].
    + eapply Hend; [apply on_error_conversations | exact E].
  - rewrite (updateDoc_during R uid c _ db db1 HU Hg1 Hc1).
    assert (E : conversations (patch c (touch (now w)) db1)
                = map (fun d =>
                         if eqb (id d) c then
                           mkConversation (id d) (userId d) (title d)
                             (conv_createdAt d) (now w)
                         else d) (conversations db)).
    { subst db1. simpl. apply map_ext. intros d. now destruct (eqb (id d) c). }
    destruct (sendMessageToN8n w (trim (input st)) c) as [ev3 [text|]].
    + unfold addDoc.
      destruct (R uid CreateMessage c (patch c (touch (now w)) db1)).
      * exact E.
      * eapply Hend; [apply on_error_conversations | exact E].
    + eapply Hend; [apply on_error_conversations | exact E].
Qed.
(** A conversation stamped later than all the others heads the sidebar of
    its owner. *)
Lemma conversationList_top owner (set : Conversation -> Conversation) c db d0 :
  NoDup (map id (conversations db)) ->
  In d0 (conversations db) -> id d0 = c -> userId (set d0) = owner ->
  (forall d, In d (conversations db) -> updatedAt d < updatedAt (set d0)) ->
  exists rest,
    order_by_desc updatedAt
      (filter (fun d => eqb (userId d) owner)
         (map (fun d => if eqb (id d) c then set d else d) (conversations db)))
    = set d0 :: rest.
Proof.
  intros Hnd Hin Hid Hown Hold.
  apply in_split in Hin. destruct Hin as (l1 & l2 & El).
  rewrite El, map_app in Hnd. simpl in Hnd. apply NoDup_remove_2 in Hnd.
  assert (Hother : forall l,
             (forall x, In x l -> In (id x) (map id l1 ++ map id l2)) ->
             map (fun d => if eqb (id d) c then set d else d) l = l).
  { intros l Hl. rewrite <- (map_id l) at 2. apply map_ext_in. intros x Hx.
    destruct (eqb (id x) c) eqn:E; [|reflexivity].
    apply eqb_eq in E. elim Hnd. rewrite Hid, <- E. now apply Hl. }
  rewrite El, map_app. simpl. rewrite Hid, eqb_refl.
  rewrite (Hother l1), (Hother l2).
  - rewrite filter_app. simpl. rewrite Hown, eqb_refl.
    apply order_by_desc_top.
    + intros y Hy. apply filter_In in Hy. destruct Hy as [Hy _].
      apply Hold. rewrite El. apply in_or_app. now left.
    + intros y Hy. apply filter_In in Hy. destruct Hy as [Hy _].
      apply Hold. rewrite El. apply in_or_app. right. now right.
  - intros x Hx. apply in_or_app. right. now apply in_map.
  - intros x Hx. apply in_or_app. left. now apply in_map.
Qed.

End SidebarFacts.

(* ===================================================================== *)
(** * Further properties of the session-based variant *)
(* ===================================================================== *)

(** X1. [isEmailDomainAllowed] looks at the second piece of the address
    split at ['@'] and at nothing else: an address without ['@'] is refused
    whatever the list; an address with one is accepted exactly when what
    stands between its first ['@'] and the next one (or the end) is listed,
    so that what follows a second ['@'] plays no part; and with an empty
    list every address is refused. *)
Theorem email_domain_is_second_piece :
  forall allowed : list jsstring,
    (forall email : jsstring,
        ~ In 64%N email -> Accounts.isEmailDomainAllowed allowed email = false)
    /\ (forall local domain : jsstring,
        ~ In 64%N local -> ~ In 64%N domain ->
        (Accounts.isEmailDomainAllowed allowed (local ++ 64%N :: domain) = true
         <-> In domain allowed)
        /\ forall rest : jsstring,
            Accounts.isEmailDomainAllowed allowed
              (local ++ 64%N :: domain ++ 64%N :: rest)
            = Accounts.isEmailDomainAllowed allowed (local ++ 64%N :: domain))
    /\ (forall email, Accounts.isEmailDomainAllowed [] email = false).
Proof.
  intros allowed. unfold Accounts.isEmailDomainAllowed.
  split; [|split].
  - intros email H. now rewrite split_none.
  - intros local domain Hl Hd.
    destruct (split_second 64%N local domain Hl Hd) as [E1 E2].
    unfold code_unit in *. split.
    + rewrite E1. apply existsb_eqb_In.
    + intros rest. now rewrite E1, E2.
  - intros email. now destruct (nth_error _ 1).
Qed.

(** An address with a second ['@'] passes on the strength of what stands
    before it. *)
Lemma email_domain_is_second_piece_witness :
  Accounts.isEmailDomainAllowed [lit "example.com"]
    (lit "eve" ++ 64%N :: lit "example.com" ++ 64%N :: lit "evil.org")
  = true.
Proof.
  destruct (email_domain_is_second_piece [lit "example.com"]) as [_ [H _]].
  destruct (H (lit "eve") (lit "example.com")) as [Hiff Hrest].
  - vm_compute. intuition discriminate.
  - vm_compute. intuition discriminate.
  - rewrite Hrest. apply Hiff. now left.
Defined.

(** X2. [authenticateToken] takes the second word of the Authorization
    header for the token and never looks at the first: without a header,
    with a header that holds no space, or with two spaces after the first
    word, the request is answered 401 "Access token required"; and a
    header whose second word is the token is treated exactly like the
    header the client's [api] helper builds from that token, whatever the
    first word is and whatever follows the second. *)
Theorem authorization_scheme_is_ignored :
  forall (packages : Accounts.Packages) s w db,
    Accounts.authenticateToken s w None db = inl Accounts.AccessTokenRequired
    /\ (forall header : jsstring,
        ~ In 32%N header ->
        Accounts.authenticateToken s w (Some header) db
        = inl Accounts.AccessTokenRequired)
    /\ (forall scheme rest : jsstring,
        ~ In 32%N scheme ->
        Accounts.authenticateToken s w (Some (scheme ++ 32%N :: 32%N :: rest)) db
        = inl Accounts.AccessTokenRequired)
    /\ (forall scheme token : jsstring,
        ~ In 32%N scheme -> ~ In 32%N token ->
        Accounts.authenticateToken s w (Some (scheme ++ 32%N :: token)) db
        = Accounts.authenticateToken s w (Api.authorization (Some token)) db
        /\ forall rest : jsstring,
            Accounts.authenticateToken s w
              (Some (scheme ++ 32%N :: token ++ 32%N :: rest)) db
            = Accounts.authenticateToken s w (Api.authorization (Some token)) db).
Proof.
  intros packages s w db. unfold Accounts.authenticateToken.
  split; [reflexivity|]. split; [|split].
  - intros header H. now rewrite bearer_no_space.
  - intros scheme rest H. now rewrite bearer_two_spaces.
  - intros scheme token Hs Ht.
    destruct (bearer_second_word scheme token Hs Ht) as [E1 E2].
    rewrite bearer_of_api by exact Ht.
    split; [now rewrite E1|]. intros rest. now rewrite E2.
Qed.

(** The token of user 2 under the scheme word "Basic". *)
Lemma authorization_scheme_is_ignored_witness :
  Accounts.authenticateToken (packages := Scenario.packages) Scenario.strict
    (Sample.at_time 1000 Server.Timeout)
    (Some (lit "Basic" ++ 32%N :: lit "jwt.2")) Sample.db
  = inr Sample.u_bob.
Proof.
  destruct (authorization_scheme_is_ignored Scenario.packages Scenario.strict
              (Sample.at_time 1000 Server.Timeout) Sample.db)
    as [_ [_ [_ H]]].
  destruct (H (lit "Basic") (lit "jwt.2")) as [E _].
  - vm_compute. intuition discriminate.
  - vm_compute. intuition discriminate.
  - rewrite E. reflexivity.
Defined.

(** X3. Registration keeps the accounts distinct: when the ids of [users]
    are distinct and below the sequence and the emails are distinct, they
    are so afterwards, whatever was submitted. A registration answered 400
    (a field missing, a domain not allowed, a password shorter than 8, an
    email already taken) changes nothing; one answered 201 adds exactly one
    row, under the next id; and whatever the answer, a 500 included, the
    table gains that one row at most and loses or changes none. *)
Theorem register_keeps_accounts_distinct :
  forall (packages : Accounts.Packages) s w salt email password firstName
         lastName st,
    Terms.users_keyed st -> Terms.emails_unique (Accounts.tables st) ->
    let '(st', r) :=
      Accounts.register s w salt email password firstName lastName st in
    let one_more :=
      exists row,
        Server.users (Accounts.tables st')
        = Server.users (Accounts.tables st) ++ [row]
        /\ Server.u_id row = Accounts.users_id_seq st in
    Terms.users_keyed st' /\ Terms.emails_unique (Accounts.tables st')
    /\ (Accounts.reply_status r = 400 -> st' = st)
    /\ (Accounts.reply_status r = 201 -> one_more)
    /\ (Server.users (Accounts.tables st') = Server.users (Accounts.tables st)
        \/ one_more).
Proof.
  intros packages s w salt email password firstName lastName st [Hnd Hlt] Hem.
  pose proof (register_shape s w salt email password firstName lastName st) as H.
  destruct (Accounts.register s w salt email password firstName lastName st)
    as [st' r].
  cbv zeta.
  destruct H as [[-> [msg ->]]|(row & Hus & Hid & Hseq & Hex & Hr)].
  - repeat split; auto. intros H. discriminate H.
  - assert (Hfresh : ~ In (Server.u_id row)
                         (map Server.u_id (Server.users (Accounts.tables st)))).
    { rewrite in_map_iff. intros [x [E Hx]]. apply Hlt in Hx. lia. }
    assert (Hnew : ~ In (Server.u_email row)
                       (map Server.u_email (Server.users (Accounts.tables st)))).
    { rewrite in_map_iff. intros [x [E Hx]].
      assert (Hc : existsb (fun x => eqb (Server.u_email x) (Server.u_email row))
                     (Server.users (Accounts.tables st)) = true).
      { apply existsb_exists. exists x. split; [exact Hx|]. rewrite E. apply eqb_refl. }
      congruence. }
    unfold Terms.users_keyed, Terms.emails_unique in *.
    rewrite Hus, Hseq, !map_app. simpl.
    split; [split|split; [|split; [|split]]].
    + apply Permutation_NoDup with (l := Server.u_id row :: map Server.u_id (Server.users (Accounts.tables st))).
      * apply Permutation_cons_append.
      * now constructor.
    + intros u Hu. apply in_app_or in Hu. destruct Hu as [Hu|[<-|[]]].
      * apply Hlt in Hu. lia.
      * lia.
    + apply Permutation_NoDup with (l := Server.u_email row :: map Server.u_email (Server.users (Accounts.tables st))).
      * apply Permutation_cons_append.
      * now constructor.
    + intros E. destruct Hr as [->| ->]; discriminate.
    + intros _. exists row. auto.
    + right. exists row. auto.
Qed.

(** Carol registers on the sample data, and then once more. *)
Lemma register_keeps_accounts_distinct_witness :
  (let '(st', r) := Scenario.register Scenario.strict Scenario.carol (lit "12345678") in
   map Server.u_id (Server.users (Accounts.tables st')) = [1; 2; 3]
   /\ Terms.emails_unique (Accounts.tables st'))
  /\ (let st1 := fst (Scenario.register Scenario.strict Scenario.carol (lit "12345678")) in
      Accounts.register (packages := Scenario.packages) Scenario.strict
        (Sample.at_time 2000 Server.Timeout) (lit "salt") (Some Scenario.carol)
        (Some (lit "12345678")) (Some (lit "Carol")) (Some (lit "C")) st1
      = (st1, Accounts.Refused 400 "User already exists")).
Proof.
  assert (K : Terms.users_keyed Scenario.state).
  { split.
    - vm_compute. repeat (constructor; [simpl; intuition discriminate|]).
      constructor.
    - intros u Hu. vm_compute in Hu. destruct Hu as [<-|[<-|[]]]; vm_compute; reflexivity. }
  assert (U : Terms.emails_unique (Accounts.tables Scenario.state)).
  { vm_compute. repeat (constructor; [simpl; intuition discriminate|]).
    constructor. }
  pose proof (register_keeps_accounts_distinct Scenario.packages Scenario.strict
                (Sample.at_time 1000 Server.Timeout) (lit "salt")
                (Some Scenario.carol) (Some (lit "12345678")) (Some (lit "Carol"))
                (Some (lit "C")) Scenario.state K U) as H.
  split.
  - unfold Scenario.register.
    destruct (Accounts.register _ _ _ _ _ _ _ _) as [st' r] eqn:E.
    destruct H as [_ [H _]]. split; [|exact H].
    apply (f_equal fst) in E. simpl in E. subst st'. vm_compute. reflexivity.
  - vm_compute. reflexivity.
Defined.

(** X4. An account that was just registered can log in with the password
    it registered with, provided the hash comparison accepts a password
    against its own hash: when email verification is not required the
    login succeeds and returns the token signed for the new id; when it is
    required the login is answered EMAIL_NOT_VERIFIED for the registered
    address. *)
Theorem register_then_login :
  forall (libraries : Server.Libraries) (packages : Accounts.Packages)
         s w w' salt e p f l st st' u,
    Accounts.register s w salt (Some e) (Some p) (Some f) (Some l) st
    = (st', Accounts.Registered u) ->
    Server.bcrypt_compare p (Accounts.bcrypt_hash salt p) = true ->
    snd (Server.login (Accounts.base s) w' (Some e) (Some p) (Accounts.tables st'))
    = if Server.auth_requireEmailVerification (Accounts.base s)
      then Server.EmailNotVerified e
      else Server.LoggedIn (Server.jwt_sign (Server.u_id u)) u.
Proof.
  intros libraries packages s w w' salt e p f l st st' u Hreg Hcmp.
  apply register_created in Hreg.
  destruct Hreg as (e' & p' & f' & l' & [= <-] & [= <-] & [= <-] & [= <-] & He & Hp
                    & _ & _ & Hex & Hu & Hus & _).
  assert (Hfind : find (fun r => eqb (Server.u_email r) e && Server.u_is_active r)
                    (Server.users (Accounts.tables st')) = Some u).
  { rewrite Hus.
    rewrite (find_last _ _ (fun r => eqb (Server.u_email r) e)) by
        (auto; intros y Hy; now apply andb_prop in Hy).
    subst u. simpl. now rewrite eqb_refl. }
  destruct (Server.auth_requireEmailVerification (Accounts.base s)) eqn:Ereq.
  - unfold Server.login.
    destruct e as [|c e]; [now elim He|]. destruct p as [|d p]; [now elim Hp|].
    simpl Server.given. cbv iota. rewrite Hfind, Ereq. subst u. reflexivity.
  - apply login_after; auto.
    + now rewrite Ereq.
    + subst u. exact Hcmp.
Qed.

(** Carol registers and logs in, with verification required and without. *)
Lemma register_then_login_witness :
  snd (Server.login (libraries := Fragment.libraries) Sample.cfg
         (Sample.at_time 2000 Server.Timeout) (Some Scenario.carol)
         (Some (lit "12345678"))
         (Accounts.tables (fst (Scenario.register Scenario.strict Scenario.carol
                                  (lit "12345678")))))
  = Server.EmailNotVerified Scenario.carol
  /\ Server.token_of
       (snd (Server.login (libraries := Fragment.libraries)
               (Accounts.base Scenario.relaxed)
               (Sample.at_time 2000 Server.Timeout) (Some Scenario.carol)
               (Some (lit "12345678"))
               (Accounts.tables (fst (Scenario.register Scenario.relaxed
                                        Scenario.carol (lit "12345678"))))))
     = Some (lit "jwt.3").
Proof.
  split.
  - destruct (Scenario.register Scenario.strict Scenario.carol (lit "12345678"))
      as [st' r] eqn:E.
    assert (Er : r = snd (Scenario.register Scenario.strict Scenario.carol
                            (lit "12345678"))) by now rewrite E.
    vm_compute in Er. subst r.
    exact (register_then_login Fragment.libraries Scenario.packages
             Scenario.strict _ (Sample.at_time 2000 Server.Timeout) _ _ _ _ _ _ _ _
             E eq_refl).
  - destruct (Scenario.register Scenario.relaxed Scenario.carol (lit "12345678"))
      as [st' r] eqn:E.
    assert (Er : r = snd (Scenario.register Scenario.relaxed Scenario.carol
                            (lit "12345678"))) by now rewrite E.
    vm_compute in Er. subst r. cbv beta iota delta [fst].
    rewrite (register_then_login Fragment.libraries Scenario.packages
               Scenario.relaxed _ (Sample.at_time 2000 Server.Timeout) _ _ _ _ _ _ _ _
               E eq_refl).
    reflexivity.
Defined.

(** X5. The token issued at registration verifies the account. When
    email verification is required and the feature is on, the link that
    carries the token of a registration, followed through the router before
    it expires, is answered 200 "Email Verified Successfully"; it sets the
    verified flag of the new account and leaves every other account as it
    was; and the login that was refused before now succeeds. *)
Theorem registration_token_verifies_account :
  forall (libraries : Server.Libraries) (packages : Accounts.Packages)
         s w w1 w2 salt e p f l st st' u,
    Terms.users_keyed st ->
    Server.auth_requireEmailVerification (Accounts.base s) = true ->
    Accounts.features_emailVerification s = true ->
    Accounts.register s w salt (Some e) (Some p) (Some f) (Some l) st
    = (st', Accounts.Registered u) ->
    Server.randomBytes w <> [] ->
    Server.now w1
    <= Server.now w + Server.verification_expiryHours (Accounts.base s) * 3600000 ->
    Server.bcrypt_compare p (Accounts.bcrypt_hash salt p) = true ->
    let '(db1, v) :=
      Accounts.router_verifyEmail w1 (Some (Server.randomBytes w))
        (Accounts.tables st') in
    v = Accounts.Verification 200 true "Email Verified Successfully"
    /\ Server.users db1
       = Server.users (Accounts.tables st) ++ [Terms.verified u]
    /\ snd (Server.login (Accounts.base s) w2 (Some e) (Some p) db1)
       = Server.LoggedIn (Server.jwt_sign (Server.u_id u)) (Terms.verified u).
Proof.
  intros libraries packages s w w1 w2 salt e p f l st st' u [_ Hlt] Hreq Hfeat
         Hreg Hrand Htime Hcmp.
  apply register_created in Hreg.
  destruct Hreg as (e' & p' & f' & l' & [= <-] & [= <-] & [= <-] & [= <-] & He & Hp
                    & _ & _ & Hex & Hu & Hus & _ & _ & _ & _ & Htoks & Hfresh).
  rewrite Hfeat, Hreq in Htoks, Hfresh. simpl in Htoks.
  specialize (Hfresh eq_refl).
  assert (Hid : Server.u_id u = Accounts.users_id_seq st) by now subst u.
  assert (Hjoin : Accounts.tokens_with_users (Server.randomBytes w) (Accounts.tables st')
                  = [(Server.mkToken (Server.tokens_id_seq (Accounts.tables st))
                        (Accounts.users_id_seq st) (Server.randomBytes w)
                        (Server.now w
                         + Server.verification_expiryHours (Accounts.base s) * 3600000)
                        (Server.now w) None false, u)]).
  { eapply tokens_with_users_fresh; eauto.
    intros x Hx. rewrite Hid. now apply Hlt. }
  unfold Accounts.router_verifyEmail.
  destruct (Server.randomBytes w) as [|c r] eqn:Er; [now elim Hrand|].
  simpl Server.given. cbv iota. rewrite Hjoin. simpl.
  destruct (Z.ltb_spec
              (Server.now w + Server.verification_expiryHours (Accounts.base s) * 3600000)
              (Server.now w1)) as [Hbad|_]; [lia|].
  assert (Hv : Server.u_email_verified u = false) by (subst u; simpl; now rewrite Hreq).
  rewrite Hv.
  assert (Hold : map (fun x => if Server.u_id x =? Server.u_id u
                               then Terms.verified x else x)
                   (Server.users (Accounts.tables st))
                 = Server.users (Accounts.tables st)).
  { rewrite <- (map_id (Server.users (Accounts.tables st))) at 2.
    apply map_ext_in. intros x Hx. apply Hlt in Hx.
    destruct (Z.eqb_spec (Server.u_id x) (Server.u_id u)); [lia|reflexivity]. }
  assert (Husers : Server.users
                     (Accounts.mark_used (Server.tokens_id_seq (Accounts.tables st))
                        (Server.now w1)
                        (Accounts.set_verified (Server.u_id u) (Accounts.tables st')))
                   = Server.users (Accounts.tables st) ++ [Terms.verified u]).
  { simpl. rewrite Hus, map_app. simpl. rewrite Z.eqb_refl.
    fold (Terms.verified u).
    change (fun u0 => if Server.u_id u0 =? Server.u_id u
                      then Server.mkUser (Server.u_id u0) (Server.u_email u0)
                             (Server.u_password_hash u0) (Server.u_first_name u0)
                             (Server.u_last_name u0) (Server.u_is_active u0) true
                             (Server.u_last_login u0)
                      else u0)
      with (fun x => if Server.u_id x =? Server.u_id u then Terms.verified x else x).
    now rewrite Hold. }
  split; [reflexivity|]. split; [exact Husers|].
  apply (login_after s w2 e p (Terms.verified u)); auto.
  - rewrite Husers.
    rewrite (find_last _ _ (fun r => eqb (Server.u_email r) e)) by
        (auto; intros y Hy; now apply andb_prop in Hy).
    subst u. simpl. now rewrite eqb_refl.
  - simpl. now rewrite andb_false_r.
  - subst u. exact Hcmp.
Qed.

(** Carol registers, follows the link a minute later and logs in. *)
Lemma registration_token_verifies_account_witness :
  let st' := fst (Scenario.register Scenario.strict Scenario.carol (lit "12345678")) in
  let '(db1, v) :=
    Accounts.router_verifyEmail (Sample.at_time 61000 Server.Timeout)
      (Some (lit "fresh-token")) (Accounts.tables st') in
  v = Accounts.Verification 200 true "Email Verified Successfully"
  /\ Server.token_of
       (snd (Server.login (libraries := Fragment.libraries) Sample.cfg
               (Sample.at_time 62000 Server.Timeout) (Some Scenario.carol)
               (Some (lit "12345678")) db1))
     = Some (lit "jwt.3").
Proof.
  assert (K : Terms.users_keyed Scenario.state).
  { split.
    - vm_compute. repeat (constructor; [simpl; intuition discriminate|]).
      constructor.
    - intros u Hu. vm_compute in Hu. destruct Hu as [<-|[<-|[]]]; vm_compute; reflexivity. }
  destruct (Scenario.register Scenario.strict Scenario.carol (lit "12345678"))
    as [st' r] eqn:E.
  assert (Er : r = snd (Scenario.register Scenario.strict Scenario.carol
                          (lit "12345678"))) by now rewrite E.
  vm_compute in Er. subst r. cbv beta iota zeta delta [fst].
  pose proof (registration_token_verifies_account Fragment.libraries
                Scenario.packages Scenario.strict
                (Sample.at_time 1000 Server.Timeout)
                (Sample.at_time 61000 Server.Timeout)
                (Sample.at_time 62000 Server.Timeout)
                _ _ _ _ _ _ _ _ K eq_refl eq_refl E
                ltac:(discriminate) ltac:(vm_compute; discriminate) eq_refl) as H.
  change (Server.randomBytes (Sample.at_time 1000 Server.Timeout))
    with (lit "fresh-token") in H.
  destruct (Accounts.router_verifyEmail _ _ _) as [db1 v].
  destruct H as [Hv [_ Hl]]. split; [exact Hv|].
  change Sample.cfg with (Accounts.base Scenario.strict).
  now rewrite Hl.
Defined.

(** X6. A verification link of the router works once. Every refusal
    (400) leaves the store exactly as it was; and after an answer of 200,
    whichever of the two it was, the same link is refused with 400 at any
    later time, again without a change to the store. *)
Theorem verification_link_is_single_use :
  forall w token db,
    let '(db1, v) := Accounts.router_verifyEmail w token db in
    match v with
    | Accounts.Verification status success _ =>
        (status = 400 /\ success = false /\ db1 = db)
        \/ (status = 200 /\ success = true
            /\ forall w2, exists title,
                Accounts.router_verifyEmail w2 token db1
                = (db1, Accounts.Verification 400 false title))
    end.
Proof.
  intros w token db. unfold Accounts.router_verifyEmail at 1.
  destruct (Server.given token) as [tok|] eqn:Eg; [|now left].
  destruct (Accounts.tokens_with_users tok db) as [|[tokenData u] rest] eqn:Ej;
    [now left|].
  destruct (_ <? _); [now left|].
  destruct (Server.t_is_used tokenData) eqn:Eused; [now left|].
  assert (Hagain : forall db0 h,
             (forall x, Server.u_id (h x) = Server.u_id x) ->
             Accounts.tokens_with_users tok db0
             = map (fun row => (fst row, h (snd row))) (Accounts.tokens_with_users tok db) ->
             forall w2, exists title,
               Accounts.router_verifyEmail w2 token
                 (Accounts.mark_used (Server.t_id tokenData) (Server.now w) db0)
               = (Accounts.mark_used (Server.t_id tokenData) (Server.now w) db0,
                  Accounts.Verification 400 false title)).
  { intros db0 h Hh Hj w2. unfold Accounts.router_verifyEmail. rewrite Eg.
    unfold Accounts.mark_used at 1.
    rewrite tokens_with_users_set_tokens by (intros r; now destruct (_ =? _)).
    rewrite Hj, Ej. simpl. rewrite Z.eqb_refl. simpl.
    destruct (_ <? _); eauto. }
  destruct (Server.u_email_verified u); right; repeat split.
  - apply (Hagain db (fun x => x)); [reflexivity|].
    rewrite <- (map_id (Accounts.tokens_with_users tok db)) at 1.
    apply map_ext. now intros [a b].
  - apply (Hagain (Accounts.set_verified (Server.u_id u) db)
             (fun x => if Server.u_id x =? Server.u_id u
                       then Terms.verified x else x)).
    + intros x. now destruct (_ =? _).
    + apply tokens_with_users_set_users. intros x. now destruct (_ =? _).
Qed.

(** X7. The link of the verification page works once too. The two 400
    pages leave the store as it was; after the page that welcomes the
    owner of the token, the same link yields the page "Invalid or expired
    verification token" at any later time and changes nothing (tokens
    being distinct, as the UNIQUE column has them). The page stamps
    [used_at] only: the [is_used] flags of the tokens are what they were. *)
Theorem verification_page_is_single_use :
  forall s w token st,
    Terms.tokens_unique (Accounts.tables st) ->
    let '(st1, p) := Accounts.verifyEmailPage s w token st in
    (Accounts.page_status p = 400 -> st1 = st)
    /\ (Accounts.page_status p = 200 ->
        (forall w2,
            Accounts.verifyEmailPage s w2 token st1
            = (st1, Accounts.InvalidOrExpired))
        /\ map Server.t_is_used
             (Server.email_verification_tokens (Accounts.tables st1))
           = map Server.t_is_used
               (Server.email_verification_tokens (Accounts.tables st))).
Proof.
  intros s w token st Huniq. unfold Accounts.verifyEmailPage at 1.
  destruct (Server.given token) as [tok|] eqn:Eg; [|split; [reflexivity|discriminate]].
  destruct (filter _ (Accounts.tokens_with_users tok (Accounts.tables st)))
    as [|[verification u] rest] eqn:Ef; [split; [reflexivity|discriminate]|].
  split; [discriminate|]. intros _.
  assert (Hin : In (verification, u)
                  (Accounts.tokens_with_users tok (Accounts.tables st))).
  { eapply proj1. apply filter_In. rewrite Ef. now left. }
  split.
  - intros w2. unfold Accounts.verifyEmailPage. rewrite Eg.
    cbn [Accounts.tables Accounts.with_tables].
    rewrite tables_logAudit. cbn [Accounts.tables Accounts.with_tables].
    unfold Accounts.tokens_with_users at 1.
    rewrite users_logUserActivity, tokens_logUserActivity.
    fold (Accounts.tokens_with_users tok
            (Accounts.stamp_used (Server.t_id verification) (Server.now w)
               (Accounts.set_verified (Server.t_user_id verification)
                  (Accounts.tables st)))).
    unfold Accounts.stamp_used.
    rewrite tokens_with_users_set_tokens by (intros r; now destruct (_ =? _)).
    unfold Accounts.set_verified.
    rewrite tokens_with_users_set_users by (intros x; now destruct (_ =? _)).
    rewrite map_map.
    rewrite filter_none; [reflexivity|].
    apply not_true_is_false. intros H. apply existsb_exists in H.
    destruct H as [row [Hrow Hok]]. apply in_map_iff in Hrow.
    destruct Hrow as [[r x] [<- Hrx]]. simpl in Hok.
    assert (E : r = verification)
      by exact (tokens_with_users_one tok _ (r, x) (verification, u) Huniq Hrx Hin).
    subst r. rewrite Z.eqb_refl in Hok. simpl in Hok.
    now rewrite andb_false_r in Hok.
  - simpl. rewrite tokens_logUserActivity, tables_logAudit. simpl.
    rewrite map_map. apply map_ext. intros r. now destruct (_ =? _).
Qed.

(** Alice follows an old link of hers on the sample data, twice. *)
Lemma verification_page_is_single_use_witness :
  let '(st1, p) :=
    Accounts.verifyEmailPage Scenario.strict (Sample.at_time 400 Server.Timeout)
      (Some (lit "old-token-a")) Scenario.state in
  p = Accounts.Welcome (lit "Alice") (lit "alice@example.com")
  /\ Accounts.verifyEmailPage Scenario.strict (Sample.at_time 450 Server.Timeout)
       (Some (lit "old-token-a")) st1
     = (st1, Accounts.InvalidOrExpired).
Proof.
  assert (U : Terms.tokens_unique (Accounts.tables Scenario.state)).
  { vm_compute. repeat (constructor; [simpl; intuition discriminate|]).
    constructor. }
  pose proof (verification_page_is_single_use Scenario.strict
                (Sample.at_time 400 Server.Timeout) (Some (lit "old-token-a"))
                Scenario.state U) as H.
  destruct (Accounts.verifyEmailPage _ _ _ _) as [st1 p] eqn:E.
  assert (Ep : p = snd (Accounts.verifyEmailPage Scenario.strict
                          (Sample.at_time 400 Server.Timeout)
                          (Some (lit "old-token-a")) Scenario.state))
    by now rewrite E.
  vm_compute in Ep. subst p. split; [reflexivity|].
  destruct H as [_ H]. destruct (H eq_refl) as [H2 _]. apply H2.
Defined.

(** X8. The token a login returns opens the chat routes: sent the way the
    client's [api] helper sends it, and as long as it verifies for the id
    it was signed for, [authenticateToken] lets the request through as the
    account that logged in, with its last login stamped (ids being
    distinct, and the token free of spaces, as a JWT is). *)
Theorem login_token_authenticates :
  forall (libraries : Server.Libraries) (packages : Accounts.Packages)
         s w w' email password db db' token u,
    Server.login (Accounts.base s) w email password db
    = (db', Server.LoggedIn token u) ->
    NoDup (map Server.u_id (Server.users db)) ->
    Accounts.jwt_verify (Server.now w') token = Some (Server.u_id u) ->
    ~ In 32%N token -> token <> [] ->
    Accounts.authenticateToken s w' (Api.authorization (Some token)) db'
    = inr (Server.mkUser (Server.u_id u) (Server.u_email u)
             (Server.u_password_hash u) (Server.u_first_name u)
             (Server.u_last_name u) (Server.u_is_active u)
             (Server.u_email_verified u) (Some (Server.now w))).
Proof.
  intros libraries packages s w w' email password db db' token u Hlogin Hnd Hver
         Hsp Hne.
  unfold Server.login in Hlogin.
  destruct (Server.given email) as [e|]; [|discriminate].
  destruct (Server.given password) as [p|]; [|discriminate].
  destruct (find _ (Server.users db)) as [x|] eqn:Ef; [|discriminate].
  destruct (Server.auth_requireEmailVerification (Accounts.base s)
            && negb (Server.u_email_verified x)) eqn:Ev; [discriminate|].
  destruct (negb (Server.bcrypt_compare p (Server.u_password_hash x)));
    [discriminate|].
  injection Hlogin as <- _ <-.
  apply find_some in Ef. destruct Ef as [Hin Hx].
  apply andb_prop in Hx. destruct Hx as [_ Hact].
  unfold Accounts.authenticateToken.
  rewrite bearer_of_api by exact Hsp.
  destruct token as [|c t]; [now elim Hne|]. simpl Server.given. cbv iota.
  rewrite Hver, users_logUserActivity. simpl Server.users.
  rewrite find_map by
      (intros y; destruct (Server.u_id y =? Server.u_id x) eqn:E; simpl;
       now rewrite ?E).
  rewrite (find_unique _ _ _ x); auto.
  - simpl. rewrite Z.eqb_refl. simpl. now rewrite Ev.
  - now rewrite Z.eqb_refl, Hact.
  - intros y Hy Hfy. apply andb_prop in Hfy. destruct Hfy as [Hfy _].
    apply Z.eqb_eq in Hfy.
    now apply (NoDup_map_eq _ _ Server.u_id (Server.users db)).
Qed.

(** Bob logs in on the sample data and presents his token. *)
Lemma login_token_authenticates_witness :
  Accounts.authenticateToken (packages := Scenario.packages) Scenario.strict
    (Sample.at_time 2000 Server.Timeout)
    (Api.authorization (Some (lit "jwt.2")))
    (fst (Server.login (libraries := Fragment.libraries) Sample.cfg
            (Sample.at_time 1000 Server.Timeout) (Some (lit "bob@example.com"))
            (Some (lit "battery staple")) Sample.db))
  = inr (Server.mkUser 2 (lit "bob@example.com") (lit "battery staple")
           (lit "Bob") (lit "B") true true (Some 1000)).
Proof.
  destruct (Server.login (libraries := Fragment.libraries) Sample.cfg
              (Sample.at_time 1000 Server.Timeout) (Some (lit "bob@example.com"))
              (Some (lit "battery staple")) Sample.db) as [db' r] eqn:E.
  assert (Er : r = snd (Server.login (libraries := Fragment.libraries) Sample.cfg
                          (Sample.at_time 1000 Server.Timeout)
                          (Some (lit "bob@example.com"))
                          (Some (lit "battery staple")) Sample.db))
    by now rewrite E.
  vm_compute in Er. subst r.
  refine (login_token_authenticates Fragment.libraries Scenario.packages
            Scenario.strict _ (Sample.at_time 2000 Server.Timeout) _ _ _ _ _ _
            E _ eq_refl _ _).
  - vm_compute. repeat (constructor; [simpl; intuition discriminate|]).
    constructor.
  - vm_compute. intuition discriminate.
  - discriminate.
Defined.

(** X9. Nothing is written for a caller who is not authenticated, and
    messages are written for the owner of the session only. If a request
    to the chat routes changes the store at all, the second word of its
    Authorization header is a token that verifies for the id of an active
    account (a verified one, when verification is required); no route
    changes the accounts; and if the request changes the messages, it is a
    post of a non-empty text into an active session of that account. *)
Theorem only_authenticated_owner_writes :
  forall (engine : Engine) (libraries : Server.Libraries)
         (packages : Accounts.Packages) s w h c st,
    let '(st', a) := Accounts.api s w h c st in
    Server.users (Accounts.tables st') = Server.users (Accounts.tables st)
    /\ (st' <> st ->
        exists token u,
          Accounts.bearer h = Some token
          /\ Accounts.jwt_verify (Server.now w) token = Some (Server.u_id u)
          /\ In u (Server.users (Accounts.tables st))
          /\ Server.u_is_active u = true
          /\ (Server.auth_requireEmailVerification (Accounts.base s) = true ->
              Server.u_email_verified u = true)
          /\ (Server.messages (Accounts.tables st')
              <> Server.messages (Accounts.tables st) ->
              exists sid m,
                c = Accounts.OnSession sid (Server.PostMessage (Some m))
                /\ m <> []
                /\ existsb (Server.owns_active (Server.u_id u) sid)
                     (Server.chat_sessions (Accounts.tables st)) = true)).
Proof.
  intros engine libraries packages s w h c [tables audit useq cseq].
  set (st := Accounts.mkState tables audit useq cseq).
  unfold Accounts.api.
  assert (Hsame : Server.users (Accounts.tables st) = Server.users (Accounts.tables st)
                  /\ (st <> st -> exists token u,
                         Accounts.bearer h = Some token
                         /\ Accounts.jwt_verify (Server.now w) token
                            = Some (Server.u_id u)
                         /\ In u (Server.users (Accounts.tables st))
                         /\ Server.u_is_active u = true
                         /\ (Server.auth_requireEmailVerification (Accounts.base s)
                             = true -> Server.u_email_verified u = true)
                         /\ (Server.messages (Accounts.tables st)
                             <> Server.messages (Accounts.tables st) ->
                             exists sid m,
                               c = Accounts.OnSession sid (Server.PostMessage (Some m))
                               /\ m <> []
                               /\ existsb (Server.owns_active (Server.u_id u) sid)
                                    (Server.chat_sessions (Accounts.tables st))
                                  = true))).
  { split; [reflexivity|]. intros H. now elim H. }
  destruct (Accounts.authenticateToken s w h (Accounts.tables st)) as [d|u] eqn:Ea.
  - destruct c as [sid [| | |]| |]; exact Hsame.
  - apply authenticateToken_passes in Ea.
    destruct Ea as (token & Hb & Hv & Hin & Hact & Hreq).
    destruct c as [sid req| |name].
    + destruct req as [page limit|message| |verb]; try exact Hsame.
      * pose proof (serve_store (Accounts.base s) w u sid
                      (Server.PostMessage message) (Accounts.tables st)) as H.
        destruct (Server.serve (Accounts.base s) w u sid
                    (Server.PostMessage message) (Accounts.tables st)) as [db' r].
        destruct H as (Hu & _ & _ & new & Hm & _ & _ & _ & Hnew).
        simpl. split; [exact Hu|]. intros _.
        exists token, u. repeat split; auto.
        intros Hch. destruct Hnew as [Ho [m [E Hm']]].
        { intros ->. rewrite app_nil_r in Hm. contradiction. }
        injection E as ->. eauto.
      * pose proof (serve_store (Accounts.base s) w u sid Server.DeleteSession
                      (Accounts.tables st)) as H.
        destruct (Server.serve (Accounts.base s) w u sid Server.DeleteSession
                    (Accounts.tables st)) as [db' r].
        destruct H as (Hu & _ & _ & new & Hm & _ & _ & _ & Hnew).
        simpl. split; [exact Hu|]. intros _.
        exists token, u. repeat split; auto.
        intros Hch. destruct Hnew as [_ [m [E _]]]; [|discriminate E].
        intros ->. rewrite app_nil_r in Hm. contradiction.
    + exact Hsame.
    + unfold Accounts.createSession. simpl.
      rewrite users_logUserActivity, messages_logUserActivity. simpl.
      split; [reflexivity|]. intros _.
      exists token, u. repeat split; auto. intros H. now elim H.
Qed.

(** Bob's post with his token changes the store; the same post without a
    token is answered 401 and changes nothing. *)
Lemma only_authenticated_owner_writes_witness :
  (exists token u,
      Accounts.bearer (Api.authorization (Some (lit "jwt.2"))) = Some token
      /\ Accounts.jwt_verify (Packages := Scenario.packages) 1000 token
         = Some (Server.u_id u)
      /\ In u (Server.users Sample.db) /\ Server.u_is_active u = true)
  /\ Accounts.api (engine := Fragment.engine) (libraries := Fragment.libraries)
       (packages := Scenario.packages) Scenario.strict
       (Sample.at_time 1000 Server.Timeout) None
       (Accounts.OnSession 2 (Server.PostMessage (Some Sample.hello)))
       Scenario.state
     = (Scenario.state, Accounts.Denied Accounts.AccessTokenRequired).
Proof.
  split; [|reflexivity].
  pose proof (only_authenticated_owner_writes Fragment.engine Fragment.libraries
                Scenario.packages Scenario.strict
                (Sample.at_time 1000 Server.Timeout)
                (Api.authorization (Some (lit "jwt.2")))
                (Accounts.OnSession 2 (Server.PostMessage (Some Sample.hello)))
                Scenario.state) as H.
  destruct (Accounts.api _ _ _ _ _) as [st' a] eqn:E.
  destruct H as [_ H].
  destruct H as (token & u & Hb & Hv & Hin & Hact & _).
  - apply (f_equal fst) in E. simpl in E. subst st'.
    intros Heq. apply (f_equal (fun st => List.length (Server.messages (Accounts.tables st)))) in Heq.
    vm_compute in Heq. discriminate.
  - exists token, u. auto.
Defined.

(** X10. The chat routes only ever append to [messages]. Whatever the
    request on a session (a read, a post, a delete, an unrouted verb) and
    whatever the webhook does, the accounts and the tokens are left alone,
    every stored message stays as it is and where it is, every session
    keeps its id, owner, name and creation time, and at most two rows are
    added: they carry the session addressed, the caller, and the next ids
    of the sequence. Rows are added only by a post of a non-empty text
    into an active session of the caller. *)
Theorem chat_requests_append_only :
  forall (engine : Engine) (libraries : Server.Libraries) cfg w u sid req db,
    let '(db', r) := Server.serve cfg w u sid req db in
    Server.users db' = Server.users db
    /\ Server.email_verification_tokens db' = Server.email_verification_tokens db
    /\ map Terms.session_identity (Server.chat_sessions db')
       = map Terms.session_identity (Server.chat_sessions db)
    /\ exists new,
        Server.messages db' = Server.messages db ++ new
        /\ Server.messages_id_seq db'
           = Server.messages_id_seq db + Z.of_nat (List.length new)
        /\ (List.length new <= 2)%nat
        /\ (forall i row,
              nth_error new i = Some row ->
              Server.m_id row = Server.messages_id_seq db + Z.of_nat i
              /\ Server.m_session_id row = sid
              /\ Server.m_user_id row = Server.u_id u)
        /\ (new <> [] ->
            existsb (Server.owns_active (Server.u_id u) sid)
              (Server.chat_sessions db) = true
            /\ exists m, req = Server.PostMessage (Some m) /\ m <> []).
Proof.
  intros engine libraries cfg w u sid req db.
  exact (serve_store cfg w u sid req db).
Qed.

(** Alice's third post on the sample data, answered by the webhook: her
    two messages stay in front, two rows are added. *)
Lemma chat_requests_append_only_witness :
  let '(db', _) :=
    Server.serve (engine := Fragment.engine) (libraries := Fragment.libraries)
      Sample.cfg (Sample.at_time 3000 (Server.Replied 200 Sample.hi_object))
      Sample.u_alice 1 (Server.PostMessage (Some Sample.hello)) Sample.db_two in
  Server.users db' = Server.users Sample.db_two
  /\ firstn 2 (Server.messages db') = Server.messages Sample.db_two
  /\ map Server.m_id (Server.messages db') = [1; 2; 3; 4].
Proof.
  pose proof (chat_requests_append_only Fragment.engine Fragment.libraries
                Sample.cfg (Sample.at_time 3000 (Server.Replied 200 Sample.hi_object))
                Sample.u_alice 1 (Server.PostMessage (Some Sample.hello))
                Sample.db_two) as H.
  destruct (Server.serve _ _ _ _ _ _) as [db' r] eqn:E.
  destruct H as (Hu & _ & _ & new & Hm & _).
  split; [exact Hu|]. split.
  - rewrite Hm.
    change 2%nat with (List.length (Server.messages Sample.db_two) + 0)%nat.
    rewrite firstn_app_2. apply app_nil_r.
  - apply (f_equal fst) in E. simpl in E. subst db'. vm_compute. reflexivity.
Defined.

(** X11. The ids of the messages stay distinct: when they are distinct
    and below the sequence before a request on a session, they are so
    after it. *)
Theorem message_ids_stay_distinct :
  forall (engine : Engine) (libraries : Server.Libraries) cfg w u sid req db,
    Terms.messages_keyed db ->
    Terms.messages_keyed (fst (Server.serve cfg w u sid req db)).
Proof.
  intros engine libraries cfg w u sid req db [Hnd Hlt].
  pose proof (serve_store cfg w u sid req db) as H.
  destruct (Server.serve cfg w u sid req db) as [db' r]. simpl.
  destruct H as (_ & _ & _ & new & Hm & Hseq & _ & Hnew & _).
  unfold Terms.messages_keyed. rewrite Hm, Hseq. split.
  - rewrite map_app. apply NoDup_app.
    + exact Hnd.
    + apply NoDup_nth_error. intros i j Hi E.
      rewrite length_map in Hi.
      rewrite !nth_error_map in E.
      destruct (nth_error new i) as [a|] eqn:Ea;
        [|apply nth_error_None in Ea; lia].
      destruct (nth_error new j) as [b|] eqn:Eb; [|discriminate].
      injection E as E.
      apply Hnew in Ea, Eb. lia.
    + intros x Hx Hx'. apply in_map_iff in Hx, Hx'.
      destruct Hx as [a [<- Ha]], Hx' as [b [E Hb]].
      apply Hlt in Ha. apply In_nth_error in Hb. destruct Hb as [i Hb].
      apply Hnew in Hb. lia.
  - intros m Hin. apply in_app_or in Hin. destruct Hin as [Hin|Hin].
    + apply Hlt in Hin. lia.
    + apply In_nth_error in Hin. destruct Hin as [i Hi].
      pose proof (proj1 (nth_error_Some new i) ltac:(congruence)) as Hlen.
      apply Hnew in Hi. lia.
Qed.

(** After two posts on the sample data. *)
Lemma message_ids_stay_distinct_witness :
  Terms.messages_keyed
    (fst (Server.serve (engine := Fragment.engine)
            (libraries := Fragment.libraries) Sample.cfg
            (Sample.at_time 3000 (Server.Replied 200 Sample.hi_object))
            Sample.u_alice 1 (Server.PostMessage (Some Sample.hello))
            Sample.db_two)).
Proof.
  apply message_ids_stay_distinct. split.
  - vm_compute. repeat (constructor; [simpl; intuition discriminate|]).
    constructor.
  - intros m Hm. vm_compute in Hm.
    destruct Hm as [<-|[<-|[]]]; vm_compute; reflexivity.
Defined.

(** X12. [GET /api/chat/sessions] returns exactly the caller's active
    sessions: a row is in the list if and only if it is an active session
    of the caller paired with the number of messages stored for it; the
    list has one entry for each such session of the table; and it is
    ordered by [updated_at], latest first. *)
Theorem session_list_is_exact :
  forall u db,
    (forall cs n,
        In (cs, n) (Accounts.listSessions u db)
        <-> In cs (Server.chat_sessions db)
            /\ Server.cs_user_id cs = Server.u_id u
            /\ Server.cs_is_active cs = true
            /\ n = List.length
                     (filter (fun m => Server.cs_id cs =? Server.m_session_id m)
                        (Server.messages db)))
    /\ Permutation (map fst (Accounts.listSessions u db))
         (filter (fun cs => (Server.cs_user_id cs =? Server.u_id u)
                            && Server.cs_is_active cs)
            (Server.chat_sessions db))
    /\ StronglySorted
         (fun a b => Server.cs_updated_at (fst b) <= Server.cs_updated_at (fst a))
         (Accounts.listSessions u db).
Proof.
  intros u db. unfold Accounts.listSessions. split; [|split].
  - intros cs n. split.
    + intros H.
      apply (Permutation_in _ (order_by_desc_perm _ _ _)) in H.
      apply in_map_iff in H. destruct H as [x [[= <- <-] Hx]].
      apply filter_In in Hx. destruct Hx as [Hin Hx].
      apply andb_prop in Hx. destruct Hx as [Hu Ha]. apply Z.eqb_eq in Hu.
      auto.
    + intros (Hin & Hu & Ha & ->).
      apply (Permutation_in _ (Permutation_sym (order_by_desc_perm _ _ _))).
      apply in_map_iff. exists cs. split; [reflexivity|].
      apply filter_In. split; [exact Hin|].
      rewrite Hu, Z.eqb_refl, Ha. reflexivity.
  - rewrite (Permutation_map fst (order_by_desc_perm _ _ _)).
    rewrite map_map. simpl. now rewrite map_id.
  - apply (order_by_desc_sorted _ (fun row => Server.cs_updated_at (fst row))).
Qed.

(** X13. A session that was just created is listed and can be posted
    into. [POST /api/chat/sessions] names the session as asked, or
    "Chat " followed by the time in ISO format when no name or an empty
    one is given; the new session appears in the list of its creator with
    a count of zero messages, is an active session of the creator, appears
    in nobody else's list, and the keys of the sessions remain distinct. *)
Theorem created_session_is_listed :
  forall (packages : Accounts.Packages) s w u name st,
    Terms.sessions_keyed st ->
    let '(st', row) := Accounts.createSession s w u name st in
    Server.cs_session_name row
    = match Server.given name with
      | Some n => n
      | None => lit "Chat " ++ Accounts.toISOString (Server.now w)
      end
    /\ In (row, 0%nat) (Accounts.listSessions u (Accounts.tables st'))
    /\ existsb (Server.owns_active (Server.u_id u) (Server.cs_id row))
         (Server.chat_sessions (Accounts.tables st')) = true
    /\ (forall v n,
          Server.u_id v <> Server.u_id u ->
          ~ In (row, n) (Accounts.listSessions v (Accounts.tables st')))
    /\ Terms.sessions_keyed st'.
Proof.
  intros packages s w u name st (Hnd & Hlt & Hmsg).
  pose proof (createSession_store s w u name st) as H.
  destruct (Accounts.createSession s w u name st) as [st' row].
  destruct H as (Hrow & Hcs & Hm & _ & Hseq).
  assert (Hid : Server.cs_id row = Accounts.chat_sessions_id_seq st)
    by now subst row.
  assert (Hu : Server.cs_user_id row = Server.u_id u) by now subst row.
  assert (Ha : Server.cs_is_active row = true) by now subst row.
  split; [now subst row|]. split; [|split; [|split]].
  - apply in_listSessions. rewrite Hcs. split; [apply in_or_app; right; now left|].
    split; [exact Hu|]. split; [exact Ha|].
    unfold Accounts.message_count. rewrite Hm.
    rewrite filter_none; [reflexivity|].
    apply not_true_is_false. intros H. apply existsb_exists in H.
    destruct H as [m [Hin E]]. apply Z.eqb_eq in E. apply Hmsg in Hin. lia.
  - apply existsb_owns_active. exists row. rewrite Hcs.
    split; [apply in_or_app; right; now left|auto].
  - intros v n Hv H. apply in_listSessions in H.
    destruct H as (_ & H & _). congruence.
  - unfold Terms.sessions_keyed. rewrite Hcs, Hm, Hseq, map_app. simpl.
    split; [|split].
    + apply Permutation_NoDup
        with (l := Server.cs_id row :: map Server.cs_id
                                         (Server.chat_sessions (Accounts.tables st))).
      * apply Permutation_cons_append.
      * constructor; [|exact Hnd]. rewrite in_map_iff.
        intros [x [E Hx]]. apply Hlt in Hx. lia.
    + intros cs Hin. apply in_app_or in Hin. destruct Hin as [Hin|[<-|[]]].
      * apply Hlt in Hin. lia.
      * lia.
    + intros m Hin. apply Hmsg in Hin. lia.
Qed.

(** Bob opens an unnamed session on the sample data. *)
Lemma created_session_is_listed_witness :
  let '(st', row) :=
    Accounts.createSession (packages := Scenario.packages) Scenario.strict
      (Sample.at_time 1000 Server.Timeout) Sample.u_bob None Scenario.state in
  Server.cs_session_name row = lit "Chat 1000"
  /\ In (row, 0%nat) (Accounts.listSessions Sample.u_bob (Accounts.tables st')).
Proof.
  assert (K : Terms.sessions_keyed Scenario.state).
  { split; [|split].
    - vm_compute. repeat (constructor; [simpl; intuition discriminate|]).
      constructor.
    - intros cs Hin. vm_compute in Hin.
      destruct Hin as [<-|[<-|[]]]; vm_compute; reflexivity.
    - intros m Hin. vm_compute in Hin. destruct Hin. }
  pose proof (created_session_is_listed Scenario.packages Scenario.strict
                (Sample.at_time 1000 Server.Timeout) Sample.u_bob None
                Scenario.state K) as H.
  destruct (Accounts.createSession _ _ _ _ _) as [st' row].
  destruct H as (Hn & Hl & _). split; [|exact Hl].
  rewrite Hn. reflexivity.
Defined.

(** X14. Deleting a session hides it without removing anything. After a
    delete that succeeded, the session is gone from the list of its owner,
    a post into it and a second delete are answered 404 "Session not
    found", and no message was removed; but the messages of the session
    can still be read: every page is what it was before the delete. *)
Theorem deleted_session_stays_readable :
  forall (engine : Engine) (libraries : Server.Libraries) cfg w u sid db db',
    Server.deleteSession cfg w u sid db = (db', Server.SessionDeleted) ->
    (forall row, In row (Accounts.listSessions u db') ->
                 Server.cs_id (fst row) <> sid)
    /\ (forall w2 m,
          sid <> 0 -> m <> [] ->
          Server.sendMessage cfg w2 u (Some sid) (Some m) db'
          = (db', [], Server.Error 404 "Session not found"))
    /\ (forall w2,
          Server.deleteSession cfg w2 u sid db'
          = (db', Server.Error 404 "Session not found"))
    /\ Server.messages db' = Server.messages db
    /\ (forall page limit,
          Server.getMessages u sid page limit db'
          = Server.getMessages u sid page limit db
          /\ Server.getMessages u sid page limit db'
             <> Server.Error 404 "Session not found").
Proof.
  intros engine libraries cfg w u sid db db'. unfold Server.deleteSession at 1.
  destruct (existsb _ _) eqn:Ho; simpl; [|discriminate].
  intros [= <-].
  set (off := fun s =>
                if Server.owns_active (Server.u_id u) sid s
                then Server.mkSession (Server.cs_id s) (Server.cs_user_id s)
                       (Server.cs_session_name s) (Server.cs_created_at s)
                       (Server.now w) false
                else s).
  assert (Hcs : Server.chat_sessions
                  (Server.logUserActivity cfg (Server.u_id u) "chat_session_deleted"
                     (Server.now w) (Server.set_chat_sessions (map off) db))
                = map off (Server.chat_sessions db))
    by now rewrite chat_sessions_logUserActivity.
  assert (Hgone : existsb (Server.owns_active (Server.u_id u) sid)
                    (map off (Server.chat_sessions db)) = false).
  { rewrite existsb_of_map. apply not_true_is_false. intros H.
    apply existsb_exists in H. destruct H as [x [_ Hx]]. unfold off in Hx.
    destruct (Server.owns_active (Server.u_id u) sid x) eqn:E.
    - unfold Server.owns_active in Hx. simpl in Hx.
      now rewrite andb_false_r in Hx.
    - congruence. }
  assert (Hkept : existsb (fun s => (Server.cs_id s =? sid)
                                    && (Server.cs_user_id s =? Server.u_id u))
                    (map off (Server.chat_sessions db))
                  = existsb (fun s => (Server.cs_id s =? sid)
                                      && (Server.cs_user_id s =? Server.u_id u))
                      (Server.chat_sessions db)).
  { rewrite existsb_of_map. apply existsb_same. intros x. unfold off.
    now destruct (Server.owns_active (Server.u_id u) sid x). }
  assert (Hthere : existsb (fun s => (Server.cs_id s =? sid)
                                     && (Server.cs_user_id s =? Server.u_id u))
                     (Server.chat_sessions db) = true).
  { apply existsb_exists in Ho. destruct Ho as [x [Hin Hx]].
    apply existsb_exists. exists x. split; [exact Hin|].
    unfold Server.owns_active in Hx. now apply andb_prop in Hx. }
  split; [|split; [|split; [|split]]].
  - intros [cs n] Hin Hid. simpl in Hid.
    apply in_listSessions in Hin. destruct Hin as (Hin & Hu & Ha & _).
    rewrite Hcs in Hin.
    assert (existsb (Server.owns_active (Server.u_id u) sid)
              (map off (Server.chat_sessions db)) = true); [|congruence].
    apply existsb_owns_active. eauto.
  - intros w2 m Hsid Hm. unfold Server.sendMessage, Server.given_id.
    apply Z.eqb_neq in Hsid. rewrite Hsid.
    destruct m as [|c m]; [now elim Hm|]. simpl Server.given. cbv iota.
    now rewrite Hcs, Hgone.
  - intros w2. unfold Server.deleteSession. now rewrite Hcs, Hgone.
  - now rewrite messages_logUserActivity.
  - intros page limit. unfold Server.getMessages.
    rewrite Hcs, Hkept, Hthere, messages_logUserActivity. simpl negb.
    cbv beta iota zeta.
    split; [reflexivity|].
    destruct (Server.offset_sent _ _); [|discriminate].
    destruct (_ && _); discriminate.
Qed.

(** Alice deletes her session of two messages and reads it again. *)
Lemma deleted_session_stays_readable_witness :
  let db' :=
    fst (Server.deleteSession Sample.quiet (Sample.at_time 3000 Server.Timeout)
           Sample.u_alice 1 Sample.db_two) in
  Accounts.listSessions Sample.u_alice db' = []
  /\ Server.getMessages Sample.u_alice 1 None None db'
     = Server.MessageList
         [Sample.user_row 1 1000 (lit "first");
          Sample.user_row 2 2000 (lit "second")].
Proof.
  destruct (Server.deleteSession Sample.quiet (Sample.at_time 3000 Server.Timeout)
              Sample.u_alice 1 Sample.db_two) as [db' r] eqn:E.
  assert (Er : r = snd (Server.deleteSession Sample.quiet
                          (Sample.at_time 3000 Server.Timeout) Sample.u_alice 1
                          Sample.db_two)) by now rewrite E.
  vm_compute in Er. subst r.
  destruct (deleted_session_stays_readable Fragment.engine Fragment.libraries
              _ _ _ _ _ _ E) as (Hlist & _ & _ & _ & Hread).
  cbv beta iota zeta delta [fst]. split.
  - destruct (Accounts.listSessions Sample.u_alice db') as [|row rest] eqn:El;
      [reflexivity|].
    exfalso. pose proof (Hlist row (or_introl eq_refl)) as Hne.
    assert (Hin : In row (Accounts.listSessions Sample.u_alice db'))
      by (rewrite El; now left).
    destruct row as [cs n]. apply in_listSessions in Hin.
    destruct Hin as (Hin & Hu & _).
    apply (f_equal fst) in E. simpl in E. subst db'. vm_compute in Hin.
    destruct Hin as [<-|[<-|[]]]; [now apply Hne|discriminate Hu].
  - rewrite (proj1 (Hread None None)). vm_compute. reflexivity.
Defined.

(** X15. A post moves its session to the top of the list. After a post
    that was accepted, at a time later than every stored [updated_at] (the
    ids of the sessions being distinct), the list of the caller starts
    with the session posted into, and its count has grown by one, or by
    two when the webhook's answer was stored as well. *)
Theorem post_moves_session_to_top :
  forall (engine : Engine) (libraries : Server.Libraries) cfg w u sid m db db'
         evs userMessage webhookResponse responseTime,
    Server.sendMessage cfg w u (Some sid) (Some m) db
    = (db', evs, Server.MessageSent userMessage webhookResponse responseTime) ->
    NoDup (map Server.cs_id (Server.chat_sessions db)) ->
    (forall cs, In cs (Server.chat_sessions db) ->
                Server.cs_updated_at cs < Server.now w) ->
    0 <= Server.elapsed w ->
    exists cs n rest,
      Accounts.listSessions u db' = (cs, n) :: rest
      /\ Server.cs_id cs = sid
      /\ let before :=
           List.length (filter (fun row => sid =? Server.m_session_id row)
                          (Server.messages db)) in
         n = S before \/ n = S (S before).
Proof.
  intros engine libraries cfg w u sid m db db' evs um wr rt Hsend Hnd Hold Hel.
  pose proof (sendMessage_store cfg w u (Some sid) (Some m) db) as H.
  rewrite Hsend in H.
  destruct H as [[_ [st [e H]]]|H]; [discriminate|].
  destruct H as (s & m' & t & bots & Hs & _ & Ho & _ & Ht & _ & _ & Hcs & Hmsg
                 & _ & Hlen & Hbots).
  assert (s = sid) by (unfold Server.given_id in Hs; destruct (sid =? 0); congruence).
  subst s.
  apply existsb_owns_active in Ho. destruct Ho as (cs0 & Hin & Hid & Hu & Ha).
  apply in_split in Hin. destruct Hin as (l1 & l2 & El).
  set (bump := fun r =>
                 if Server.cs_id r =? sid then
                   Server.mkSession (Server.cs_id r) (Server.cs_user_id r)
                     (Server.cs_session_name r) (Server.cs_created_at r) t
                     (Server.cs_is_active r)
                 else r) in *.
  assert (Hother : forall l, (forall x, In x l -> Server.cs_id x <> sid) ->
                             map bump l = l).
  { intros l Hl. rewrite <- (map_id l) at 2. apply map_ext_in. intros x Hx.
    unfold bump. apply Hl in Hx. apply Z.eqb_neq in Hx. now rewrite Hx. }
  rewrite El, map_app in Hnd. simpl in Hnd. apply NoDup_remove_2 in Hnd.
  assert (H1 : forall x, In x l1 -> Server.cs_id x <> sid).
  { intros x Hx E. apply Hnd. apply in_or_app. left. rewrite Hid, <- E.
    now apply in_map. }
  assert (H2 : forall x, In x l2 -> Server.cs_id x <> sid).
  { intros x Hx E. apply Hnd. apply in_or_app. right. rewrite Hid, <- E.
    now apply in_map. }
  assert (Ecs : Server.chat_sessions db' = l1 ++ bump cs0 :: l2).
  { rewrite Hcs, El, map_app. simpl. now rewrite (Hother l1 H1), (Hother l2 H2). }
  assert (Ebump : bump cs0
                  = Server.mkSession (Server.cs_id cs0) (Server.cs_user_id cs0)
                      (Server.cs_session_name cs0) (Server.cs_created_at cs0) t
                      (Server.cs_is_active cs0)).
  { unfold bump. now rewrite Hid, Z.eqb_refl. }
  assert (HP : (Server.cs_user_id (bump cs0) =? Server.u_id u)
               && Server.cs_is_active (bump cs0) = true).
  { rewrite Ebump. simpl. now rewrite Hu, Z.eqb_refl, Ha. }
  clearbody bump.
  unfold Accounts.listSessions. rewrite Ecs, filter_app. simpl.
  rewrite HP, map_app. simpl.
  destruct (order_by_desc_top _ (fun row => Server.cs_updated_at (fst row))
              (map (fun cs => (cs, Accounts.message_count db' cs))
                 (filter (fun cs => (Server.cs_user_id cs =? Server.u_id u)
                                    && Server.cs_is_active cs) l1))
              (map (fun cs => (cs, Accounts.message_count db' cs))
                 (filter (fun cs => (Server.cs_user_id cs =? Server.u_id u)
                                    && Server.cs_is_active cs) l2))
              (bump cs0, Accounts.message_count db' (bump cs0)))
    as [rest Erest].
  - intros y Hy. apply in_map_iff in Hy. destruct Hy as [x [<- Hx]].
    apply filter_In in Hx. destruct Hx as [Hx _]. simpl.
    rewrite Ebump. simpl.
    assert (Server.cs_updated_at x < Server.now w)
      by (apply Hold; rewrite El; apply in_or_app; now left).
    destruct Ht; lia.
  - intros y Hy. apply in_map_iff in Hy. destruct Hy as [x [<- Hx]].
    apply filter_In in Hx. destruct Hx as [Hx _]. simpl.
    rewrite Ebump. simpl.
    assert (Server.cs_updated_at x < Server.now w)
      by (apply Hold; rewrite El; apply in_or_app; right; now right).
    destruct Ht; lia.
  - exists (bump cs0), (Accounts.message_count db' (bump cs0)), rest.
    split; [exact Erest|]. split; [now rewrite Ebump|].
    unfold Accounts.message_count. rewrite Ebump. simpl. rewrite Hid, Hmsg.
    rewrite filter_app, length_app. simpl. rewrite Z.eqb_refl. simpl.
    destruct bots as [|b bots]; simpl.
    + left. lia.
    + destruct bots; [|simpl in Hlen; lia].
      inversion Hbots as [|? ? (Hb & _) _]; subst.
      rewrite Hb, Z.eqb_refl. simpl. right. lia.
Qed.

(** Alice posts into her session on the sample data and the webhook
    answers. *)
Lemma post_moves_session_to_top_witness :
  exists cs n rest,
    Accounts.listSessions Sample.u_alice
      (fst (fst (Sample.send Sample.cfg 1000 (Server.Replied 200 Sample.hi_object)
                   Sample.hello Sample.db)))
    = (cs, n) :: rest
    /\ Server.cs_id cs = 1 /\ n = 2%nat.
Proof.
  destruct (Sample.send Sample.cfg 1000 (Server.Replied 200 Sample.hi_object)
              Sample.hello Sample.db) as [[db' evs] r] eqn:E.
  assert (Er : r = snd (Sample.send Sample.cfg 1000
                          (Server.Replied 200 Sample.hi_object) Sample.hello
                          Sample.db)) by now rewrite E.
  vm_compute in Er. subst r. unfold Sample.send in E.
  destruct (post_moves_session_to_top _ _ _ _ _ _ _ _ _ _ _ _ _ E)
    as (cs & n & rest & Hl & Hid & Hn).
  - vm_compute. repeat (constructor; [simpl; intuition discriminate|]).
    constructor.
  - intros cs Hin. vm_compute in Hin.
    destruct Hin as [<-|[<-|[]]]; vm_compute; reflexivity.
  - vm_compute. discriminate.
  - exists cs, n, rest. cbv beta iota delta [fst]. split; [exact Hl|].
    split; [exact Hid|].
    assert (Hin : In (cs, n) (Accounts.listSessions Sample.u_alice db'))
      by (rewrite Hl; now left).
    apply in_listSessions in Hin. destruct Hin as (_ & _ & _ & ->).
    unfold Accounts.message_count. rewrite Hid.
    apply (f_equal (fun x => fst (fst x))) in E. simpl in E. subst db'.
    vm_compute. reflexivity.
Defined.

(** X16. The size of a page of messages. For a session of the caller,
    with the page and the page size defaulting to 1 and 50: a negative
    page size, a page size of 2^63 or more, or a page and a size whose
    offset [(page - 1) * limit] is negative (page 0 with a positive size),
    is answered 500; when the size and the offset are not negative and the
    page, the size and the offset are safe integers, the page holds exactly
    [limit] rows, or what is left of the session's messages after the
    [(page - 1) * limit] newest when that is less; in particular a page
    past the end is empty. *)
Theorem page_size_is_exact :
  forall u sid page limit db,
    existsb (fun s => (Server.cs_id s =? sid)
                      && (Server.cs_user_id s =? Server.u_id u))
      (Server.chat_sessions db) = true ->
    let p := match page with Some p => p | None => 1 end in
    let l := match limit with Some l => l | None => 50 end in
    (l < 0 \/ 2 ^ 63 <= l \/ (p - 1) * l < 0 ->
     Server.getMessages u sid page limit db
     = Server.Error 500 "Internal server error")
    /\ (0 <= l -> 0 <= (p - 1) * l ->
        Terms.safe_integer p -> Terms.safe_integer l ->
        Terms.safe_integer ((p - 1) * l) ->
        exists rows,
          Server.getMessages u sid page limit db = Server.MessageList rows
          /\ List.length rows
             = Nat.min (Z.to_nat l)
                 (List.length (Spec.session_messages sid db)
                  - Z.to_nat ((p - 1) * l))).
Proof.
  intros u sid page limit db Ho p l. unfold Server.getMessages.
  rewrite Ho. simpl negb. cbv iota zeta. fold p. fold l. split.
  - intros H.
    destruct (Server.offset_sent p l) as [sent|] eqn:Es; [|reflexivity].
    assert (Hc : Server.row_count l && Server.row_count sent = false);
      [|now rewrite Hc].
    unfold Server.row_count.
    destruct (Z.leb_spec 0 l) as [Hl|]; [|reflexivity].
    destruct (Z.ltb_spec l (2 ^ 63)) as [Hb|]; [|reflexivity].
    destruct H as [H|[H|H]]; [lia|lia|].
    pose proof (offset_sent_negative p l sent H Hl Es) as Hneg.
    destruct (Z.leb_spec 0 sent); [lia|reflexivity].
  - intros Hl Hoff Hp Hsl Hso. unfold Terms.safe_integer in *.
    rewrite (offset_sent_exact p l) by lia.
    assert (Hc : Server.row_count l && Server.row_count ((p - 1) * l) = true).
    { unfold Server.row_count.
      assert (2 ^ 53 < 2 ^ 63) by reflexivity.
      apply andb_true_intro; split; apply andb_true_intro; split;
        first [apply Z.leb_le | apply Z.ltb_lt]; lia. }
    rewrite Hc.
    eexists. split; [reflexivity|].
    rewrite length_rev, length_firstn, length_skipn.
    fold (Spec.session_messages sid db).
    now rewrite (Permutation_length (order_by_perm _)).
Qed.

(** The second page of size 1 of Alice's two messages, her third, and
    page 0. *)
Lemma page_size_is_exact_witness :
  (exists rows,
      Server.getMessages Sample.u_alice 1 (Some 2) (Some 1) Sample.db_two
      = Server.MessageList rows
      /\ List.length rows = 1%nat)
  /\ Server.getMessages Sample.u_alice 1 (Some 3) (Some 1) Sample.db_two
     = Server.MessageList []
  /\ Server.getMessages Sample.u_alice 1 (Some 0) (Some 1) Sample.db_two
     = Server.Error 500 "Internal server error"
  /\ Server.getMessages Sample.u_alice 1 (Some 1) (Some (2 ^ 63)) Sample.db_two
     = Server.Error 500 "Internal server error".
Proof.
  assert (Hs : forall z, 0 <= z <= 3 -> Terms.safe_integer z).
  { intros z Hz. unfold Terms.safe_integer.
    assert (3 < 2 ^ 53 - 1) by reflexivity. lia. }
  split; [|split; [|split]].
  - destruct (page_size_is_exact Sample.u_alice 1 (Some 2) (Some 1) Sample.db_two
                eq_refl) as [_ H].
    destruct H as [rows [E Hlen]]; try (apply Hs); try lia.
    exists rows. split; [exact E|]. rewrite Hlen. vm_compute. reflexivity.
  - destruct (page_size_is_exact Sample.u_alice 1 (Some 3) (Some 1) Sample.db_two
                eq_refl) as [_ H].
    destruct H as [rows [E Hlen]]; try (apply Hs); try lia.
    rewrite E. vm_compute in Hlen. destruct rows; [reflexivity|discriminate].
  - apply (page_size_is_exact Sample.u_alice 1 (Some 0) (Some 1) Sample.db_two
             eq_refl). right. right. lia.
  - apply (page_size_is_exact Sample.u_alice 1 (Some 1) (Some (2 ^ 63))
             Sample.db_two eq_refl). right. left. lia.
Defined.

(** X17. Consecutive pages neither skip nor repeat a message. For a
    session of the caller whose messages were created at pairwise distinct
    times, a positive page size and [k] pages whose offsets are safe
    integers, the rows of pages 1 to [k], each taken newest first, make up
    the [k * limit] newest messages of the session, newest first; so once
    [k * limit] reaches the number of messages of the session, the pages
    hold each of them exactly once. *)
Theorem pages_partition_the_session :
  forall u sid l db k,
    existsb (fun s => (Server.cs_id s =? sid)
                      && (Server.cs_user_id s =? Server.u_id u))
      (Server.chat_sessions db) = true ->
    0 < l ->
    Terms.safe_integer (Z.of_nat k * l) ->
    NoDup (map Server.m_created_at (Spec.session_messages sid db)) ->
    flat_map (Terms.page_rows u sid l db) (seq 1 k)
    = firstn (k * Z.to_nat l)
        (Server.order_by_created_at_desc (Spec.session_messages sid db))
    /\ StronglySorted
         (fun a b => Server.m_created_at b < Server.m_created_at a)
         (flat_map (Terms.page_rows u sid l db) (seq 1 k))
    /\ ((List.length (Spec.session_messages sid db) <= k * Z.to_nat l)%nat ->
        Permutation (flat_map (Terms.page_rows u sid l db) (seq 1 k))
          (Spec.session_messages sid db)).
Proof.
  intros u sid l db k Ho Hl Hsafe Hnd. unfold Terms.safe_integer in Hsafe.
  assert (Hpage : forall j,
             (j < k)%nat ->
             Terms.page_rows u sid l db (S j)
             = firstn (Z.to_nat l)
                 (skipn (j * Z.to_nat l)
                    (Server.order_by_created_at_desc
                       (Spec.session_messages sid db)))).
  { intros j Hj. unfold Terms.page_rows, Server.getMessages. rewrite Ho.
    simpl negb. cbv iota zeta.
    assert (Hjl : Z.of_nat j * l <= Z.of_nat k * l) by nia.
    assert (Hj1 : Z.of_nat j <= Z.of_nat j * l) by nia.
    assert (Hl1 : l <= Z.of_nat k * l) by nia.
    replace (Z.of_nat (S j) - 1) with (Z.of_nat j) by lia.
    rewrite (offset_sent_exact (Z.of_nat (S j)) l);
      [|lia|lia|lia|replace (Z.of_nat (S j) - 1) with (Z.of_nat j) by lia; lia].
    replace (Z.of_nat (S j) - 1) with (Z.of_nat j) by lia.
    assert (Hc : Server.row_count l && Server.row_count (Z.of_nat j * l) = true).
    { unfold Server.row_count.
      assert (2 ^ 53 < 2 ^ 63) by reflexivity.
      apply andb_true_intro; split; apply andb_true_intro; split;
        first [apply Z.leb_le | apply Z.ltb_lt]; lia. }
    rewrite Hc, rev_involutive.
    replace (Z.to_nat (Z.of_nat j * l)) with (j * Z.to_nat l)%nat by nia.
    reflexivity. }
  assert (Hall : flat_map (Terms.page_rows u sid l db) (seq 1 k)
                 = firstn (k * Z.to_nat l)
                     (Server.order_by_created_at_desc
                        (Spec.session_messages sid db))).
  { clear Hsafe. induction k as [|k IH]; [reflexivity|].
    rewrite seq_S, flat_map_app, IH by (intros j Hj; apply Hpage; lia).
    simpl flat_map. rewrite app_nil_r, Hpage by lia.
    replace (S k * Z.to_nat l)%nat with (k * Z.to_nat l + Z.to_nat l)%nat by lia.
    generalize (k * Z.to_nat l)%nat as a. generalize (Z.to_nat l) as b.
    generalize (Server.order_by_created_at_desc (Spec.session_messages sid db)).
    intros s b a. revert s. induction a as [|a IHa]; intros s; simpl.
    - reflexivity.
    - destruct s as [|x s]; simpl; [now rewrite firstn_nil|].
      now rewrite IHa. }
  split; [exact Hall|]. split.
  - rewrite Hall. apply StronglySorted_firstn.
    apply strictly_of_distinct; [apply order_by_sorted|].
    eapply Permutation_NoDup; [|exact Hnd].
    apply Permutation_map, Permutation_sym, order_by_perm.
  - intros Hlen. rewrite Hall, firstn_all2.
    + apply order_by_perm.
    + now rewrite (Permutation_length (order_by_perm _)).
Qed.

(** Alice's two messages on two pages of one row. *)
Lemma pages_partition_the_session_witness :
  flat_map (Terms.page_rows Sample.u_alice 1 1 Sample.db_two) (seq 1 2)
  = [Sample.user_row 2 2000 (lit "second"); Sample.user_row 1 1000 (lit "first")].
Proof.
  rewrite (proj1 (pages_partition_the_session Sample.u_alice 1 1 Sample.db_two 2
                    eq_refl ltac:(lia)
                    ltac:(unfold Terms.safe_integer; vm_compute; discriminate)
                    ltac:(vm_compute;
                          repeat (constructor; [simpl; intuition discriminate|]);
                          constructor))).
  vm_compute. reflexivity.
Defined.

(** X18. Every answer of the webhook below 500 is stored as one bot
    message, unless its body is [null] or PostgreSQL refuses the row. For a
    post into an active session of the caller, with the webhook enabled, a
    text that PostgreSQL stores and a value left in the sequence of the
    ids: when the body of the answer is anything but [null] (an object
    without [text] or [response], an array, a number, the empty string) the
    request has a text for the bot message, never the SQL NULL, and when
    PostgreSQL accepts the row of that text exactly one bot message follows
    the user message and the answer is handed back in [webhookResponse];
    when the body is [null], reading its [text] fails, no bot message is
    stored and the error object is handed back. *)
Theorem every_answer_but_null_is_stored :
  forall (engine : Engine) (libraries : Server.Libraries) cfg w u sid msg s m db
         status data,
    Server.given_id sid = Some s -> Server.given msg = Some m ->
    existsb (Server.owns_active (Server.u_id u) s) (Server.chat_sessions db) = true ->
    Server.webhook_enabled cfg && str_truthy (Server.webhook_url cfg) = true ->
    Server.webhook w = Server.Replied status data -> status < 500 ->
    Spec.storable m -> Server.messages_id_seq db < 2 ^ 31 ->
    let userMessage :=
      Server.mkMessage (Server.messages_id_seq db) s (Server.u_id u) m
        Server.user None (Server.now w) None in
    let '(db', _, r) := Server.sendMessage cfg w u sid msg db in
    (data = JNull ->
     Server.messages db' = Server.messages db ++ [userMessage]
     /\ r = Server.MessageSent userMessage (Some Server.webhook_failed)
              (Some (Server.elapsed w)))
    /\ (data <> JNull ->
        exists v text,
          Server.botMessageText data = Some v
          /\ Server.prepareValue v = Some text
          /\ (Spec.bot_message_accepted w db text ->
              Server.messages db'
              = Server.messages db
                  ++ [userMessage;
                      Server.mkMessage (Server.messages_id_seq db + 1) s
                        (Server.u_id u) text Server.bot
                        (Some (JSON_stringify data))
                        (Server.now w + Server.elapsed w)
                        (Some (Server.elapsed w))]
              /\ r = Server.MessageSent userMessage (Some data)
                       (Some (Server.elapsed w)))).
Proof.
  intros engine libraries cfg w u sid msg s m db status data Hs Hm Ho Hweb Hw Hst
    _ _.
  rewrite (sendMessage_accepted cfg w u sid msg s m db Hs Hm Ho).
  unfold Server.insert_message. rewrite Hweb. unfold Server.callWebhook.
  rewrite Hw. unfold Server.validateStatus.
  destruct (Z.ltb_spec status 500) as [_|]; [|lia].
  assert (Hcases : data = JNull \/ data <> JNull)
    by (destruct data; [left|right..]; congruence).
  destruct Hcases as [->|Hd].
  - simpl. rewrite messages_logUserActivity. simpl.
    split; [auto|]. intros H. now elim H.
  - destruct (botMessageText_text data Hd) as (v & text & Ev & Et).
    rewrite Ev, Et. simpl. rewrite messages_logUserActivity. simpl.
    split; [intros E; contradiction|]. intros _.
    exists v, text. rewrite <- app_assoc. simpl. auto.
Qed.

(** The webhook answers the number 5, the empty string, and [null]. *)
Lemma every_answer_but_null_is_stored_witness :
  (let '(db', _, _) :=
     Sample.send Sample.cfg 1000 (Server.Replied 200 (JNum (Fragment.float_of_Z 5)))
       Sample.hello Sample.db in
   map Server.m_message_text (filter Spec.is_bot (Server.messages db')) = [lit "5"])
  /\ (let '(db', _, _) :=
        Sample.send Sample.cfg 1000 (Server.Replied 200 (JStr [])) Sample.hello
          Sample.db in
      map Server.m_message_text (filter Spec.is_bot (Server.messages db')) = [[]])
  /\ (let '(db', _, r) :=
        Sample.send Sample.cfg 1000 (Server.Replied 200 JNull) Sample.hello
          Sample.db in
      Server.messages db' = [Sample.user_row 1 1000 Sample.hello]
      /\ r = Server.MessageSent (Sample.user_row 1 1000 Sample.hello)
               (Some Server.webhook_failed) (Some 250)).
Proof.
  assert (Hst : Spec.storable Sample.hello).
  { split; [|reflexivity]. vm_compute. intuition discriminate. }
  split; [vm_compute; reflexivity|]. split; [vm_compute; reflexivity|].
  pose proof (every_answer_but_null_is_stored Fragment.engine Fragment.libraries
                Sample.cfg (Sample.at_time 1000 (Server.Replied 200 JNull))
                Sample.u_alice (Some 1) (Some Sample.hello) 1 Sample.hello
                Sample.db 200 JNull eq_refl eq_refl eq_refl eq_refl eq_refl
                ltac:(lia) Hst ltac:(reflexivity)) as H.
  unfold Sample.send.
  destruct (Server.sendMessage _ _ _ _ _ _) as [[db' evs] r].
  destruct H as [H _]. exact (H eq_refl).
Defined.

(* ===================================================================== *)
(** * Further properties of the document-store variant *)
(* ===================================================================== *)

(** X19. A submission touches its own conversation only. Whatever the
    rules of the store admit or refuse and whatever the relay does,
    [handleSubmit] adds at most two message documents, both to the
    conversation it was given, and removes or changes none; the messages
    of every other conversation are what they were; no conversation
    appears, disappears, changes its id, its owner or its place; and every
    conversation other than the one submitted into is left exactly as it
    was. *)
Theorem submit_touches_one_conversation :
  forall (engine : Engine) R uid w c st db,
    let '(db', _, _) := Client.handleSubmit R uid w c st db in
    (exists new,
        Client.message_docs db' = Client.message_docs db ++ new
        /\ (List.length new <= 2)%nat
        /\ Forall (fun cm => fst cm = c) new)
    /\ (forall c', c' <> c ->
                   Client.messages_of c' db' = Client.messages_of c' db)
    /\ map Client.id (Client.conversations db')
       = map Client.id (Client.conversations db)
    /\ map Client.userId (Client.conversations db')
       = map Client.userId (Client.conversations db)
    /\ (forall d, Client.id d <> c ->
                  (In d (Client.conversations db')
                   <-> In d (Client.conversations db))).
Proof.
  intros engine R uid w c st db.
  pose proof (handleSubmit_grows R uid w c st db) as H.
  destruct (Client.handleSubmit R uid w c st db) as [[db' st'] evs].
  simpl in H. split; [exact (proj1 H)|]. split; [|split; [|split]].
  - intros c' Hne. exact (grows_messages_of _ _ _ _ _ H Hne).
  - apply (grows_map _ Client.id _ _ _ _ (fun d d' Hs => proj1 Hs) H).
  - apply (grows_map _ Client.userId _ _ _ _
             (fun d d' Hs => proj1 (proj2 Hs)) H).
  - intros d Hne. exact (grows_others _ _ _ _ _ H Hne).
Qed.

(** Bob submits into Alice's conversation under rules that admit
    everything: no other conversation gains a message. *)
Lemma submit_touches_one_conversation_witness :
  let '(db', _, _) :=
    Client.handleSubmit (engine := Fragment.engine) Sample.open_rules Sample.bob
      Sample.world_hi Sample.c1 (Sample.typing Sample.hello) Sample.store in
  (forall c', c' <> Sample.c1 -> Client.messages_of c' db' = [])
  /\ map Client.userId (Client.conversations db') = [Sample.alice].
Proof.
  pose proof (submit_touches_one_conversation Fragment.engine Sample.open_rules
                Sample.bob Sample.world_hi Sample.c1 (Sample.typing Sample.hello)
                Sample.store) as H.
  destruct (Client.handleSubmit _ _ _ _ _ _) as [[db' st'] evs].
  destruct H as (_ & Hother & _ & Hown & _). split.
  - intros c' Hne. now rewrite (Hother c' Hne).
  - exact Hown.
Defined.

(** X20. A message submitted into a conversation that no longer exists
    never reaches the webhook. When the conversation document is gone,
    whatever the rules decide and whatever the form holds, [handleSubmit]
    calls neither the API route nor the webhook: the update of the
    conversation cannot succeed. When moreover the rules admit the user
    message at the store of the submission, and the reply at the store
    that holds the user message, the user message is stored under the id
    of the missing conversation and the fixed error text is stored as the
    reply, at the time of the submission; the form is cleared and
    released. *)
Theorem submit_to_missing_conversation :
  forall (engine : Engine) R uid w c st db,
    Client.has_conversation c db = false ->
    let sent :=
      Client.mkMessage Client.user (JStr (trim (Client.input st))) (Client.now w) in
    let apology :=
      Client.mkMessage Client.assistant (JStr Client.fallback_text) (Client.now w) in
    let '(db', st', evs) := Client.handleSubmit R uid w c st db in
    Forall (fun e => Spec.is_call e = false) evs
    /\ (trim (Client.input st) <> [] -> Client.loading st = false ->
        R uid Client.CreateMessage c db = true ->
        R uid Client.CreateMessage c (Client.put_message c sent db) = true ->
        db' = Client.put_message c apology (Client.put_message c sent db)
        /\ Client.messages_of c db' = Client.messages_of c db ++ [sent; apology]
        /\ st' = Client.mkChatArea [] false (Client.messages st)).
Proof.
  intros engine R uid w c st db Hc.
  unfold Client.handleSubmit.
  destruct (negb (str_truthy (trim (Client.input st))) || Client.loading st)
    eqn:Eguard; cbv iota zeta.
  - split; [constructor|]. intros Ht Hl. exfalso.
    rewrite Hl, orb_false_r in Eguard.
    destruct (trim (Client.input st)); [contradiction | discriminate].
  - set (sent := Client.mkMessage Client.user (JStr (trim (Client.input st)))
                   (Client.now w)).
    assert (Hup : forall set,
               exists e,
                 Client.updateDoc R uid c set (Client.put_message c sent db)
                 = Client.Rejected e).
    { intros set. unfold Client.updateDoc.
      rewrite has_conversation_put, Hc.
      destruct (R uid Client.UpdateConversation c _); eauto. }
    unfold Client.on_error, Client.updateConversationTitle, Client.addDoc.
    destruct (R uid Client.CreateMessage c db) eqn:E0.
    + destruct (List.length (Client.messages st) =? 0)%nat;
        [destruct (Hup (Client.retitle (Client.title_of (trim (Client.input st)))
                          (Client.now w))) as [e1 ->]|];
        destruct (Hup (Client.touch (Client.now w))) as [e2 ->];
        destruct (R uid Client.CreateMessage c (Client.put_message c sent db))
          eqn:E1;
        (split; [repeat constructor|]); intros _ _ _ H1;
        try discriminate H1;
        (split; [reflexivity|]); (split; [|reflexivity]);
        rewrite !messages_of_put, <- app_assoc; reflexivity.
    + destruct (R uid Client.CreateMessage c db) eqn:E1;
        (split; [repeat constructor|]); intros _ _ H0; discriminate H0.
Qed.

(** Alice's conversation is deleted while it is open, and she sends. *)
Lemma submit_to_missing_conversation_witness :
  let gone :=
    fst (fst (Client.deleteConversation Sample.open_rules Sample.alice Sample.c1
                (Some Sample.c1) Sample.store)) in
  let '(db', _, evs) :=
    Client.handleSubmit (engine := Fragment.engine) Sample.open_rules Sample.alice
      Sample.world_hi Sample.c1 (Sample.typing Sample.hello) gone in
  Client.conversations db' = []
  /\ map Client.content (Client.messages_of Sample.c1 db')
     = [JStr Sample.hello; JStr Client.fallback_text]
  /\ Forall (fun e => Spec.is_call e = false) evs.
Proof.
  cbv zeta.
  pose proof (submit_to_missing_conversation Fragment.engine Sample.open_rules
                Sample.alice Sample.world_hi Sample.c1 (Sample.typing Sample.hello)
                (fst (fst (Client.deleteConversation Sample.open_rules Sample.alice
                             Sample.c1 (Some Sample.c1) Sample.store)))
                eq_refl) as H.
  cbv zeta in H.
  destruct (Client.handleSubmit _ _ _ _ _ _) as [[db' st'] evs].
  destruct H as (Hev & H).
  destruct H as (Hdb & Hm & _);
    [vm_compute; discriminate | reflexivity | reflexivity | reflexivity |].
  split; [|split].
  - rewrite Hdb. reflexivity.
  - rewrite Hm. reflexivity.
  - exact Hev.
Defined.

(** X21. [deleteConversation] removes the conversation document and
    nothing else. When the rules admit the delete, the conversation is
    gone from the store and from every sidebar, while its messages stay
    where they were: nothing deletes the [messages] subcollection. Every
    other conversation keeps its place in every sidebar; the selection is
    cleared exactly when it pointed at the deleted conversation; and a
    second delete of the same id, by anyone and admitted or not, leaves
    the store as it is. *)
Theorem deleteConversation_removes_the_document_only :
  forall R uid convId selected db,
    R uid Client.DeleteConversation convId db = true ->
    let '(db', selected', _) :=
      Client.deleteConversation R uid convId selected db in
    Client.has_conversation convId db' = false
    /\ Client.message_docs db' = Client.message_docs db
    /\ (forall v,
          Client.sidebar v db'
          = filter (fun d => negb (eqb (Client.id d) convId)) (Client.sidebar v db))
    /\ (selected' = None <-> selected = None \/ selected = Some convId)
    /\ (forall c, selected = Some c -> c <> convId -> selected' = Some c)
    /\ (forall R2 uid2 selected2,
          fst (fst (Client.deleteConversation R2 uid2 convId selected2 db')) = db').
Proof.
  intros R uid convId selected db HR.
  unfold Client.deleteConversation at 1. unfold Client.deleteDoc. rewrite HR.
  assert (Hgone : forall l,
             existsb (fun d => eqb (Client.id d) convId)
               (filter (fun d => negb (eqb (Client.id d) convId)) l) = false).
  { induction l as [|d l IH]; simpl; [reflexivity|].
    destruct (eqb (Client.id d) convId) eqn:E; simpl; [exact IH|].
    now rewrite E. }
  assert (Hidem : forall l,
             filter (fun d => negb (eqb (Client.id d) convId))
               (filter (fun d => negb (eqb (Client.id d) convId)) l)
             = filter (fun d => negb (eqb (Client.id d) convId)) l).
  { induction l as [|d l IH]; simpl; [reflexivity|].
    destruct (eqb (Client.id d) convId) eqn:E; simpl; [exact IH|].
    now rewrite E, IH. }
  split; [apply Hgone|]. split; [reflexivity|]. split; [|split; [|split]].
  - intros v. unfold Client.sidebar, Client.remove. simpl.
    induction (Client.conversations db) as [|d l IH]; simpl; [reflexivity|].
    destruct (eqb (Client.id d) convId) eqn:E, (eqb (Client.userId d) v) eqn:Ev;
      simpl; rewrite ?E, ?Ev; simpl; now rewrite IH.
  - destruct selected as [c|]; [|tauto].
    destruct (eqb c convId) eqn:E.
    + apply eqb_eq in E. subst c. tauto.
    + apply eqb_neq in E. split; [discriminate|].
      intros [H|H]; [discriminate|]. injection H as H. contradiction.
  - intros c -> Hne. apply eqb_neq in Hne. now rewrite Hne.
  - intros R2 uid2 selected2. unfold Client.deleteConversation, Client.deleteDoc.
    destruct (R2 uid2 Client.DeleteConversation convId _); simpl; [|reflexivity].
    unfold Client.remove. simpl. now rewrite Hidem.
Qed.

(** Alice deletes the conversation she has open, after two messages. *)
Lemma deleteConversation_removes_the_document_only_witness :
  let db :=
    fst (fst (Client.handleSubmit (engine := Fragment.engine) Sample.open_rules
                Sample.alice Sample.world_hi Sample.c1 (Sample.typing Sample.hello)
                Sample.store)) in
  let '(db', selected', _) :=
    Client.deleteConversation Sample.owner_rules Sample.alice Sample.c1
      (Some Sample.c1) db in
  Client.sidebar Sample.alice db' = []
  /\ selected' = None
  /\ List.length (Client.messages_of Sample.c1 db') = 2%nat.
Proof.
  cbv zeta.
  pose proof (deleteConversation_removes_the_document_only Sample.owner_rules
                Sample.alice Sample.c1 (Some Sample.c1)
                (fst (fst (Client.handleSubmit (engine := Fragment.engine)
                             Sample.open_rules Sample.alice Sample.world_hi
                             Sample.c1 (Sample.typing Sample.hello) Sample.store)))
                eq_refl) as H.
  destruct (Client.deleteConversation _ _ _ _ _) as [[db' selected'] evs].
  destruct H as (_ & Hm & Hs & Hsel & _). split; [|split].
  - rewrite Hs. vm_compute. reflexivity.
  - apply Hsel. now right.
  - unfold Client.messages_of. rewrite Hm. vm_compute. reflexivity.
Defined.

(** X22. What [sendMessageToN8n] hands to the chat when the webhook
    answered. When the API route is reached, the webhook is configured and
    its answer has a 2xx status, the client helper calls the route once
    and the route the webhook once, and what it returns follows what
    arrives of the route's answer [{"responseBody": text}] once it has been
    serialised and parsed. When the answer arrives as it was, the helper
    returns the text the route extracted whenever that text is truthy, and
    the serialisation of the whole answer when it is not (an empty body,
    say). When the text is a number that is not finite, which the
    serialisation prints as [null], the helper returns the serialisation
    [{"responseBody":null}]. When the client cannot parse what it was sent
    the helper throws. *)
Theorem relay_returns_extracted_text :
  forall (engine : Engine) w message conversationId status raw,
    Client.api_reachable w = true ->
    str_truthy (Client.webhookUrl w) = true ->
    Client.upstream w = Client.Response status raw ->
    Client.ok status = true ->
    let text := Client.responseText raw in
    let answer := JObj [(lit "responseBody", text)] in
    let nothing := JObj [(lit "responseBody", JNull)] in
    let calls :=
      [Client.CalledApi message conversationId;
       Client.CalledWebhook message conversationId] in
    (Client.received answer = Some answer ->
     Client.sendMessageToN8n w message conversationId
     = (calls,
        Some (if truthy text then text else JStr (JSON_stringify answer))))
    /\ (forall x,
          text = JNum x -> PrimFloat.is_finite x = false ->
          Client.received nothing = Some nothing ->
          Client.sendMessageToN8n w message conversationId
          = (calls, Some (JStr (JSON_stringify nothing))))
    /\ (Client.received answer = None ->
        Client.sendMessageToN8n w message conversationId
        = (calls ++ [Client.Logged "Error sending message to N8N:"], None)).
Proof.
  intros engine w message conversationId status raw Hreach Hurl Hup Hok
    text answer nothing calls.
  assert (Hwire : forall data,
             Client.received answer = Some (JObj [(lit "responseBody", data)]) ->
             Client.sendMessageToN8n w message conversationId
             = (calls,
                Some (if truthy data then data
                      else JStr (JSON_stringify
                                   (JObj [(lit "responseBody", data)]))))).
  { intros data Hr. unfold Client.sendMessageToN8n, Client.POST.
    rewrite Hreach, Hurl, Hup, Hok. simpl negb. cbv beta iota zeta.
    simpl Client.status. change (Client.ok 200) with true. simpl negb.
    cbv beta iota. simpl Client.body. fold text. fold answer. rewrite Hr.
    unfold pick at 1. simpl get.
    replace (eqb (lit "error") (lit "responseBody")) with false by reflexivity.
    simpl. unfold pick. simpl get. cbv iota.
    unfold calls. now destruct (truthy data). }
  split; [|split].
  - intros Hr. apply (Hwire text Hr).
  - intros x Ex Hinf Hr.
    assert (Es : JSON_stringify answer = JSON_stringify nothing).
    { unfold answer, nothing, JSON_stringify. rewrite Ex. simpl.
      now rewrite Hinf. }
    unfold Client.received in Hr. rewrite <- Es in Hr.
    rewrite (Hwire JNull Hr). reflexivity.
  - intros Hr. unfold Client.sendMessageToN8n, Client.POST.
    rewrite Hreach, Hurl, Hup, Hok. simpl negb. cbv beta iota zeta.
    simpl Client.status. change (Client.ok 200) with true. simpl negb.
    cbv beta iota. simpl Client.body. fold text. fold answer. rewrite Hr. reflexivity.
Qed.

(** The webhook answers with the empty body, and with a number beyond the
    largest double. *)
Lemma relay_returns_extracted_text_witness :
  snd (Client.sendMessageToN8n (engine := Fragment.engine)
         (Client.mkWorld 1000 250 true (lit "http://n8n.local/webhook")
            (Client.Response 200 []))
         Sample.hello Sample.c1)
  = Some (JStr (JSON_stringify (engine := Fragment.engine)
                  (JObj [(lit "responseBody", JStr [])])))
  /\ snd (Client.sendMessageToN8n (engine := Scenario.wide_engine)
            (Client.mkWorld 1000 250 true (lit "http://n8n.local/webhook")
               (Client.Response 200 Scenario.overflowing))
            Sample.hello Sample.c1)
     = Some (JStr (JSON_stringify (engine := Scenario.wide_engine)
                     (JObj [(lit "responseBody", JNull)]))).
Proof.
  split.
  - rewrite (proj1 (relay_returns_extracted_text Fragment.engine
                      (Client.mkWorld 1000 250 true (lit "http://n8n.local/webhook")
                         (Client.Response 200 []))
                      Sample.hello Sample.c1 200 [] eq_refl eq_refl eq_refl
                      eq_refl));
      vm_compute; reflexivity.
  - rewrite (proj1 (proj2 (relay_returns_extracted_text Scenario.wide_engine
                             (Client.mkWorld 1000 250 true
                                (lit "http://n8n.local/webhook")
                                (Client.Response 200 Scenario.overflowing))
                             Sample.hello Sample.c1 200 Scenario.overflowing
                             eq_refl eq_refl eq_refl eq_refl))
               PrimFloat.infinity);
      vm_compute; reflexivity.
Defined.

(** X23. A conversation that receives a message moves to the top of its
    owner's sidebar. When the rules admit the user message at the store of
    the submission and the updates of the conversation at that store and
    at the stores the submission makes of it before the reply, the ids of
    the conversations are distinct and the submission is later than every
    stored update time, then after [handleSubmit] the list behind the
    sidebar of the owner of the conversation starts with that
    conversation, stamped with the time of the submission; its title is
    the one derived from the text when the list of messages the component
    held was empty, and the title it had otherwise. *)
Theorem submit_moves_conversation_to_top :
  forall (engine : Engine) R uid w c st db d0,
    trim (Client.input st) <> [] -> Client.loading st = false ->
    R uid Client.CreateMessage c db = true ->
    Terms.admitted_during R uid Client.UpdateConversation c db ->
    NoDup (map Client.id (Client.conversations db)) ->
    In d0 (Client.conversations db) -> Client.id d0 = c ->
    (forall d, In d (Client.conversations db) ->
               Client.updatedAt d < Client.now w) ->
    let '(db', _, _) := Client.handleSubmit R uid w c st db in
    exists rest,
      ChatPage.conversationList (Client.userId d0) db'
      = Client.mkConversation c (Client.userId d0)
          (if (List.length (Client.messages st) =? 0)%nat
           then Client.title_of (trim (Client.input st))
           else Client.title d0)
          (Client.conv_createdAt d0) (Client.now w)
        :: rest.
Proof.
  intros engine R uid w c st db d0 Ht Hl HR HU Hnd Hin Hid Hold.
  assert (Hc : Client.has_conversation c db = true).
  { apply existsb_exists. exists d0. split; [exact Hin|].
    rewrite Hid. apply eqb_refl. }
  pose proof (handleSubmit_conversations R uid w c st db Ht Hl HR HU Hc) as E.
  destruct (Client.handleSubmit R uid w c st db) as [[db' st'] evs].
  simpl in E. unfold ChatPage.conversationList, Client.sidebar. rewrite E.
  destruct (conversationList_top (Client.userId d0)
              (fun d => Client.mkConversation (Client.id d) (Client.userId d)
                          (if (List.length (Client.messages st) =? 0)%nat
                           then Client.title_of (trim (Client.input st))
                           else Client.title d)
                          (Client.conv_createdAt d) (Client.now w))
              c db d0 Hnd Hin Hid eq_refl Hold) as [rest Er].
  exists rest. rewrite Er, Hid. reflexivity.
Qed.

(** Alice creates a conversation at time 20 and sends its first message
    at time 1000: it is listed above her older one, under the new title. *)
Lemma submit_moves_conversation_to_top_witness :
  let '(db1, p1, _) :=
    ChatPage.createNewConversation (fun _ _ => true) (Some Sample.alice)
      (Client.mkWorld 20 0 true [] Client.NetworkError) (lit "conv-2")
      (ChatPage.mkPage None false) Sample.store in
  ChatPage.selectedConversation p1 = Some (lit "conv-2")
  /\ map Client.title (ChatPage.conversationList Sample.alice db1)
     = [lit "New Chat"; lit "New Chat"]
  /\ let '(db2, _, _) :=
       Client.handleSubmit (engine := Fragment.engine) Sample.owner_rules
         Sample.alice Sample.world_hi (lit "conv-2") (Sample.typing Sample.hello)
         db1 in
     map Client.id (ChatPage.conversationList Sample.alice db2)
     = [lit "conv-2"; Sample.c1]
     /\ map Client.title (ChatPage.conversationList Sample.alice db2)
        = [Sample.hello; lit "New Chat"].
Proof.
  destruct (ChatPage.createNewConversation _ _ _ _ _ _) as [[db1 p1] evs1] eqn:E1.
  vm_compute in E1. injection E1 as <- <- <-.
  split; [reflexivity|]. split; [reflexivity|].
  set (db1 := Client.mkFirestore _ _).
  assert (Hnd : NoDup (map Client.id (Client.conversations db1))).
  { vm_compute. repeat (constructor; [simpl; intuition discriminate|]).
    constructor. }
  assert (Hold : forall d, In d (Client.conversations db1) ->
                           Client.updatedAt d < Client.now Sample.world_hi).
  { intros d [<-|[<-|[]]]; vm_compute; reflexivity. }
  pose proof (submit_moves_conversation_to_top Fragment.engine Sample.owner_rules
                Sample.alice Sample.world_hi (lit "conv-2")
                (Sample.typing Sample.hello) db1
                (Client.mkConversation (lit "conv-2") Sample.alice (lit "New Chat")
                   20 20)
                ltac:(vm_compute; discriminate) eq_refl
                eq_refl ltac:(apply owner_rules_during; reflexivity) Hnd
                ltac:(right; left; reflexivity) eq_refl Hold) as H.
  destruct (Client.handleSubmit _ _ _ _ _ _) as [[db2 st2] evs2] eqn:E2.
  destruct H as [rest Hr]. cbn [Client.userId] in Hr.
  assert (Hlist : ChatPage.conversationList Sample.alice db2
                  = ChatPage.conversationList Sample.alice
                      (fst (fst (Client.handleSubmit (engine := Fragment.engine)
                                   Sample.owner_rules Sample.alice Sample.world_hi
                                   (lit "conv-2") (Sample.typing Sample.hello)
                                   db1))))
    by now rewrite E2.
  assert (Hrest : rest = tl (ChatPage.conversationList Sample.alice db2))
    by now rewrite Hr.
  rewrite Hlist in Hrest. vm_compute in Hrest. subst rest.
  rewrite Hr. split; reflexivity.
Defined.

(** X24. [createNewConversation] and the sidebar. While nobody is signed
    in or a creation is in flight the handler does nothing. Otherwise it
    ends with the in-flight flag cleared and never touches a message; when
    the store refuses the new document nothing is stored, the selection
    stays and the error is logged; when the store admits it, the new
    conversation is selected, it is titled "New Chat" and owned by the
    signed-in user, the sidebar of every other user is what it was, and,
    created later than every stored update time, it heads the sidebar of
    its creator, above the conversations that were there, which keep
    their order. *)
Theorem new_conversation_heads_the_sidebar :
  forall C signedIn w docId p db,
    let '(db', p', evs) :=
      ChatPage.createNewConversation C signedIn w docId p db in
    Client.message_docs db' = Client.message_docs db
    /\ (signedIn = None \/ ChatPage.creatingConversation p = true ->
        db' = db /\ p' = p /\ evs = [])
    /\ (forall uid,
          signedIn = Some uid -> ChatPage.creatingConversation p = false ->
          ChatPage.creatingConversation p' = false
          /\ (C uid db = false ->
              db' = db
              /\ ChatPage.selectedConversation p' = ChatPage.selectedConversation p
              /\ evs = [Client.Logged "Error creating conversation:"])
          /\ (C uid db = true ->
              ChatPage.selectedConversation p' = Some docId
              /\ (forall v, v <> uid ->
                            ChatPage.conversationList v db'
                            = ChatPage.conversationList v db)
              /\ ((forall d, In d (Client.conversations db) ->
                             Client.updatedAt d < Client.now w) ->
                  ChatPage.conversationList uid db'
                  = Client.mkConversation docId uid (lit "New Chat")
                      (Client.now w) (Client.now w)
                    :: ChatPage.conversationList uid db))).
Proof.
  intros C signedIn w docId p db. unfold ChatPage.createNewConversation.
  destruct signedIn as [uid|].
  - destruct (ChatPage.creatingConversation p) eqn:Ec.
    + split; [reflexivity|]. split; [auto|]. intros u _ H. discriminate H.
    + destruct (C uid db) eqn:EC.
      * split; [reflexivity|]. split; [intros [H|H]; discriminate H|].
        intros u [= <-] _. split; [reflexivity|].
        split; [intros H; congruence|]. intros _.
        split; [reflexivity|]. split.
        -- intros v Hv. unfold ChatPage.conversationList, Client.sidebar. simpl.
           rewrite filter_app. simpl.
           apply eqb_neq in Hv.
           assert (E : eqb uid v = false).
           { apply eqb_neq. intros ->. apply eqb_neq in Hv. now apply Hv. }
           now rewrite E, app_nil_r.
        -- intros Hold. unfold ChatPage.conversationList, Client.sidebar. simpl.
           rewrite filter_app. simpl. rewrite eqb_refl.
           apply order_by_desc_last. intros d Hd.
           apply filter_In in Hd. simpl. now apply Hold.
      * split; [reflexivity|]. split; [intros [H|H]; discriminate H|].
        intros u [= <-] _. split; [reflexivity|].
        split; [auto|]. intros H. congruence.
  - split; [reflexivity|]. split; [auto|]. intros u H. discriminate H.
Qed.

(** Bob, signed in, creates a conversation on the sample store; a second
    click while the first creation is in flight does nothing. *)
Lemma new_conversation_heads_the_sidebar_witness :
  (let '(db', p', _) :=
     ChatPage.createNewConversation (fun _ _ => true) (Some Sample.bob)
       (Client.mkWorld 20 0 true [] Client.NetworkError) (lit "conv-2")
       (ChatPage.mkPage None false) Sample.store in
   ChatPage.selectedConversation p' = Some (lit "conv-2")
   /\ map Client.id (ChatPage.conversationList Sample.bob db') = [lit "conv-2"]
   /\ ChatPage.conversationList Sample.alice db'
      = ChatPage.conversationList Sample.alice Sample.store)
  /\ ChatPage.createNewConversation (fun _ _ => true) (Some Sample.bob)
       (Client.mkWorld 20 0 true [] Client.NetworkError) (lit "conv-2")
       (ChatPage.mkPage None true) Sample.store
     = (Sample.store, ChatPage.mkPage None true, []).
Proof.
  split.
  - pose proof (new_conversation_heads_the_sidebar (fun _ _ => true)
                  (Some Sample.bob)
                  (Client.mkWorld 20 0 true [] Client.NetworkError) (lit "conv-2")
                  (ChatPage.mkPage None false) Sample.store) as H.
    destruct (ChatPage.createNewConversation _ _ _ _ _ _) as [[db' p'] evs].
    destruct H as (_ & _ & H).
    destruct (H Sample.bob eq_refl eq_refl) as (_ & _ & Hok).
    destruct (Hok eq_refl) as (Hsel & Hothers & Htop).
    split; [exact Hsel|]. split.
    + rewrite Htop; [reflexivity|].
      intros d [<-|[]]. vm_compute. reflexivity.
    + apply Hothers. vm_compute. discriminate.
  - pose proof (new_conversation_heads_the_sidebar (fun _ _ => true)
                  (Some Sample.bob)
                  (Client.mkWorld 20 0 true [] Client.NetworkError) (lit "conv-2")
                  (ChatPage.mkPage None true) Sample.store) as H.
    destruct (ChatPage.createNewConversation _ _ _ _ _ _) as [[db' p'] evs].
    destruct H as (_ & H & _).
    destruct (H (or_intror eq_refl)) as (-> & -> & ->). reflexivity.
Defined.

(** X25. The allowed domains of the auth context. With no domain listed
    [isAllowedDomain] lets every address pass, one without ['@'] included;
    and no domain is listed when the variable is unset or empty, or holds
    nothing but commas and white space (lowering the empty string gives
    the empty string). With a domain listed, an address without ['@'] is
    refused, and an address with one passes exactly when the lowered text
    between its first ['@'] and the next (or the end) is on the list. *)
Theorem client_domain_gate :
  forall (locale : AuthContext.Locale) env,
    (AuthContext.toLowerCase [] = [] ->
     match env with
     | None => True
     | Some e => Forall Spec.blank (Text.split 44%N e)
     end ->
     AuthContext.getAllowedDomains env = [])
    /\ (AuthContext.getAllowedDomains env = [] ->
        forall email, AuthContext.isAllowedDomain env email = true)
    /\ (AuthContext.getAllowedDomains env <> [] ->
        (forall email : jsstring,
            ~ In 64%N email -> AuthContext.isAllowedDomain env email = false)
        /\ (forall local domain : jsstring,
              ~ In 64%N local -> ~ In 64%N domain ->
              (AuthContext.isAllowedDomain env (local ++ 64%N :: domain) = true
               <-> In (AuthContext.toLowerCase domain)
                     (AuthContext.getAllowedDomains env))
              /\ forall rest : jsstring,
                  AuthContext.isAllowedDomain env
                    (local ++ 64%N :: domain ++ 64%N :: rest)
                  = AuthContext.isAllowedDomain env (local ++ 64%N :: domain))).
Proof.
  intros locale env. split; [|split].
  - intros Hlow Henv. unfold AuthContext.getAllowedDomains.
    assert (Hall : Forall Spec.blank
                     (Text.split 44%N
                        match Server.given env with Some d => d | None => [] end)).
    { destruct env as [[|c e]|]; [repeat constructor|exact Henv|repeat constructor]. }
    induction Hall as [|piece l Hp _ IH]; [reflexivity|].
    simpl. apply trim_nil_iff in Hp. rewrite Hp, Hlow. simpl. exact IH.
  - intros Hnone email. unfold AuthContext.isAllowedDomain. now rewrite Hnone.
  - intros Hsome. unfold AuthContext.isAllowedDomain.
    destruct (AuthContext.getAllowedDomains env) as [|d l] eqn:E;
      [now elim Hsome|]. simpl Nat.eqb. cbv iota. split.
    + intros email H. now rewrite split_none.
    + intros local domain Hl Hd.
      destruct (split_second 64%N local domain Hl Hd) as [E1 E2].
      unfold code_unit in *. split.
      * rewrite E1. apply existsb_eqb_In.
      * intros rest. now rewrite E1, E2.
Qed.

(** A variable of commas and blanks only, and the list "Example.com". *)
Lemma client_domain_gate_witness :
  AuthContext.isAllowedDomain (locale := Scenario.locale) (Some (lit " , ,"))
    (lit "nobody") = true
  /\ AuthContext.isAllowedDomain (locale := Scenario.locale)
       (Some (lit "Example.com")) (lit "eve" ++ 64%N :: lit "EXAMPLE.COM")
     = true
  /\ AuthContext.isAllowedDomain (locale := Scenario.locale)
       (Some (lit "Example.com")) (lit "nobody") = false.
Proof.
  split; [|split].
  - destruct (client_domain_gate Scenario.locale (Some (lit " , ,")))
      as (Hblank & Hnone & _).
    apply Hnone. apply Hblank; [reflexivity|].
    vm_compute. repeat constructor.
  - destruct (client_domain_gate Scenario.locale (Some (lit "Example.com")))
      as (_ & _ & Hsome).
    destruct Hsome as [_ H]; [vm_compute; discriminate|].
    destruct (H (lit "eve") (lit "EXAMPLE.COM")) as [Hiff _].
    + vm_compute. intuition discriminate.
    + vm_compute. intuition discriminate.
    + apply Hiff. vm_compute. now left.
  - destruct (client_domain_gate Scenario.locale (Some (lit "Example.com")))
      as (_ & _ & Hsome).
    destruct Hsome as [H _]; [vm_compute; discriminate|].
    apply H. vm_compute. intuition discriminate.
Defined.

(* ===================================================================== *)
(** * Further properties across the handlers *)
(* ===================================================================== *)

(** X26. A resend replaces the link. After the router has sent a new
    verification email (tokens and user ids being distinct), every link
    that was issued to the account before and not used yet is dead: it is
    answered 400 "Invalid Verification Link" at any time, unless it
    happens to carry the very token that was just drawn; and the new link,
    followed within 24 hours, is answered 200 "Email Verified
    Successfully" and leaves the account verified. *)
Theorem resend_replaces_the_link :
  forall w e u db db',
    Server.router_resendVerification w (Some e) db
    = (db', Server.RouterReply 200 true "Verification email sent successfully") ->
    find (fun v => eqb (Server.u_email v) e) (Server.users db) = Some u ->
    Terms.tokens_unique db ->
    NoDup (map Server.u_id (Server.users db)) ->
    (forall old w2,
        In old (Server.email_verification_tokens db) ->
        Server.t_user_id old = Server.u_id u ->
        Server.t_is_used old = false ->
        Server.t_token old <> Server.randomBytes w ->
        Accounts.router_verifyEmail w2 (Some (Server.t_token old)) db'
        = (db', Accounts.Verification 400 false "Invalid Verification Link"))
    /\ (forall w2,
          Server.randomBytes w <> [] ->
          Server.now w2 <= Server.now w + 24 * 60 * 60 * 1000 ->
          let '(db2, v) :=
            Accounts.router_verifyEmail w2 (Some (Server.randomBytes w)) db' in
          v = Accounts.Verification 200 true "Email Verified Successfully"
          /\ In (Terms.verified u) (Server.users db2)).
Proof.
  intros w e u db db' Hsend Hfind Huniq Hnd.
  apply router_resendVerification_store in Hsend.
  destruct Hsend as (e' & u' & [= <-] & Hfind' & Hv & Hus & Hfresh & Htok).
  rewrite Hfind in Hfind'. injection Hfind' as <-.
  apply find_some in Hfind. destruct Hfind as [Hin _].
  split.
  - intros old w2 Hold Hu Hused Hne. unfold Accounts.router_verifyEmail.
    destruct (Server.given (Some (Server.t_token old))) as [tok|] eqn:Eg;
      [|reflexivity].
    apply given_Some in Eg. destruct Eg as [[= <-] _].
    unfold Accounts.tokens_with_users. rewrite Htok, filter_app. simpl.
    destruct (eqb (Server.randomBytes w) (Server.t_token old)) eqn:E;
      [apply eqb_eq in E; congruence|].
    rewrite app_nil_r, filter_none; [reflexivity|].
    apply not_true_is_false. intros H. apply existsb_exists in H.
    destruct H as [r [Hr Er]]. apply filter_In in Hr. destruct Hr as [Hr Hkeep].
    apply eqb_eq in Er.
    assert (r = old)
      by exact (NoDup_map_eq _ _ Server.t_token _ r old Huniq Hr Hold Er).
    subst r. now rewrite Hu, Z.eqb_refl, Hused in Hkeep.
  - intros w2 Hrand Htime. unfold Accounts.router_verifyEmail.
    destruct (Server.randomBytes w) as [|c r] eqn:Er; [now elim Hrand|].
    simpl Server.given. cbv iota.
    unfold Accounts.tokens_with_users. rewrite Htok, Hus, filter_app.
    rewrite (filter_none _ _ _ Hfresh). simpl. rewrite eqb_refl. simpl.
    rewrite app_nil_r.
    rewrite (filter_key _ Server.u_id (Server.users db) u Hnd Hin). simpl.
    match goal with
    | |- context [?a <? Server.now w2] =>
        destruct (Z.ltb_spec a (Server.now w2)); [lia|]
    end.
    rewrite ?Hv. cbv iota. split; [reflexivity|]. simpl. rewrite Hus.
    apply in_map_iff. exists u. split; [|exact Hin].
    now rewrite Z.eqb_refl.
Qed.

(** Alice asks for a new email on the sample data: the two links she
    held are dead, the new one verifies her account. *)
Lemma resend_replaces_the_link_witness :
  let db' :=
    fst (Server.router_resendVerification (Sample.at_time 1000 Server.Timeout)
           (Some (lit "alice@example.com")) Sample.db) in
  Accounts.router_verifyEmail (Sample.at_time 1100 Server.Timeout)
    (Some (lit "old-token-a")) db'
  = (db', Accounts.Verification 400 false "Invalid Verification Link")
  /\ snd (Accounts.router_verifyEmail (Sample.at_time 1100 Server.Timeout)
            (Some (lit "fresh-token")) db')
     = Accounts.Verification 200 true "Email Verified Successfully".
Proof.
  destruct (Server.router_resendVerification (Sample.at_time 1000 Server.Timeout)
              (Some (lit "alice@example.com")) Sample.db) as [db' r] eqn:E.
  assert (Er : r = snd (Server.router_resendVerification
                          (Sample.at_time 1000 Server.Timeout)
                          (Some (lit "alice@example.com")) Sample.db))
    by now rewrite E.
  vm_compute in Er. subst r. cbv beta iota zeta delta [fst].
  destruct (resend_replaces_the_link _ _ Sample.u_alice _ _ E eq_refl) as [Hold Hnew].
  - vm_compute. repeat (constructor; [simpl; intuition discriminate|]).
    constructor.
  - vm_compute. repeat (constructor; [simpl; intuition discriminate|]).
    constructor.
  - split.
    + apply (Hold (Server.mkToken 1 1 (lit "old-token-a") 500 100 None false)).
      * now left.
      * reflexivity.
      * reflexivity.
      * vm_compute. discriminate.
    + specialize (Hnew (Sample.at_time 1100 Server.Timeout)
                    ltac:(vm_compute; discriminate) ltac:(vm_compute; discriminate)).
      change (Server.randomBytes (Sample.at_time 1000 Server.Timeout))
        with (lit "fresh-token") in Hnew.
      destruct (Accounts.router_verifyEmail _ _ _) as [db2 v].
      exact (proj1 Hnew).
Defined.



(** X28. What the form of the session-based client sends is stored as it
    was typed. Whenever [sendMessage] of the client posts, it posts the
    text untrimmed together with the id of the current session; the server
    then never refuses it for a missing message, and for an active session
    of the caller it stores exactly the text typed, leading and trailing
    white space included, as the user message it answers with. *)
Theorem client_message_is_stored_verbatim :
  forall (engine : Engine) (libraries : Server.Libraries) cfg w u newMessage sid
         sessionId message db,
    App.sendMessage newMessage (Some sid) = Some (sessionId, message) ->
    sid <> 0 ->
    existsb (Server.owns_active (Server.u_id u) sid) (Server.chat_sessions db)
    = true ->
    let stored :=
      Server.mkMessage (Server.messages_id_seq db) sid (Server.u_id u) newMessage
        Server.user None (Server.now w) None in
    let '(db', _, r) := Server.sendMessage cfg w u sessionId message db in
    sessionId = Some sid /\ message = Some newMessage
    /\ ~ Spec.blank newMessage
    /\ (exists webhookResponse responseTime,
           r = Server.MessageSent stored webhookResponse responseTime)
    /\ In stored (Server.messages db').
Proof.
  intros engine libraries cfg w u newMessage sid sessionId message db Happ Hsid Ho.
  unfold App.sendMessage in Happ.
  destruct (str_truthy (trim newMessage)) eqn:Et; simpl in Happ; [|discriminate].
  injection Happ as <- <-.
  assert (Hnb : ~ Spec.blank newMessage).
  { intros Hb. apply trim_nil_iff in Hb. now rewrite Hb in Et. }
  assert (Hne : newMessage <> []).
  { intros ->. apply Hnb. constructor. }
  assert (Hgid : Server.given_id (Some sid) = Some sid).
  { unfold Server.given_id. apply Z.eqb_neq in Hsid. now rewrite Hsid. }
  assert (Hg : Server.given (Some newMessage) = Some newMessage).
  { destruct newMessage; [now elim Hne|reflexivity]. }
  rewrite (sendMessage_accepted cfg w u (Some sid) (Some newMessage) sid
             newMessage db Hgid Hg Ho).
  unfold Server.insert_message.
  destruct (Server.webhook_enabled cfg && str_truthy (Server.webhook_url cfg)).
  - match goal with
    | |- context [Server.callWebhook w u sid newMessage ?d] =>
        pose proof (callWebhook_store w u sid newMessage d) as Hw;
        destruct (Server.callWebhook w u sid newMessage d) as [[[db2 ev2] wr] rt]
    end.
    destruct Hw as (_ & _ & _ & _ & bots & Hb & _). simpl in Hb.
    repeat split; eauto.
    rewrite messages_logUserActivity. simpl. rewrite Hb.
    apply in_or_app. left. apply in_or_app. right. now left.
  - repeat split; eauto.
    rewrite messages_logUserActivity. simpl.
    apply in_or_app. right. now left.
Qed.

(** Alice types a message with spaces around it. *)
Lemma client_message_is_stored_verbatim_witness :
  let '(db', _, _) :=
    Sample.send Sample.quiet 1000 Server.Timeout (lit " hello ") Sample.db in
  App.sendMessage (lit " hello ") (Some 1) = Some (Some 1, Some (lit " hello "))
  /\ In (Sample.user_row 1 1000 (lit " hello ")) (Server.messages db').
Proof.
  pose proof (client_message_is_stored_verbatim Fragment.engine Fragment.libraries
                Sample.quiet (Sample.at_time 1000 Server.Timeout) Sample.u_alice
                (lit " hello ") 1 (Some 1) (Some (lit " hello ")) Sample.db
                eq_refl ltac:(discriminate) eq_refl) as H.
  unfold Sample.send.
  destruct (Server.sendMessage _ _ _ _ _ _) as [[db' evs] r].
  destruct H as (_ & _ & _ & _ & Hin). split; [reflexivity|exact Hin].
Defined.

(* ===================================================================== *)
(** * The socket server and the title of a conversation *)
(* ===================================================================== *)

Section SocketFacts.
Import JS Server.
Context {engine : Engine} {libraries : Libraries}.
Variable cfg : config.

(** What a socket receives of the relay of one message. *)
Lemma callWebhook_heard w u s m db joined listener :
  let '(db', evs, _, _) := callWebhook w u s m db in
  exists rows,
    messages db' = messages db ++ rows
    /\ newMessages joined listener evs
       = if in_room listener s joined then rows else [].
Proof.
  assert (Hnone : exists rows : list messages_row,
             messages db = messages db ++ rows
             /\ [] = if in_room listener s joined then rows else []).
  { exists []. rewrite app_nil_r. split; [reflexivity|].
    now destruct (in_room listener s joined). }
  unfold callWebhook.
  destruct (webhook w) as [| |status data]; try exact Hnone.
  destruct (validateStatus status); [|exact Hnone].
  destruct (botMessageText data) as [v|]; [|exact Hnone].
  destruct (prepareValue v) as [text|]; [|exact Hnone].
  unfold insert_message. simpl.
  eexists. split; [reflexivity|].
  now destruct (in_room listener s joined).
Qed.

Lemma sendMessage_heard w u sid msg db joined listener :
  let '(db', evs, _) := sendMessage cfg w u sid msg db in
  exists rows,
    messages db' = messages db ++ rows
    /\ newMessages joined listener evs
       = match given_id sid with
         | Some s => if in_room listener s joined then rows else []
         | None => []
         end.
Proof.
  assert (Hnone : forall s : option Z,
             exists rows : list messages_row,
               messages db = messages db ++ rows
               /\ [] = match s with
                       | Some s => if in_room listener s joined then rows else []
                       | None => []
                       end).
  { intros s. exists []. rewrite app_nil_r. split; [reflexivity|].
    destruct s as [s|]; [|reflexivity].
    now destruct (in_room listener s joined). }
  unfold sendMessage.
  destruct (given_id sid) as [s|]; [|apply (Hnone None)].
  destruct (given msg) as [m|]; [|apply (Hnone (Some s))].
  destruct (existsb _ _); simpl negb; cbv iota; [|apply (Hnone (Some s))].
  unfold insert_message at 1. cbv beta iota zeta.
  destruct (webhook_enabled cfg && str_truthy (webhook_url cfg)).
  - match goal with |- context [callWebhook w u s m ?d] =>
      pose proof (callWebhook_heard w u s m d joined listener) as Hw;
      destruct (callWebhook w u s m d) as [[[db2 ev2] wr] rt]
    end.
    destruct Hw as [rows [Hm Hh]]. simpl in Hm.
    rewrite messages_logUserActivity. simpl messages. rewrite Hm, <- app_assoc.
    eexists. split; [reflexivity|].
    unfold newMessages in *. simpl flat_map. rewrite Hh.
    now destruct (in_room listener s joined).
  - rewrite messages_logUserActivity. simpl.
    eexists. split; [reflexivity|].
    now destruct (in_room listener s joined).
Qed.

End SocketFacts.

Section TitleFacts.
Import JS Client.
Context {engine : Engine}.

Lemma titles_touch c t db :
  map title (conversations (patch c (touch t) db)) = map title (conversations db).
Proof.
  simpl. rewrite map_map. apply map_ext. intros d.
  now destruct (eqb (id d) c).
Qed.

Lemma titles_on_error R uid c t st db evs :
  map title (conversations (fst (fst (on_error R uid c t st db evs))))
  = map title (conversations db).
Proof.
  unfold on_error, addDoc. now destruct (R uid CreateMessage c db).
Qed.

(** A submission made while the component holds a message leaves every
    title as it is. *)
Lemma handleSubmit_keeps_titles R uid w c st db :
  messages st <> [] ->
  map title (conversations (fst (fst (handleSubmit R uid w c st db))))
  = map title (conversations db).
Proof.
  intros Hm. unfold handleSubmit.
  destruct (negb (str_truthy (trim (input st))) || loading st); [reflexivity|].
  cbv zeta.
  destruct (addDoc R uid c _ db) as [db1|e] eqn:E1;
    [|apply titles_on_error].
  assert (H1 : conversations db1 = conversations db).
  { unfold addDoc in E1. destruct (R uid CreateMessage c db); [|discriminate].
    injection E1 as <-. reflexivity. }
  destruct (messages st) as [|m0 l]; [now elim Hm|]. simpl Nat.eqb. cbv iota.
  destruct (updateDoc_cases R uid c (touch (now w)) db1) as [E|[e E]]; rewrite E.
  - assert (H3 : map title (conversations (patch c (touch (now w)) db1))
                 = map title (conversations db))
      by (rewrite titles_touch; now rewrite H1).
    destruct (sendMessageToN8n w (trim (input st)) c) as [ev3 [text|]].
    + unfold addDoc at 1.
      destruct (R uid CreateMessage c (patch c (touch (now w)) db1)).
      * exact H3.
      * rewrite titles_on_error. exact H3.
    + rewrite titles_on_error. exact H3.
  - rewrite titles_on_error. now rewrite H1.
Qed.

End TitleFacts.

(** X29. The socket server admits every listener. [joinSession] puts the
    socket into the room of whatever session id it names, without a token
    and without a look at the owner of the session; and of a post to
    [/api/chat/message] a socket receives, as ['newMessage'] events and in
    the order they were stored, exactly the rows the post added to
    [messages] when it is in the room of the session the post names, and
    nothing when it is not or when the post names no session. *)
Theorem any_socket_hears_a_session :
  forall (engine : Engine) (libraries : Server.Libraries) cfg w u sid msg db
         joined socket,
    (forall session,
        Server.in_room socket session (Server.joinSession socket session joined)
        = true)
    /\ let '(db', evs, _) := Server.sendMessage cfg w u sid msg db in
       exists rows,
         Server.messages db' = Server.messages db ++ rows
         /\ forall listener rooms,
              Server.newMessages rooms listener evs
              = match Server.given_id sid with
                | Some s => if Server.in_room listener s rooms then rows else []
                | None => []
                end.
Proof.
  intros engine libraries cfg w u sid msg db joined socket. split.
  - intros session. unfold Server.joinSession, Server.in_room. simpl.
    now rewrite !Z.eqb_refl.
  - pose proof (fun rooms listener =>
                  sendMessage_heard cfg w u sid msg db rooms listener) as H.
    destruct (Server.sendMessage cfg w u sid msg db) as [[db' evs] r].
    destruct (H [] 0) as [rows [Hm _]].
    exists rows. split; [exact Hm|].
    intros listener rooms. destruct (H rooms listener) as [rows' [Hm' Hh]].
    rewrite Hm in Hm'. apply app_inv_head in Hm'. now subst rows'.
Qed.

(** Socket 7, which nobody authenticated, joins the room of Alice's
    session 1 and receives her message and the reply; socket 8, in the room
    of session 2, receives nothing. *)
Lemma any_socket_hears_a_session_witness :
  let joined := Server.joinSession 7 1 (Server.joinSession 8 2 []) in
  let '(_, evs, _) :=
    Sample.send Sample.cfg 1000 (Server.Replied 200 (JObj [(lit "text", JStr (lit "hi"))]))
      Sample.hello Sample.db in
  map Server.m_message_text (Server.newMessages joined 7 evs)
  = [Sample.hello; lit "hi"]
  /\ Server.newMessages joined 8 evs = [].
Proof.
  cbv zeta.
  pose proof (any_socket_hears_a_session Fragment.engine Fragment.libraries
                Sample.cfg
                (Sample.at_time 1000 (Server.Replied 200 (JObj [(lit "text", JStr (lit "hi"))])))
                Sample.u_alice (Some 1) (Some Sample.hello) Sample.db [] 7) as H.
  unfold Sample.send.
  destruct (Server.sendMessage _ _ _ _ _ _) as [[db' evs] r] eqn:E.
  destruct H as [_ [rows [Hm Hh]]].
  assert (Ed : db' = fst (fst (Server.sendMessage (engine := Fragment.engine)
                                 (libraries := Fragment.libraries) Sample.cfg
                                 (Sample.at_time 1000
                                    (Server.Replied 200 (JObj [(lit "text", JStr (lit "hi"))])))
                                 Sample.u_alice (Some 1) (Some Sample.hello)
                                 Sample.db)))
    by now rewrite E.
  vm_compute in Ed. subst db'. vm_compute in Hm. subst rows.
  rewrite !Hh. split; reflexivity.
Defined.

(** X30. The title follows the list of messages the component holds.
    The derived title is the text itself when it has at most 50 characters
    and its first 50 characters followed by "..." otherwise.
    [handleSubmit] sets a title only when that list is empty, and then the
    title derived from the submitted text and on the conversation of the
    submission; when the list is not empty, no title of the store changes,
    whatever the rules and the relay do; and when the list is empty, the
    text is not blank, no request is in flight, the conversation exists
    and the rules admit the user message and the update that follows it,
    the conversation has the derived title afterwards. When the list is
    what the listener of the conversation would deliver now, a title is
    set only in a conversation that has no message. *)
Theorem title_follows_the_held_list :
  forall (engine : Engine) R uid w c st db,
    let sent :=
      Client.mkMessage Client.user (JStr (trim (Client.input st))) (Client.now w) in
    let '(db', _, evs) := Client.handleSubmit R uid w c st db in
    (forall text,
        Client.title_of text
        = if (List.length text <=? 50)%nat then text
          else firstn 50 text ++ lit "...")
    /\ (forall c' t,
        In (Client.SetTitle c' t) evs ->
        Client.messages st = [] /\ c' = c
        /\ t = Client.title_of (trim (Client.input st))
        /\ (Spec.snapshot_current st c db -> Client.messages_of c db = []))
    /\ (Client.messages st <> [] ->
        map Client.title (Client.conversations db')
        = map Client.title (Client.conversations db))
    /\ (Client.messages st = [] -> trim (Client.input st) <> [] ->
        Client.loading st = false ->
        R uid Client.CreateMessage c db = true ->
        R uid Client.UpdateConversation c (Client.put_message c sent db) = true ->
        Client.has_conversation c db = true ->
        In (Client.SetTitle c (Client.title_of (trim (Client.input st)))) evs
        /\ forall d, In d (Client.conversations db') -> Client.id d = c ->
                     Client.title d = Client.title_of (trim (Client.input st))).
Proof.
  intros engine R uid w c st db sent.
  pose proof (title_only_when_first R uid w c st db) as Honly.
  pose proof (title_set_on_first R uid w c st db) as Hset.
  pose proof (handleSubmit_keeps_titles R uid w c st db) as Hkeep.
  destruct (Client.handleSubmit R uid w c st db) as [[db' st'] evs].
  split; [intros text; apply title_of_auto_title|].
  split; [|split; [exact Hkeep | exact Hset]].
  intros c' t Hin. destruct (Honly c' t Hin) as (Hm & Hc & Ht).
  repeat split; try assumption.
  unfold Spec.snapshot_current. rewrite Hm. intros Hp.
  now apply Permutation_nil in Hp.
Qed.

(** A long first message, then a second message sent once the listener
    has delivered the first exchange. *)
Lemma title_follows_the_held_list_witness :
  (let '(db', _, _) :=
     Client.handleSubmit (engine := Fragment.engine) Sample.owner_rules
       Sample.alice Sample.world_hi Sample.c1 (Sample.typing Sample.long_text)
       Sample.store in
   forall d, In d (Client.conversations db') -> Client.id d = Sample.c1 ->
             Client.title d = Client.title_of (trim Sample.long_text))
  /\ (let '(db', _, _) :=
        Client.handleSubmit (engine := Fragment.engine) Sample.owner_rules
          Sample.alice Sample.world_hi Sample.c1
          (Client.onSnapshot (Client.messages_of Sample.c1 Sample.store_after_hello)
             (Sample.typing (lit "second thoughts")))
          Sample.store_after_hello in
      map Client.title (Client.conversations db') = [Sample.hello]).
Proof.
  split.
  - pose proof (title_follows_the_held_list Fragment.engine Sample.owner_rules
                  Sample.alice Sample.world_hi Sample.c1
                  (Sample.typing Sample.long_text) Sample.store) as W.
    cbv zeta in W.
    destruct (Client.handleSubmit _ _ _ _ _ _) as [[db' st'] evs].
    apply (proj2 (proj2 (proj2 W))).
    + reflexivity.
    + vm_compute. discriminate.
    + reflexivity.
    + reflexivity.
    + reflexivity.
    + reflexivity.
  - pose proof (title_follows_the_held_list Fragment.engine Sample.owner_rules
                  Sample.alice Sample.world_hi Sample.c1
                  (Client.onSnapshot
                     (Client.messages_of Sample.c1 Sample.store_after_hello)
                     (Sample.typing (lit "second thoughts")))
                  Sample.store_after_hello) as W.
    cbv zeta in W.
    destruct (Client.handleSubmit _ _ _ _ _ _) as [[db' st'] evs].
    rewrite (proj1 (proj2 (proj2 W))); [reflexivity|].
    vm_compute. discriminate.
Defined.
